(** * qiskit_ibm.ibm_backend: a shallow embedding of [IBMBackend]

    The module [qiskit_ibm/ibm_backend.py] is glue code: it validates the
    arguments of [run], consolidates the run configuration, splits an
    oversized list of circuits into chunks, submits a payload through the
    account client and wraps the server's answers.  Its methods mutate the
    backend object (two caches and a one-time-warning flag), the caller's
    circuits (in place) and the outside world (network calls, warnings).

    The embedding is a state-and-exception monad over a [World] that holds
    the backend object, the store of circuit objects, the log of calls made
    on the account client and the log of emitted warnings.  Code that lives
    outside this module (the account client, [assemble], the job and model
    classes, [validate_job_tags], ...) is taken as an interface.  Where
    the module guards a call with [try], the call may raise an exception
    of any class and the handler catches the class that the source names.

    A last part embeds [_get_custom_provider] of [test/decorators.py],
    which reads the hub, group and project of the tests' provider from
    the environment. *)

From Stdlib Require Import ZArith Lia Ascii.
From stdpp Require Import base strings list gmap functions.

Open Scope string_scope.
Open Scope list_scope.
Open Scope Z_scope.

(** ** Python values *)

(** The dynamically typed values that flow through the keyword arguments. *)
#[warnings="-register-all"]
Inductive pyval : Type :=
| PyNone
| PyBool (b : bool)
| PyInt (n : Z)
| PyStr (s : string)
| PyList (l : list pyval)
| PyDict (d : list (string * pyval))
| PyEnum (member : string)
| PyDatetime (t : Z)
| PyObj (tag : nat).

(** [x is None] *)
Definition opt_is_None {A} (o : option A) : bool :=
  match o with None => true | Some _ => false end.
Definition is_None (v : pyval) : bool :=
  match v with PyNone => true | _ => false end.

(** Python truthiness, as used by [if x:] and [x and y]. *)
Definition truthy (v : pyval) : bool :=
  match v with
  | PyNone => false
  | PyBool b => b
  | PyInt n => negb (n =? 0)
  | PyStr s => negb (String.eqb s "")
  | PyList l => match l with [] => false | _ => true end
  | PyDict d => match d with [] => false | _ => true end
  | PyEnum _ => true
  | PyDatetime _ => true
  | PyObj _ => true
  end.

(** Truthiness of an [int]. *)
Definition truthyZ (n : Z) : bool := negb (n =? 0).

(** [isinstance(v, bool)] and [isinstance(v, datetime)] *)
Definition isinstance_bool (v : pyval) : bool :=
  match v with PyBool _ => true | _ => false end.
Definition isinstance_datetime (v : pyval) : bool :=
  match v with PyDatetime _ => true | _ => false end.

(** [needle in hay] on strings. *)
Fixpoint str_contains (needle hay : string) : bool :=
  String.prefix needle hay ||
  match hay with
  | EmptyString => false
  | String _ rest => str_contains needle rest
  end.

(** [key in d] and [d[key]] on a dict kept as an association list. *)
Definition dict_get (key : string) (d : list (string * pyval)) : option pyval :=
  snd <$> List.find (fun kv => String.eqb (fst kv) key) d.
Definition dict_has (key : string) (d : list (string * pyval)) : bool :=
  bool_decide (is_Some (dict_get key d)).

(** [range(start, stop, step)] for [step <> 0], with CPython's length. *)
Definition py_range_len (start stop step : Z) : Z :=
  if (0 <? step) && (start <? stop) then 1 + (stop - 1 - start) / step
  else if (step <? 0) && (stop <? start) then 1 + (start - 1 - stop) / (- step)
  else 0.
Definition py_range (start stop step : Z) : list Z :=
  (fun i : nat => start + Z.of_nat i * step) <$>
    seq 0 (Z.to_nat (py_range_len start stop step)).

(** [l[lo:hi]] with integer bounds: negative bounds count from the end and
    both are clipped to the list. *)
Definition py_clip (len i : Z) : Z :=
  if i <? 0 then Z.max (i + len) 0 else Z.min i len.
Definition py_slice {A} (l : list A) (lo hi : Z) : list A :=
  let len := Z.of_nat (length l) in
  let lo' := py_clip len lo in
  let hi' := py_clip len hi in
  take (Z.to_nat (hi' - lo')) (drop (Z.to_nat lo') l).

(** A single object or a list of them ([Union[X, List[X]]]). *)
Inductive one_or_list (A : Type) : Type :=
| One (x : A)
| Many (xs : list A).
Arguments One {A} x.
Arguments Many {A} xs.

(** [if not isinstance(circuits, List): circuits = [circuits]] *)
Definition as_list {A} (c : one_or_list A) : list A :=
  match c with One x => [x] | Many xs => xs end.

(** ** Exceptions, warnings and the calls on the account client *)

Inductive exn : Type :=
| ApiError (msg : string)
| TypeError (msg : string)
| AttributeError (msg : string)
| KeyError (key : string)
| IndexError
| BackendPropertyError
| IBMBackendError (msg : string)
| IBMBackendValueError (msg : string)
| IBMBackendJobLimitError (msg : string)
| IBMBackendApiError (msg : string)
| IBMBackendApiProtocolError (msg : string).

Inductive warning : Type :=
| UnrecognizedOption (key : string)          (* "{key} is not a recognized runtime option ..." *)
| IdDeprecated                               (* DeprecationWarning, 'id' has been deprecated *)
| IdRemoved                                  (* DeprecationWarning, 'id' has been removed *)
| BackendOptionsDeprecated.                  (* DeprecationWarning of IBMSimulator.run *)

Definition is_id_warning (w : warning) : bool :=
  match w with IdDeprecated | IdRemoved => true | _ => false end.
Definition is_unrecognized (key : string) (w : warning) : bool :=
  match w with UnrecognizedOption k => String.eqb k key | _ => false end.

(** The methods of [AccountClient] (and of the provider's backend service)
    that this module invokes, with their arguments. *)
Inductive api_call : Type :=
| job_submit (backend_name : string) (qobj_dict job_name job_tags
                experiment_id live_data_enabled : pyval)
| backend_properties (backend_name : string) (datetime : pyval)
| backend_status (backend_name : string)
| backend_pulse_defaults (backend_name : string)
| backend_job_limit (backend_name : string)
| backend_reservations (backend_name : string) (start_datetime end_datetime : pyval)
| provider_backend_jobs (status : list string) (limit : pyval).

(** ** Circuits *)

Record Instruction : Type := mkInstruction {
  name : string;
  params : list Z
}.
Record Qubit : Type := mkQubit { index : Z }.
Definition datum : Type := Instruction * list Qubit * list Z.

(** [Delay(duration)] *)
Definition Delay (duration : Z) : Instruction := mkInstruction "delay" [duration].

(** The objects accepted by [run]: a [QuantumCircuit], whose [data] is a
    mutable list of [(instr, qargs, cargs)], or a pulse [Schedule]. *)
Inductive circuit_obj : Type :=
| QuantumCircuit (data : list datum)
| Schedule (sched : nat).

Definition is_id (d : datum) : bool := String.eqb (name (d.1.1)) "id".

(** Circuits are passed by reference: [loc] names an object of the store. *)
Definition loc : Type := nat.

(** ** The backend configuration and the job-limit record *)

(** The attributes of the configuration object that the module reads;
    an attribute read through [getattr(..., default)] or [hasattr] may be
    absent. *)
Record Configuration : Type := mkConfiguration {
  backend_name : string;
  backend_version : string;
  simulator : bool;
  simulation_method : option pyval;
  measure_esp_enabled : option pyval;
  max_experiments : option Z;
  basis_gates : option (list string);
  supported_instructions : option (list string);
  dt : option Z
}.

(** [BackendJobLimit]: the two attributes read by [job_limit] and
    [remaining_jobs_count]. *)
Record BackendJobLimit : Type := mkBackendJobLimit {
  maximum_jobs : option Z;
  active_jobs : Z
}.

Inductive backend_class : Type := IBMBackend | IBMSimulator | IBMRetiredBackend.

Definition isinstance_IBMSimulator (c : backend_class) : bool :=
  match c with IBMSimulator => true | _ => false end.

(** ** Interfaces of the code outside this module *)

(** The classes and functions that [ibm_backend.py] imports.  A constructor
    or a parser answers [inl e] for the exception [e] that it raises: a
    [TypeError] when the fields do not fit its signature, or any other.
    The validation of the tags, the converters, the decoders, [assemble],
    [to_dict] and [str] are taken to return; [assemble] is taken as a
    function of the circuits and of the run configuration, so what it
    asks of the [backend] it is given is outside the model. *)
Class Externals : Type := {
  BackendProperties : Type;
  PulseDefaults : Type;
  BackendStatus : Type;
  BackendReservation : Type;
  Qobj : Type;
  IBMJob : Type;
  Seconds : Type;
  (* utils.validate_job_tags(job_tags, exception): [false] when it raises *)
  validate_job_tags : pyval -> bool;
  (* utils.converters: [local_to_utc] takes a datetime to a datetime *)
  local_to_utc : Z -> Z;
  utc_to_local_all : pyval -> pyval;
  (* utils.json_decoder (both decode in place) *)
  decode_backend_properties : pyval -> pyval;
  decode_pulse_defaults : pyval -> pyval;
  (* qiskit.providers.models *)
  BackendProperties_from_dict : pyval -> exn + BackendProperties;
  PulseDefaults_from_dict : pyval -> exn + PulseDefaults;
  BackendStatus_from_dict : pyval -> exn + BackendStatus;
  mkBackendStatus : string -> string -> bool -> Z -> string -> BackendStatus;
  gate_length : BackendProperties -> string -> Z -> option Seconds;
  (* qiskit.circuit.duration.duration_in_dt *)
  duration_in_dt : Seconds -> Z -> Z;
  (* backendjoblimit.BackendJobLimit, applied to the fields of api_job_limit *)
  BackendJobLimit_init : pyval -> exn + BackendJobLimit;
  (* utils.backend.convert_reservation_data *)
  convert_reservation_data : pyval -> string -> exn + list BackendReservation;
  (* qiskit.compiler.assemble(circuits, backend, **run_config) *)
  assemble : one_or_list circuit_obj -> gmap string pyval -> Qobj;
  to_dict : Qobj -> pyval;
  (* job.IBMCircuitJob(backend, api_client, qobj=qobj, **submit_info) *)
  IBMCircuitJob : Qobj -> list (string * pyval) -> exn + IBMJob;
  (* str(v) *)
  py_str : pyval -> string;
  (* noise_model.to_dict() *)
  noise_model_to_dict : pyval -> exn + pyval;
  (* the job states that are not final, as computed by [active_jobs] *)
  active_job_states : list string
}.

(** The server behind [self._api_client] and behind the backend service
    of [self.provider()], the client and the provider that the backend
    was built with: its answer to a call may depend on the calls made so
    far.  [inl e] is the exception that the call raises, [ApiError msg]
    for an error of the API. *)
Class AccountClient `{Externals} : Type := {
  reply : list api_call -> api_call -> exn + pyval;
  reply_submit : list api_call -> api_call -> exn + list (string * pyval);
  reply_jobs : list api_call -> api_call -> exn + list IBMJob
}.

(** ** The world and the monad *)

Section Embedding.
Context `{Ext : Externals} `{Client : !AccountClient}.

(** An instance of [IBMBackend] or of one of its subclasses: the stored
    configuration, the [options] object, the credentials' fields, the two
    caches and the one-time-warning flag ([_status] is set by
    [IBMRetiredBackend] only). *)
Record IBMBackendObj : Type := mkIBMBackendObj {
  cls : backend_class;
  _configuration : Configuration;
  options : gmap string pyval;
  hub : pyval;
  group : pyval;
  project : pyval;
  _properties : option BackendProperties;
  _defaults : option PulseDefaults;
  id_warning_issued : bool;
  _status : option BackendStatus
}.

Record World : Type := mkWorld {
  self : IBMBackendObj;
  store : loc -> circuit_obj;
  api_log : list api_call;
  warn_log : list warning;
  published : list (string * IBMJob)
}.

Inductive result (A : Type) : Type :=
| Return (a : A)
| Raise (e : exn).
Arguments Return {A} a.
Arguments Raise {A} e.

(** A computation runs in a world and leaves a world, also when it
    raises. *)
Definition M (A : Type) : Type := World -> result A * World.

Definition ret {A} (a : A) : M A := fun w => (Return a, w).
Definition raise {A} (e : exn) : M A := fun w => (Raise e, w).
Definition bind {A B} (m : M A) (k : A -> M B) : M B :=
  fun w => match m w with
           | (Return a, w') => k a w'
           | (Raise e, w') => (Raise e, w')
           end.
Definition gets {A} (f : World -> A) : M A := fun w => (Return (f w), w).
Definition modify (f : World -> World) : M unit := fun w => (Return tt, f w).

Notation "'let!' x ':=' m 'in' k" := (bind m (fun x => k))
  (at level 10, x name, m at level 100, k at level 200).
Notation "'do!' m 'in' k" := (bind m (fun _ => k))
  (at level 10, m at level 100, k at level 200).

Definition set_self (b : IBMBackendObj) (w : World) : World :=
  mkWorld b (store w) (api_log w) (warn_log w) (published w).
Definition set_store (s : loc -> circuit_obj) (w : World) : World :=
  mkWorld (self w) s (api_log w) (warn_log w) (published w).

Definition set__properties (p : option BackendProperties) (b : IBMBackendObj) :=
  mkIBMBackendObj (cls b) (_configuration b) (options b) (hub b) (group b)
    (project b) p (_defaults b) (id_warning_issued b) (_status b).
Definition set__defaults (d : option PulseDefaults) (b : IBMBackendObj) :=
  mkIBMBackendObj (cls b) (_configuration b) (options b) (hub b) (group b)
    (project b) (_properties b) d (id_warning_issued b) (_status b).
Definition set_id_warning_issued (f : bool) (b : IBMBackendObj) :=
  mkIBMBackendObj (cls b) (_configuration b) (options b) (hub b) (group b)
    (project b) (_properties b) (_defaults b) f (_status b).

(** [warnings.warn(...)] *)
Definition warn (x : warning) : M unit :=
  modify (fun w => mkWorld (self w) (store w) (api_log w) (warn_log w ++ [x]) (published w)).

(** [Publisher().publish(event, job)]; the subscribers are taken to
    return. *)
Definition publish (event : string) (job : IBMJob) : M unit :=
  modify (fun w => mkWorld (self w) (store w) (api_log w) (warn_log w)
                     (published w ++ [(event, job)])).

Definition log_call (c : api_call) (w : World) : World :=
  mkWorld (self w) (store w) (api_log w ++ [c]) (warn_log w) (published w).

(** A call on the account client: it is logged and the server answers. *)
Definition client_call {E A} (rep : list api_call -> api_call -> E + A)
    (c : api_call) : M (E + A) :=
  fun w => (Return (rep (api_log w) c), log_call c w).

(** A call outside any [try]: what the client raises is passed on. *)
Definition api (c : api_call) : M pyval :=
  let! r := client_call reply c in
  match r with
  | inl e => raise e
  | inr v => ret v
  end.

(** [self.configuration()] and [self.name()] (of [BackendV1]: the
    configuration's [backend_name]). *)
Definition configuration : M Configuration := gets (fun w => _configuration (self w)).
Definition name_of (w : World) : string := backend_name (_configuration (self w)).
Definition name_ : M string := gets name_of.

(** ** Construction *)

(** [IBMBackend._default_options], [IBMSimulator._default_options] and
    [IBMRetiredBackend._default_options] *)
Definition IBMBackend_default_options : gmap string pyval :=
  list_to_map
    [("shots", PyInt 4000); ("memory", PyBool false);
     ("qubit_lo_freq", PyNone); ("meas_lo_freq", PyNone);
     ("schedule_los", PyNone);
     ("meas_level", PyEnum "MeasLevel.CLASSIFIED");
     ("meas_return", PyEnum "MeasReturnType.AVERAGE");
     ("memory_slots", PyNone); ("memory_slot_size", PyInt 100);
     ("rep_time", PyNone); ("rep_delay", PyNone);
     ("init_qubits", PyBool true); ("use_measure_esp", PyNone);
     ("live_data_enabled", PyNone)].
Definition IBMSimulator_default_options : gmap string pyval :=
  <["seed_simulator" := PyNone]> (<["noise_model" := PyNone]> IBMBackend_default_options).
Definition _default_options (c : backend_class) : gmap string pyval :=
  match c with
  | IBMBackend => IBMBackend_default_options
  | IBMSimulator => IBMSimulator_default_options
  | IBMRetiredBackend => ∅
  end.

(** [__init__]: [credentials] is given by its three fields. *)
Definition IBMBackend_init (c : backend_class) (configuration : Configuration)
    (credentials : pyval * pyval * pyval) : IBMBackendObj :=
  let b := mkIBMBackendObj c configuration (_default_options c)
             credentials.1.1 credentials.1.2 credentials.2 None None false None in
  match c with
  | IBMRetiredBackend =>
      mkIBMBackendObj c configuration (_default_options c)
        credentials.1.1 credentials.1.2 credentials.2 None None false
        (Some (mkBackendStatus (backend_name configuration)
                 (backend_version configuration) false 0
                 "This backend is no longer available."))
  | _ => b
  end.

(** The world right after construction: nothing called, nothing warned. *)
Definition new_world (b : IBMBackendObj) (s : loc -> circuit_obj) : World :=
  mkWorld b s [] [] [].

(** ** Metadata accessors *)

Definition lift {A} (r : exn + A) : M A :=
  match r with inl e => raise e | inr a => ret a end.

(** [IBMBackend.properties(refresh, datetime)] *)
Definition IBMBackend_properties (refresh datetime : pyval)
    : M (option BackendProperties) :=
  if negb (isinstance_bool refresh) then
    raise (TypeError "The 'refresh' argument needs to be a boolean.")
  else if truthy datetime && negb (isinstance_datetime datetime) then
    raise (TypeError "'{}' is not of type 'datetime'.")
  else
    (* [if datetime: datetime = local_to_utc(datetime)]: a truthy value is
       a datetime here *)
    let datetime :=
      match datetime with
      | PyDatetime t => PyDatetime (local_to_utc t)
      | v => v
      end in
    let! cached := gets (fun w => _properties (self w)) in
    if truthy datetime || truthy refresh || opt_is_None cached then
      let! n := name_ in
      let! api_properties := api (backend_properties n datetime) in
      if negb (truthy api_properties) then ret None
      else
        let api_properties := decode_backend_properties api_properties in
        let api_properties := utc_to_local_all api_properties in
        let! backend_properties := lift (BackendProperties_from_dict api_properties) in
        if truthy datetime then ret (Some backend_properties)    (* Don't cache result. *)
        else
          do! modify (fun w => set_self (set__properties (Some backend_properties) (self w)) w) in
          gets (fun w => _properties (self w))
    else gets (fun w => _properties (self w)).

(** [IBMBackend.status()] *)
Definition IBMBackend_status : M BackendStatus :=
  let! n := name_ in
  let! api_status := api (backend_status n) in
  match BackendStatus_from_dict api_status with
  | inr s => ret s
  | inl (TypeError ex) =>
      raise (IBMBackendApiProtocolError
               ("Unexpected return value received from the server when getting backend status: " +:+ ex))
  | inl e => raise e
  end.

(** [IBMBackend.defaults(refresh)] *)
Definition IBMBackend_defaults (refresh : pyval) : M (option PulseDefaults) :=
  let! cached := gets (fun w => _defaults (self w)) in
  do! (if truthy refresh || opt_is_None cached then
         let! n := name_ in
         let! api_defaults := api (backend_pulse_defaults n) in
         if truthy api_defaults then
           let api_defaults := decode_pulse_defaults api_defaults in
           let! d := lift (PulseDefaults_from_dict api_defaults) in
           modify (fun w => set_self (set__defaults (Some d) (self w)) w)
         else
           modify (fun w => set_self (set__defaults None (self w)) w)
       else ret tt) in
  gets (fun w => _defaults (self w)).

(** [IBMBackend.job_limit()] *)
Definition IBMBackend_job_limit : M BackendJobLimit :=
  let! n := name_ in
  let! api_job_limit := api (backend_job_limit n) in
  match BackendJobLimit_init api_job_limit with
  | inr job_limit =>
      if bool_decide (maximum_jobs job_limit = Some (-1)) then
        (* Manually set `maximum` to `None` if backend has no job limit. *)
        ret (mkBackendJobLimit None (active_jobs job_limit))
      else ret job_limit
  | inl (TypeError ex) =>
      raise (IBMBackendApiProtocolError
               ("Unexpected return value received from the server when querying job limit data for the backend: "
                  +:+ ex +:+ "."))
  | inl e => raise e
  end.

(** [IBMBackend.remaining_jobs_count()] *)
Definition IBMBackend_remaining_jobs_count : M (option Z) :=
  let! job_limit := IBMBackend_job_limit in
  match maximum_jobs job_limit with
  | None => ret None
  | Some maximum => ret (Some (maximum - active_jobs job_limit))
  end.

(** [IBMBackend.active_jobs(limit)] *)
Definition IBMBackend_active_jobs (limit : pyval) : M (list IBMJob) :=
  let! r := client_call reply_jobs (provider_backend_jobs active_job_states limit) in
  lift r.

(** [IBMBackend.reservations(start_datetime, end_datetime)] *)
Definition IBMBackend_reservations (start_datetime end_datetime : option Z)
    : M (list BackendReservation) :=
  let utc d := match d with
               | Some t => PyDatetime (local_to_utc t)
               | None => PyNone
               end in
  let start_datetime := utc start_datetime in
  let end_datetime := utc end_datetime in
  let! n := name_ in
  let! raw_response := api (backend_reservations n start_datetime end_datetime) in
  let! n' := name_ in
  lift (convert_reservation_data raw_response n').

(** The overriding methods of [IBMSimulator] and [IBMRetiredBackend], and
    the method each class answers a call with. *)
Definition properties_ (refresh datetime : pyval) : M (option BackendProperties) :=
  let! c := gets (fun w => cls (self w)) in
  match c with
  | IBMBackend => IBMBackend_properties refresh datetime
  | IBMSimulator | IBMRetiredBackend => ret None
  end.

Definition status_ : M (option BackendStatus) :=
  let! c := gets (fun w => cls (self w)) in
  match c with
  | IBMRetiredBackend => gets (fun w => _status (self w))
  | _ => let! s := IBMBackend_status in ret (Some s)
  end.

Definition defaults_ (refresh : pyval) : M (option PulseDefaults) :=
  let! c := gets (fun w => cls (self w)) in
  match c with
  | IBMRetiredBackend => ret None
  | _ => IBMBackend_defaults refresh
  end.

Definition job_limit_ : M (option BackendJobLimit) :=
  let! c := gets (fun w => cls (self w)) in
  match c with
  | IBMRetiredBackend => ret None
  | _ => let! l := IBMBackend_job_limit in ret (Some l)
  end.

Definition remaining_jobs_count_ : M (option Z) :=
  let! c := gets (fun w => cls (self w)) in
  match c with
  | IBMRetiredBackend => ret None
  | _ => IBMBackend_remaining_jobs_count
  end.

Definition active_jobs_ (limit : pyval) : M (option (list IBMJob)) :=
  let! c := gets (fun w => cls (self w)) in
  match c with
  | IBMRetiredBackend => ret None
  | _ => let! js := IBMBackend_active_jobs limit in ret (Some js)
  end.

Definition reservations_ (start_datetime end_datetime : option Z)
    : M (list BackendReservation) :=
  let! c := gets (fun w => cls (self w)) in
  match c with
  | IBMRetiredBackend => ret []
  | _ => IBMBackend_reservations start_datetime end_datetime
  end.

(** ** Submitting *)

(** [IBMBackend._get_run_config], called with keyword arguments [kwargs]:
    the loop over [kwargs.items()],
    started on a copy of [self.options.__dict__]. *)
Fixpoint _get_run_config_loop (opts : gmap string pyval) (sim : bool)
    (kwargs : list (string * pyval)) (run_config_dict : gmap string pyval)
    : M (gmap string pyval) :=
  match kwargs with
  | [] => ret run_config_dict
  | (key, val) :: rest =>
      if is_None val then _get_run_config_loop opts sim rest run_config_dict
      else
        let run_config_dict := <[key := val]> run_config_dict in
        do! (if bool_decide (opts !! key = None) && negb sim
             then warn (UnrecognizedOption key) else ret tt) in
        _get_run_config_loop opts sim rest run_config_dict
  end.

Definition _get_run_config (kwargs : list (string * pyval)) : M (gmap string pyval) :=
  let! b := gets self in
  _get_run_config_loop (options b) (isinstance_IBMSimulator (cls b)) kwargs (options b).

(** [IBMBackend._submit_job(qobj, job_name, job_tags, composite_job_id,
    live_data_enabled)] *)
Definition _submit_job (qobj : Qobj)
    (job_name job_tags composite_job_id live_data_enabled : pyval) : M IBMJob :=
  let qobj_dict := to_dict qobj in
  let! n := name_ in
  let! r := client_call reply_submit
              (job_submit n qobj_dict job_name job_tags composite_job_id
                 live_data_enabled) in
  match r with
  | inl (ApiError ex) =>
      if str_contains "Error code: 3458" ex then
        raise (IBMBackendJobLimitError ("Error submitting job: " +:+ ex))
      else
        raise (IBMBackendApiError ("Error submitting job: " +:+ ex))
  | inl e => raise e
  | inr submit_info =>
      (* Error in the job after submission *)
      match dict_get "error" submit_info with
      | Some err => raise (IBMBackendError ("Error submitting job: " +:+ py_str err))
      | None =>
          (* Submission success. *)
          match IBMCircuitJob qobj submit_info with
          | inr job =>
              do! publish "ibm.job.start" job in
              ret job
          | inl (TypeError err) =>
              raise (IBMBackendApiProtocolError
                       ("Unexpected return value received from the server when submitting job: "
                          +:+ err))
          | inl e => raise e
          end
      end
  end.

(** ** The deprecated 'id' instruction *)

(** [circuit.data[idx] = x] *)
Definition setitem (idx : nat) (x : datum) (c : circuit_obj) : circuit_obj :=
  match c with
  | QuantumCircuit data => QuantumCircuit (<[idx := x]> data)
  | Schedule s => Schedule s
  end.

(** [any(instr.name == 'id' for circuit in circuits
         if isinstance(circuit, QuantumCircuit)
         for instr, qargs, cargs in circuit.data)] *)
Definition circuit_has_id (s : loc -> circuit_obj) (circuits : list loc) : bool :=
  existsb (fun r => match s r with
                    | QuantumCircuit data => existsb is_id data
                    | Schedule _ => false
                    end) circuits.

(** The body of the inner loop at position [idx], where the enumeration
    yields [d]. *)
Definition replace_id_at (r : loc) (dt_in_s : Z) (idx : nat) (d : datum) : M unit :=
  if is_id d then
    let! props := properties_ (PyBool false) PyNone in
    match props with
    | None => raise (AttributeError "'NoneType' object has no attribute 'gate_length'")
    | Some props =>
        match d.1.2 with
        | [] => raise IndexError
        | q :: _ =>
            match gate_length props "sx" (index q) with
            | None => raise BackendPropertyError
            | Some sx_duration =>
                let sx_duration_in_dt := duration_in_dt sx_duration dt_in_s in
                let delay_instr := Delay sx_duration_in_dt in
                modify (fun w => set_store
                          (alter (setitem idx (delay_instr, d.1.2, d.2)) r (store w)) w)
            end
        end
    end
  else ret tt.

(** [for idx, (instr, qargs, cargs) in enumerate(circuit.data)]: the body
    assigns position [idx] only, so the items still to come are those the
    list had when the loop was entered. *)
Fixpoint replace_ids (r : loc) (dt_in_s : Z) (idx : nat) (items : list datum) : M unit :=
  match items with
  | [] => ret tt
  | d :: rest =>
      do! replace_id_at r dt_in_s idx d in
      replace_ids r dt_in_s (S idx) rest
  end.

(** [for circuit in circuits] *)
Fixpoint replace_in_circuits (dt_in_s : Z) (circuits : list loc) : M unit :=
  match circuits with
  | [] => ret tt
  | r :: rest =>
      let! circuit := gets (fun w => store w r) in
      do! (match circuit with
           | Schedule _ => ret tt
           | QuantumCircuit data => replace_ids r dt_in_s 0 data
           end) in
      replace_in_circuits dt_in_s rest
  end.

Definition str_in (x : string) (l : list string) : bool := bool_decide (x ∈ l).

(** [IBMBackend._deprecate_id_instruction(circuits)] *)
Definition _deprecate_id_instruction (circuits : one_or_list loc) : M unit :=
  let! cfg := configuration in
  let id_support := str_in "id" (default [] (basis_gates cfg)) in
  let delay_support := str_in "delay" (default [] (supported_instructions cfg)) in
  if negb delay_support then ret tt
  else
    let circuits := as_list circuits in
    let! has_id := gets (fun w => circuit_has_id (store w) circuits) in
    if negb has_id then ret tt
    else
      let! issued := gets (fun w => id_warning_issued (self w)) in
      do! (if negb issued then
             do! (if id_support && delay_support then warn IdDeprecated
                  else warn IdRemoved) in
             modify (fun w => set_self (set_id_warning_issued true (self w)) w)
           else ret tt) in
      let! cfg := configuration in
      match dt cfg with
      | None => raise (AttributeError "Attribute dt is not defined")
      | Some dt_in_s => replace_in_circuits dt_in_s circuits
      end.

(** ** [run] *)

(** The arguments of [IBMBackend.run]; [run_config] holds the extra
    keyword arguments. *)
Record RunArgs : Type := mkRunArgs {
  circuits : one_or_list loc;
  job_name : pyval;
  job_tags : pyval;
  max_circuits_per_job : option Z;
  header : pyval;
  shots : pyval;
  memory : pyval;
  qubit_lo_freq : pyval;
  meas_lo_freq : pyval;
  schedule_los : pyval;
  meas_level : pyval;
  meas_return : pyval;
  memory_slots : pyval;
  memory_slot_size : pyval;
  rep_time : pyval;
  rep_delay : pyval;
  init_qubits : pyval;
  parameter_binds : pyval;
  use_measure_esp : pyval;
  live_data_enabled : pyval;
  run_config : list (string * pyval)
}.

(** What [run] returns: the job built by [_submit_job], or a composite job,
    given by the arguments its constructor receives. *)
Inductive run_job : Type :=
| CircuitJob (job : IBMJob)
| IBMCompositeJob (circuits_list : list (list loc))
    (run_config : gmap string pyval) (name tags : pyval).

(** A call [f(k1=v1, ..., **extra)]: Python raises [TypeError] when a key
    of [extra] repeats one of the keywords written out. *)
Definition call_kwargs (f : string) (named extra : list (string * pyval))
    : exn + list (string * pyval) :=
  match List.find (fun kv => str_in (kv.1) (named.*1)) extra with
  | Some kv =>
      inl (TypeError (f +:+ "() got multiple values for keyword argument '" +:+ kv.1 +:+ "'"))
  | None => inr (named ++ extra)
  end.

(** A call [f(x1, ..., xn, **kw)] of a function whose first parameters
    are [positional]: Python raises [TypeError] when a key of [kw] names a
    parameter that is given by position. *)
Definition call_positional (f : string) (positional : list string)
    (kw : list (string * pyval)) : exn + list (string * pyval) :=
  match List.find (fun kv => str_in (kv.1) positional) kw with
  | Some kv =>
      inl (TypeError (f +:+ "() got multiple values for argument '" +:+ kv.1 +:+ "'"))
  | None => inr kw
  end.

(** Lines 258-270: the simulation method and the ESP-readout flag. *)
Definition sim_method_of (cfg : Configuration) : pyval :=
  if simulator cfg then default PyNone (simulation_method cfg) else PyNone.
Definition measure_esp_enabled_of (cfg : Configuration) : pyval :=
  default (PyBool false) (measure_esp_enabled cfg).

(** Lines 256-270: the validation; it returns the effective
    [use_measure_esp]. *)
Definition run_validate (a : RunArgs) : M pyval :=
  if negb (validate_job_tags (job_tags a)) then
    raise (IBMBackendValueError "job_tags needs to be a list or strings.")
  else
    let! cfg := configuration in
    let measure_esp_enabled := measure_esp_enabled_of cfg in
    (* set ``use_measure_esp`` to backend value if not set by user *)
    let use_measure_esp :=
      if is_None (use_measure_esp a) then measure_esp_enabled else use_measure_esp a in
    if truthy use_measure_esp && negb (truthy measure_esp_enabled) then
      raise (IBMBackendValueError
               "ESP readout not supported on this device. Please make sure the flag 'use_measure_esp' is unset or set to 'False'.")
    else ret use_measure_esp.

(** Lines 276-289: the keywords written out in the call of
    [_get_run_config]. *)
Definition run_kwargs (a : RunArgs) (use_measure_esp : pyval)
    : list (string * pyval) :=
  [("qobj_header", header a); ("shots", shots a);
   ("memory", memory a); ("qubit_lo_freq", qubit_lo_freq a);
   ("meas_lo_freq", meas_lo_freq a);
   ("schedule_los", schedule_los a);
   ("meas_level", meas_level a); ("meas_return", meas_return a);
   ("memory_slots", memory_slots a);
   ("memory_slot_size", memory_slot_size a);
   ("rep_time", rep_time a); ("rep_delay", rep_delay a);
   ("init_qubits", init_qubits a);
   ("use_measure_esp", use_measure_esp)].

(** Lines 275-294: the consolidated run configuration. *)
Definition run_get_config (a : RunArgs) (use_measure_esp : pyval)
    : M (gmap string pyval) :=
  let! cfg := configuration in
  let sim_method := sim_method_of cfg in
  let! kwargs := lift (call_kwargs "_get_run_config"
                    (run_kwargs a use_measure_esp) (run_config a)) in
  let! run_config_dict := _get_run_config kwargs in
  let run_config_dict :=
    if truthy (parameter_binds a)
    then <["parameter_binds" := parameter_binds a]> run_config_dict
    else run_config_dict in
  let run_config_dict :=
    if truthy sim_method && bool_decide (run_config_dict !! "method" = None)
    then <["method" := sim_method]> run_config_dict
    else run_config_dict in
  ret run_config_dict.

(** Lines 297-303: the chunk size. *)
Definition chunk_size_of (cfg : Configuration) (max_circuits_per_job : option Z)
    : option Z :=
  match max_experiments cfg with
  | Some backend_max =>
      Some (match max_circuits_per_job with
            | None => backend_max
            | Some m => Z.min backend_max m
            end)
  | None =>
      match max_circuits_per_job with
      | Some m => if truthyZ m then Some m else None
      | None => None
      end
  end.

(** Lines 305-307: [Some circuits_list] when the list is split. *)
Definition split_circuits {A} (chunk_size : option Z) (circuits : list A)
    : option (list (list A)) :=
  match chunk_size with
  | Some chunk_size =>
      if truthyZ chunk_size && (chunk_size <? Z.of_nat (length circuits)) then
        Some ((fun x => py_slice circuits x (x + chunk_size)) <$>
                py_range 0 (Z.of_nat (length circuits)) chunk_size)
      else None
  | None => None
  end.

(** The objects behind the references, as [assemble] reads them. *)
Definition deref (s : loc -> circuit_obj) (c : one_or_list loc) : one_or_list circuit_obj :=
  match c with One r => One (s r) | Many rs => Many (s <$> rs) end.

(** Lines 296-319: a composite job, or one payload and its submission. *)
Definition run_dispatch (a : RunArgs) (run_config_dict : gmap string pyval)
    : M run_job :=
  let! cfg := configuration in
  let split :=
    match circuits a with
    | Many cs => split_circuits (chunk_size_of cfg (max_circuits_per_job a)) cs
    | One _ => None
    end in
  match split with
  | Some circuits_list =>
      ret (IBMCompositeJob circuits_list run_config_dict (job_name a) (job_tags a))
  | None =>
      let! objs := gets (fun w => deref (store w) (circuits a)) in
      let qobj := assemble objs run_config_dict in
      let! job := _submit_job qobj (job_name a) (job_tags a) PyNone (live_data_enabled a) in
      ret (CircuitJob job)
  end.

(** Lines 256-294: validation, the pass over the deprecated 'id'
    instruction, and the consolidated run configuration. *)
Definition run_prepare (a : RunArgs) : M (gmap string pyval) :=
  let! use_measure_esp := run_validate a in
  let! cfg := configuration in
  do! (if negb (simulator cfg) then _deprecate_id_instruction (circuits a) else ret tt) in
  run_get_config a use_measure_esp.

(** [IBMBackend.run] *)
Definition IBMBackend_run (a : RunArgs) : M run_job :=
  let! run_config_dict := run_prepare a in
  run_dispatch a run_config_dict.

(** How a keyword dictionary binds to the signature of [IBMBackend.run]:
    a key that names a parameter sets it, the others go to [run_config];
    [max_circuits_per_job] is read at the type that the signature
    declares. *)
Definition run_parameters : list string :=
  ["job_name"; "job_tags"; "max_circuits_per_job"; "header"; "shots"; "memory";
   "qubit_lo_freq"; "meas_lo_freq"; "schedule_los"; "meas_level"; "meas_return";
   "memory_slots"; "memory_slot_size"; "rep_time"; "rep_delay"; "init_qubits";
   "parameter_binds"; "use_measure_esp"; "live_data_enabled"].

Definition bind_run (circuits : one_or_list loc) (kw : list (string * pyval)) : RunArgs :=
  let arg k := default PyNone (dict_get k kw) in
  mkRunArgs circuits (arg "job_name") (arg "job_tags")
    (match arg "max_circuits_per_job" with PyInt n => Some n | _ => None end)
    (arg "header") (arg "shots") (arg "memory") (arg "qubit_lo_freq")
    (arg "meas_lo_freq") (arg "schedule_los") (arg "meas_level") (arg "meas_return")
    (arg "memory_slots") (arg "memory_slot_size") (arg "rep_time") (arg "rep_delay")
    (arg "init_qubits") (arg "parameter_binds") (arg "use_measure_esp")
    (arg "live_data_enabled")
    (List.filter (fun kv => negb (str_in (kv.1) run_parameters)) kw).

(** [d.update(e)] on dicts kept as association lists. *)
Definition dict_update (d e : list (string * pyval)) : list (string * pyval) :=
  ((fun kv => (kv.1, default kv.2 (dict_get kv.1 e))) <$> d)
  ++ List.filter (fun kv => negb (str_in (kv.1) (d.*1))) e.

(** [IBMSimulator.run]; of the values only a dict has [update]. *)
Definition IBMSimulator_run (circuits : one_or_list loc)
    (job_name job_tags backend_options noise_model : pyval)
    (kwargs : list (string * pyval)) : M run_job :=
  do! (if negb (is_None backend_options) then warn BackendOptionsDeprecated
       else ret tt) in
  let backend_options := if truthy backend_options then backend_options else PyDict [] in
  let run_config := backend_options in
  let! noise_model :=
    (if truthy noise_model then
       match noise_model_to_dict noise_model with
       | inr d => ret d
       | inl (AttributeError _) => ret noise_model
       | inl e => raise e
       end
     else ret noise_model) in
  let! run_config :=
    (match run_config with
     | PyDict d => ret (dict_update d kwargs)
     | _ => raise (AttributeError "object has no attribute 'update'")
     end) in
  let! kw := lift (call_kwargs "run"
                [("job_name", job_name); ("job_tags", job_tags);
                 ("noise_model", noise_model)] run_config) in
  let! kw := lift (call_positional "run" ["self"; "circuits"] kw) in
  IBMBackend_run (bind_run circuits kw).

(** [IBMRetiredBackend.run] *)
Definition IBMRetiredBackend_run : M run_job :=
  let! n := name_ in
  raise (IBMBackendError ("This backend (" +:+ n +:+ ") is no longer available.")).

(** The keywords that a call writes: a parameter of [IBMBackend.run]
    that is [None] in [a] is one that the call leaves out. *)
Definition written (kw : list (string * pyval)) : list (string * pyval) :=
  List.filter (fun kv => negb (is_None (kv.2))) kw.

(** [run] as each class answers it, for the call whose keywords are
    those of [a]: on an [IBMSimulator] the keys [backend_options] and
    [noise_model] bind to the parameters of [IBMSimulator.run], the other
    keywords written are its [kwargs]. *)
Definition run_ (a : RunArgs) : M run_job :=
  let! c := gets (fun w => cls (self w)) in
  match c with
  | IBMBackend => IBMBackend_run a
  | IBMSimulator =>
      IBMSimulator_run (circuits a) (job_name a) (job_tags a)
        (default PyNone (dict_get "backend_options" (run_config a)))
        (default PyNone (dict_get "noise_model" (run_config a)))
        (written
           [("max_circuits_per_job",
             match max_circuits_per_job a with Some n => PyInt n | None => PyNone end);
            ("header", header a); ("shots", shots a); ("memory", memory a);
            ("qubit_lo_freq", qubit_lo_freq a); ("meas_lo_freq", meas_lo_freq a);
            ("schedule_los", schedule_los a); ("meas_level", meas_level a);
            ("meas_return", meas_return a); ("memory_slots", memory_slots a);
            ("memory_slot_size", memory_slot_size a); ("rep_time", rep_time a);
            ("rep_delay", rep_delay a); ("init_qubits", init_qubits a);
            ("parameter_binds", parameter_binds a);
            ("use_measure_esp", use_measure_esp a);
            ("live_data_enabled", live_data_enabled a)]
         ++ List.filter
              (fun kv => negb (str_in (kv.1) ["backend_options"; "noise_model"]))
              (run_config a))
  | IBMRetiredBackend => IBMRetiredBackend_run
  end.

(** ** The other methods *)

(** [self.__class__.__name__] *)
Definition class_name (c : backend_class) : string :=
  match c with
  | IBMBackend => "IBMBackend"
  | IBMSimulator => "IBMSimulator"
  | IBMRetiredBackend => "IBMRetiredBackend"
  end.

(** [IBMBackend.__repr__] *)
Definition __repr__ : M string :=
  let! b := gets self in
  let credentials_info :=
    if truthy (hub b)
    then "hub='" +:+ py_str (hub b) +:+ "', group='" +:+ py_str (group b)
           +:+ "', project='" +:+ py_str (project b) +:+ "'"
    else "" in
  let! n := name_ in
  ret ("<" +:+ class_name (cls b) +:+ "('" +:+ n +:+ "') from IBMProvider("
         +:+ credentials_info +:+ ")>").

(** [IBMRetiredBackend.from_name]: the configuration is built from the
    name alone; the optional attributes that the call does not give
    ([max_experiments], [supported_instructions], [dt], ...) are left
    unset. *)
Definition IBMRetiredBackend_from_name (backend_name : string)
    (credentials : pyval * pyval * pyval) : IBMBackendObj :=
  let configuration :=
    mkConfiguration backend_name "0.0.0" false None None None (Some []) None None in
  IBMBackend_init IBMRetiredBackend configuration credentials.

(** The one payload that [run] submits for the circuits of [a]. *)
Definition single_payload (a : RunArgs) (d : gmap string pyval) : M run_job :=
  fun w =>
    bind (_submit_job (assemble (deref (store w) (circuits a)) d)
            (job_name a) (job_tags a) PyNone (live_data_enabled a))
      (fun job => ret (CircuitJob job)) w.

(** ** Sequences of public operations *)

Inductive op : Type :=
| op_run (a : RunArgs)
| op_properties (refresh datetime : pyval)
| op_status
| op_defaults (refresh : pyval)
| op_job_limit
| op_remaining_jobs_count
| op_reservations (start_datetime end_datetime : option Z)
| op_active_jobs (limit : pyval).

(** The world an operation leaves, whether it returns or raises. *)
Definition exec (o : op) (w : World) : World :=
  match o with
  | op_run a => (run_ a w).2
  | op_properties refresh datetime => (properties_ refresh datetime w).2
  | op_status => (status_ w).2
  | op_defaults refresh => (defaults_ refresh w).2
  | op_job_limit => (job_limit_ w).2
  | op_remaining_jobs_count => (remaining_jobs_count_ w).2
  | op_reservations s e => (reservations_ s e w).2
  | op_active_jobs limit => (active_jobs_ limit w).2
  end.

Definition exec_all (ops : list op) (w : World) : World := foldl (flip exec) w ops.

(** Whether an operation is a call of [run]. *)
Definition is_run (o : op) : bool :=
  match o with op_run _ => true | _ => false end.

End Embedding.

Arguments Return {A} a.
Arguments Raise {A} e.

(** Whether a computation returned. *)
Definition is_Return {A} (r : result A) : bool :=
  match r with Return _ => true | Raise _ => false end.

(** ** A concrete interface, for the examples *)

Definition is_PyStr (v : pyval) : bool :=
  match v with PyStr _ => true | _ => false end.

(** An instance of the interface: tags must be a list of strings; the
    model classes keep the fields of the response; a job needs a [job_id],
    a job limit needs [maximum_jobs] and [running_jobs]. *)
Definition example_externals : Externals := {|
  BackendProperties := list (string * pyval);
  PulseDefaults := list (string * pyval);
  BackendStatus := list (string * pyval);
  BackendReservation := pyval;
  Qobj := one_or_list circuit_obj * gmap string pyval;
  IBMJob := list (string * pyval);
  Seconds := Z;
  validate_job_tags := fun v =>
    negb (truthy v) ||
    match v with PyList l => forallb is_PyStr l | _ => false end;
  local_to_utc := fun t => t - 3600;
  utc_to_local_all := fun v => v;
  decode_backend_properties := fun v => v;
  decode_pulse_defaults := fun v => v;
  BackendProperties_from_dict := fun v =>
    match v with
    | PyDict d => if dict_has "backend_name" d then inr d
                  else inl (KeyError "backend_name")
    | _ => inl (AttributeError "object has no attribute 'items'")
    end;
  PulseDefaults_from_dict := fun v =>
    match v with
    | PyDict d => if dict_has "qubit_freq_est" d then inr d
                  else inl (TypeError "__init__() missing 1 required positional argument: 'qubit_freq_est'")
    | _ => inl (AttributeError "object has no attribute 'items'")
    end;
  BackendStatus_from_dict := fun v =>
    match v with
    | PyDict d => if dict_has "operational" d then inr d
                  else inl (TypeError "__init__() missing 1 required positional argument: 'operational'")
    | _ => inl (TypeError "argument after ** must be a mapping")
    end;
  mkBackendStatus := fun n v o p m =>
    [("backend_name", PyStr n); ("backend_version", PyStr v);
     ("operational", PyBool o); ("pending_jobs", PyInt p); ("status_msg", PyStr m)];
  gate_length := fun props gate qubit =>
    match dict_get gate props with Some (PyInt n) => Some n | _ => None end;
  duration_in_dt := fun d dt => d / dt;
  BackendJobLimit_init := fun v =>
    match v with
    | PyDict d =>
        match dict_get "maximum_jobs" d, dict_get "running_jobs" d with
        | Some (PyInt m), Some (PyInt r) => inr (mkBackendJobLimit (Some m) r)
        | Some PyNone, Some (PyInt r) => inr (mkBackendJobLimit None r)
        | _, _ => inl (TypeError "__init__() missing required argument")
        end
    | _ => inl (TypeError "argument after ** must be a mapping")
    end;
  convert_reservation_data := fun v _ =>
    match v with PyList l => inr l | _ => inl (TypeError "not iterable") end;
  assemble := fun cs cfg => (cs, cfg);
  to_dict := fun q => PyObj 0;
  IBMCircuitJob := fun q info =>
    if dict_has "job_id" info then inr info
    else inl (TypeError "__init__() missing 1 required positional argument: 'job_id'");
  py_str := fun v => match v with PyStr s => s | _ => "<object>" end;
  noise_model_to_dict := fun v =>
    match v with
    | PyObj _ => inr (PyDict [("errors", PyList [])])
    | _ => inl (AttributeError "object has no attribute 'to_dict'")
    end;
  active_job_states := ["INITIALIZING"; "VALIDATING"; "QUEUED"; "RUNNING"]
|}.

(** A server that answers every submission with a job, has calibration
    data with an 'sx' gate of length 36, sends pulse defaults that lack
    the qubit frequencies, and reports no job limit (-1). *)
Definition example_client : @AccountClient example_externals := {|
  reply := fun _ c =>
    match c with
    | backend_properties n _ => inr (PyDict [("backend_name", PyStr n); ("sx", PyInt 36)])
    | backend_status _ => inr (PyDict [("operational", PyBool true)])
    | backend_pulse_defaults _ => inr (PyDict [("buffer", PyInt 10)])
    | backend_job_limit _ =>
        inr (PyDict [("maximum_jobs", PyInt (-1)); ("running_jobs", PyInt 2)])
    | _ => inr (PyList [])
    end;
  reply_submit := fun _ _ => inr [("job_id", PyStr "j1")];
  reply_jobs := fun _ _ => inr []
|}.

(** A hardware backend that supports 'delay', lists 'id' among its basis
    gates, accepts five circuits per job and does not declare ESP
    readout. *)
Definition example_configuration : Configuration :=
  mkConfiguration "ibmq_example" "1.0.0" false None None (Some 5)
    (Some ["id"; "rz"; "sx"; "x"; "cx"]) (Some ["delay"; "measure"]) (Some 2).

Definition example_backend : @IBMBackendObj example_externals :=
  IBMBackend_init IBMBackend example_configuration (PyStr "hub", PyStr "group", PyStr "project").

(** A store with one circuit, at location 0, that holds an 'id'. *)
Definition example_circuit : circuit_obj :=
  QuantumCircuit [(mkInstruction "x" [], [mkQubit 0], []);
                  (mkInstruction "id" [], [mkQubit 0], []);
                  (mkInstruction "measure" [], [mkQubit 0], [0])].
Definition example_store : loc -> circuit_obj :=
  fun r => match r with O => example_circuit | _ => Schedule 0 end.

Definition example_world : @World example_externals :=
  new_world example_backend example_store.

(** [run(circuits)] with every keyword argument left at its default. *)
Definition default_args (circuits : one_or_list loc) : RunArgs :=
  mkRunArgs circuits PyNone PyNone None PyNone PyNone PyNone PyNone PyNone PyNone
    PyNone PyNone PyNone PyNone PyNone PyNone PyNone PyNone PyNone PyNone [].

(** The same call with one keyword argument given. *)
Definition with_max_circuits_per_job (m : Z) (a : RunArgs) : RunArgs :=
  mkRunArgs (circuits a) (job_name a) (job_tags a) (Some m) (header a) (shots a)
    (memory a) (qubit_lo_freq a) (meas_lo_freq a) (schedule_los a) (meas_level a)
    (meas_return a) (memory_slots a) (memory_slot_size a) (rep_time a) (rep_delay a)
    (init_qubits a) (parameter_binds a) (use_measure_esp a) (live_data_enabled a)
    (run_config a).
Definition with_job_tags (t : pyval) (a : RunArgs) : RunArgs :=
  mkRunArgs (circuits a) (job_name a) t (max_circuits_per_job a) (header a) (shots a)
    (memory a) (qubit_lo_freq a) (meas_lo_freq a) (schedule_los a) (meas_level a)
    (meas_return a) (memory_slots a) (memory_slot_size a) (rep_time a) (rep_delay a)
    (init_qubits a) (parameter_binds a) (use_measure_esp a) (live_data_enabled a)
    (run_config a).
Definition with_use_measure_esp (v : pyval) (a : RunArgs) : RunArgs :=
  mkRunArgs (circuits a) (job_name a) (job_tags a) (max_circuits_per_job a) (header a)
    (shots a) (memory a) (qubit_lo_freq a) (meas_lo_freq a) (schedule_los a)
    (meas_level a) (meas_return a) (memory_slots a) (memory_slot_size a) (rep_time a)
    (rep_delay a) (init_qubits a) (parameter_binds a) v (live_data_enabled a)
    (run_config a).
Definition with_run_config (kw : list (string * pyval)) (a : RunArgs) : RunArgs :=
  mkRunArgs (circuits a) (job_name a) (job_tags a) (max_circuits_per_job a) (header a)
    (shots a) (memory a) (qubit_lo_freq a) (meas_lo_freq a) (schedule_los a)
    (meas_level a) (meas_return a) (memory_slots a) (memory_slot_size a) (rep_time a)
    (rep_delay a) (init_qubits a) (parameter_binds a) (use_measure_esp a)
    (live_data_enabled a) kw.
Definition with_header (h : pyval) (a : RunArgs) : RunArgs :=
  mkRunArgs (circuits a) (job_name a) (job_tags a) (max_circuits_per_job a) h (shots a)
    (memory a) (qubit_lo_freq a) (meas_lo_freq a) (schedule_los a) (meas_level a)
    (meas_return a) (memory_slots a) (memory_slot_size a) (rep_time a) (rep_delay a)
    (init_qubits a) (parameter_binds a) (use_measure_esp a) (live_data_enabled a)
    (run_config a).

(** A simulator with a simulation method, whose configuration declares no
    [max_experiments]. *)
Definition example_simulator_configuration : Configuration :=
  mkConfiguration "ibmq_qasm_simulator" "0.1.547" true (Some (PyStr "statevector")) None
    None (Some ["u1"; "u2"; "u3"; "cx"; "id"]) None None.

Definition example_simulator_world : @World example_externals :=
  new_world
    (IBMBackend_init IBMSimulator example_simulator_configuration
       (PyStr "hub", PyStr "group", PyStr "project"))
    example_store.

(** A retired backend, built from its name. *)
Definition example_retired_world : @World example_externals :=
  new_world
    (IBMRetiredBackend_from_name "ibmqx2" (PyStr "hub", PyStr "group", PyStr "project"))
    example_store.

(** * test.decorators: the custom provider of the tests *)

(** [os.getenv(key, default)] on the environment [environ]. *)
Definition getenv (environ : gmap string string) (key : string)
    (default : option string) : option string :=
  match environ !! key with
  | Some v => Some v
  | None => default
  end.

(** Truthiness of an [Optional[str]]. *)
Definition truthy_str (s : option string) : bool :=
  match s with
  | Some s => negb (String.eqb s "")
  | None => false
  end.

(** [s.split(sep)] for a separator of one character. *)
Fixpoint str_split (sep : Ascii.ascii) (s : string) : list string :=
  match s with
  | EmptyString => [EmptyString]
  | String c rest =>
      if Ascii.eqb c sep then EmptyString :: str_split sep rest
      else match str_split sep rest with
           | field :: fields => String c field :: fields
           | [] => [String c EmptyString]
           end
  end.

(** The number of occurrences of [c] in [s]. *)
Fixpoint str_count (c : Ascii.ascii) (s : string) : nat :=
  match s with
  | EmptyString => 0
  | String c' rest => (if Ascii.eqb c' c then 1 else 0) + str_count c rest
  end.

Section CustomProvider.
Context {Provider : Type}.
(** [IBMProvider(token=token, url=url, hub=hub, group=group,
    project=project)]: the provider, or the exception it raises. *)
Context (IBMProvider : string -> string -> string -> string -> string -> exn + Provider).

(** [_get_custom_provider(token, url)] *)
Definition _get_custom_provider (environ : gmap string string) (token url : string)
    : exn + option Provider :=
  let hgp :=
    if truthy_str (getenv environ "QISKIT_IBM_USE_STAGING_CREDENTIALS" (Some ""))
    then getenv environ "QISKIT_IBM_STAGING_HGP" None
    else getenv environ "QISKIT_IBM_HGP" None in
  if truthy_str hgp then
    let hgp := str_split "/"%char (default "" hgp) in
    match hgp !! 0%nat, hgp !! 1%nat, hgp !! 2%nat with
    | Some hub, Some group, Some project =>
        match IBMProvider token url hub group project with
        | inr provider => inr (Some provider)
        | inl e => inl e
        end
    | _, _, _ => inl IndexError
    end
  else inr None.

End CustomProvider.

(** An environment that names a hub, group and project, and a constructor
    that keeps what it is given. *)
Definition example_environ : gmap string string :=
  {[ "QISKIT_IBM_HGP" := "ibm-q/open/main" ]}.
Definition example_provider (token url hub group project : string)
    : exn + string * string * string :=
  inr (hub, group, project).


(** ** Vocabulary of the properties *)

(** The ceiling of [n / d]. *)
Definition ceil_div (n d : Z) : Z := (n + d - 1) / d.

Section Vocabulary.
Context `{Ext : Externals}.

(** [frame R m]: whatever [m] does, returning or raising, the world it
    leaves is related by [R] to the world it started in. *)
Definition frame {A} (R : World -> World -> Prop) (m : M A) : Prop :=
  forall w, R w (m w).2.

Definition same_configuration (w w' : World) : Prop :=
  _configuration (self w') = _configuration (self w).
Definition same_class (w w' : World) : Prop :=
  cls (self w') = cls (self w).
Definition same_store (w w' : World) : Prop :=
  store w' = store w.

(** The number of deprecation warnings about 'id' emitted so far, and the
    number that may still come: one as long as the flag is unset. *)
Definition id_warnings (w : World) : nat :=
  length (List.filter is_id_warning (warn_log w)).
Definition budget (w : World) : nat :=
  (id_warnings w + if id_warning_issued (self w) then 0 else 1)%nat.
Definition within_budget (w w' : World) : Prop :=
  (budget w' <= budget w)%nat.

(** The number of warnings about the option [key]. *)
Definition option_warnings (key : string) (w : World) : nat :=
  length (List.filter (is_unrecognized key) (warn_log w)).
Definition same_option_warnings (key : string) (w w' : World) : Prop :=
  option_warnings key w' = option_warnings key w.
Definition same_options (w w' : World) : Prop :=
  options (self w') = options (self w).

(** What the loop of [_get_run_config] computes: the dictionary, and the
    warnings it emits. *)
Definition consolidate (kwargs : list (string * pyval)) (d : gmap string pyval)
    : gmap string pyval :=
  foldl (fun d kv => if is_None kv.2 then d else <[kv.1 := kv.2]> d) d kwargs.
Definition unrecognized (opts : gmap string pyval) (sim : bool)
    (kwargs : list (string * pyval)) : list warning :=
  (fun kv => UnrecognizedOption kv.1) <$>
    List.filter (fun kv => negb (is_None kv.2) && bool_decide (opts !! kv.1 = None)
                             && negb sim) kwargs.
Definition add_warnings (ws : list warning) (w : World) : World :=
  mkWorld (self w) (store w) (api_log w) (warn_log w ++ ws) (published w).

(** A circuit without 'id' instruction. *)
Definition no_id (c : circuit_obj) : Prop :=
  match c with
  | QuantumCircuit data => existsb is_id data = false
  | Schedule _ => True
  end.

(** What the replacement may do to an item: leave it, or turn an 'id'
    into a 'delay' on the same qubits and clbits. *)
Definition datum_evolves (d d' : datum) : Prop :=
  d' = d \/
  (is_id d = true /\ name d'.1.1 = "delay" /\ d'.1.2 = d.1.2 /\ d'.2 = d.2).
Definition circuit_evolves (c c' : circuit_obj) : Prop :=
  match c, c' with
  | QuantumCircuit data, QuantumCircuit data' => Forall2 datum_evolves data data'
  | Schedule s, Schedule s' => s = s'
  | _, _ => False
  end.
Definition store_evolves (w w' : World) : Prop :=
  forall r, circuit_evolves (store w r) (store w' r).

(** The 'delay' that stands for the 'id' [d] on the backend of [w]: as
    long as the 'sx' gate on the first qubit of [d], by the properties
    that the backend holds, in units of the configuration's [dt], and on
    the qubits and clbits of [d]. *)
Definition equivalent_delay (w : World) (d d' : datum) : Prop :=
  exists p dt_in_s q qs sx,
    _properties (self w) = Some p /\
    dt (_configuration (self w)) = Some dt_in_s /\
    d.1.2 = q :: qs /\
    gate_length p "sx" (index q) = Some sx /\
    d' = (Delay (duration_in_dt sx dt_in_s), d.1.2, d.2).

(** An item is as it was, or an 'id' has become its equivalent delay. *)
Definition datum_replaced (w : World) (d d' : datum) : Prop :=
  d' = d \/ (is_id d = true /\ equivalent_delay w d d').
Definition circuit_replaced (w : World) (c c' : circuit_obj) : Prop :=
  match c, c' with
  | QuantumCircuit data, QuantumCircuit data' => Forall2 (datum_replaced w) data data'
  | Schedule s, Schedule s' => s' = s
  | _, _ => False
  end.

(** From [w] to [w'] the configuration is kept, properties that were
    cached are still cached, and the circuits have changed by the
    replacement only, with the delays that the backend of [w'] gives. *)
Definition replaces (w w' : World) : Prop :=
  _configuration (self w') = _configuration (self w) /\
  (forall p, _properties (self w) = Some p -> _properties (self w') = Some p) /\
  forall r, circuit_replaced w' (store w r) (store w' r).

(** An item the replacement can handle with the properties [p]: if it is
    an 'id', it has a first qubit and [p] knows the length of 'sx' on
    it. *)
Definition replaceable (p : BackendProperties) (d : datum) : Prop :=
  is_id d = true ->
  exists q qs sx, d.1.2 = q :: qs /\ gate_length p "sx" (index q) = Some sx.
Definition replaceable_circuit (p : BackendProperties) (c : circuit_obj) : Prop :=
  match c with
  | QuantumCircuit data => Forall (replaceable p) data
  | Schedule _ => True
  end.

(** The properties [p] are cached on an instance of [IBMBackend]. *)
Definition cached (p : BackendProperties) (w : World) : Prop :=
  cls (self w) = IBMBackend /\ _properties (self w) = Some p.

(** The relations of interest are preserved by the primitive effects:
    logging a call, publishing, and writing a cache; *)
Class Quiet (R : World -> World -> Prop) : Prop := {
  quiet_preorder :: PreOrder R;
  quiet_log : forall c w, R w (log_call c w);
  quiet_publish : forall e j w, R w (publish e j w).2;
  quiet_properties : forall p w, R w (set_self (set__properties p (self w)) w);
  quiet_defaults : forall d w, R w (set_self (set__defaults d (self w)) w)
}.

(** by the warnings about options; *)
Class Warning (R : World -> World -> Prop) : Prop := {
  warning_option : forall key w, R w (warn (UnrecognizedOption key) w).2;
  warning_backend_options : forall w, R w (warn BackendOptionsDeprecated w).2
}.

(** and by the two effects of the pass over 'id': the one-time warning
    together with its flag, and a write to the store. *)
Class Replacing (R : World -> World -> Prop) : Prop := {
  replacing_flag : forall x w,
    is_id_warning x = true -> id_warning_issued (self w) = false ->
    R w (set_self (set_id_warning_issued true (self (warn x w).2)) (warn x w).2);
  replacing_store : forall s w, R w (set_store s w)
}.

End Vocabulary.

(** ** Footprints *)

(** The parts of the world that a method may write. *)
Inductive part : Type :=
| Calls              (* the calls made on the account client *)
| Warnings           (* the warnings emitted *)
| Events             (* the events published *)
| Circuits           (* the caller's circuits *)
| PropertiesCache    (* self._properties *)
| DefaultsCache      (* self._defaults *)
| WarningFlag.       (* self.id_warning_issued *)

Global Instance part_eq_dec : EqDecision part.
Proof. solve_decision. Defined.

(** Every part of the world. *)
Definition every_part : list part :=
  [Calls; PropertiesCache; DefaultsCache; Circuits; Warnings; WarningFlag; Events].

Section Footprints.
Context `{Ext : Externals}.

Definition keeps (p : part) (w w' : World) : Prop :=
  match p with
  | Calls => api_log w' = api_log w
  | Warnings => warn_log w' = warn_log w
  | Events => published w' = published w
  | Circuits => store w' = store w
  | PropertiesCache => _properties (self w') = _properties (self w)
  | DefaultsCache => _defaults (self w') = _defaults (self w)
  | WarningFlag => id_warning_issued (self w') = id_warning_issued (self w)
  end.

(** The attributes of the backend object that are set by [__init__]
    alone. *)
Definition same_attributes (b b' : IBMBackendObj) : Prop :=
  cls b' = cls b /\ _configuration b' = _configuration b /\
  options b' = options b /\ hub b' = hub b /\ group b' = group b /\
  project b' = project b /\ _status b' = _status b.

(** [writes_only ps w w']: from [w] to [w'] nothing was written but the parts
    [ps]. *)
Definition writes_only (ps : list part) (w w' : World) : Prop :=
  same_attributes (self w) (self w') /\
  forall p, p ∉ ps -> keeps p w w'.

(** The properties need not be fetched any more: they are cached, or the
    class has none. *)
Definition settled (w : World) : Prop :=
  cls (self w) <> IBMBackend \/ is_Some (_properties (self w)).

(** [m] asks the server for the properties at most once, and not at all
    when they are settled; when it has asked and returns, they are
    settled. *)
Definition fetches_once {A} (m : M A) : Prop :=
  forall w,
    let res := m w in
    name_of res.2 = name_of w /\
    (settled w -> api_log res.2 = api_log w /\ settled res.2) /\
    (api_log res.2 = api_log w \/
     api_log res.2 = api_log w ++ [backend_properties (name_of w) PyNone] /\
     (is_Return res.1 = true -> settled res.2)).

(** The warnings about 'id' are as many as before. *)
Definition same_id_warnings (w w' : World) : Prop :=
  id_warnings w' = id_warnings w.

(** The warning flag is never reset. *)
Definition flag_stays (w w' : World) : Prop :=
  id_warning_issued (self w) = true -> id_warning_issued (self w') = true.

End Footprints.


(** ** The calls and the backend they name *)

(** A call that names the backend [n], or that names no backend. *)
Definition names_backend (n : string) (c : api_call) : Prop :=
  match c with
  | job_submit n' _ _ _ _ _ => n' = n
  | backend_properties n' _ => n' = n
  | backend_status n' => n' = n
  | backend_pulse_defaults n' => n' = n
  | backend_job_limit n' => n' = n
  | backend_reservations n' _ _ => n' = n
  | provider_backend_jobs _ _ => True
  end.

Section CallsDefs.
Context `{Ext : Externals}.

(** From [w] to [w'] the log of calls has only grown, by calls that name
    the backend, whose name is as it was. *)
Definition calls_named (w w' : World) : Prop :=
  name_of w' = name_of w /\
  exists calls,
    api_log w' = api_log w ++ calls /\ Forall (names_backend (name_of w)) calls.
End CallsDefs.

(** * Properties *)

(** ** Splitting a list into chunks *)

Lemma ceil_div_spec n d : 0 < d -> d * (ceil_div n d - 1) < n <= d * ceil_div n d.
Proof.
  intros Hd. unfold ceil_div.
  pose proof (Z.div_mod (n + d - 1) d ltac:(lia)) as Hdm.
  pose proof (Z.mod_pos_bound (n + d - 1) d Hd) as Hb.
  lia.
Qed.

Section Chunks.
Context {A : Type}.
Implicit Types (l : list A) (n k : nat).

Lemma take_plus l a b : take (a + b) l = take a l ++ take b (drop a l).
Proof.
  revert l. induction a as [|a IH]; intros [|x l]; simpl; try done.
  - by rewrite take_nil.
  - by rewrite IH.
Qed.

(** Cutting [l] into [k] pieces of [n] items each. *)
Lemma concat_pieces l n k :
  concat ((fun i : nat => take n (drop (i * n) l)) <$> seq 0 k) = take (k * n) l.
Proof.
  induction k as [|k IH]; [done|].
  rewrite seq_S, fmap_app, concat_app, IH. simpl.
  rewrite app_nil_r, (Nat.add_comm n). by rewrite take_plus.
Qed.

(** A slice that starts inside the list is a [take] of a [drop]. *)
Lemma py_slice_take_drop l (x c : Z) :
  0 <= x <= Z.of_nat (length l) -> 0 < c ->
  py_slice l x (x + c) = take (Z.to_nat c) (drop (Z.to_nat x) l).
Proof.
  intros Hx Hc. unfold py_slice, py_clip.
  destruct (Z.ltb_spec x 0); [lia|].
  destruct (Z.ltb_spec (x + c) 0); [lia|].
  rewrite (Z.min_l x) by lia.
  destruct (Z.le_gt_cases (x + c) (Z.of_nat (length l))).
  - rewrite Z.min_l by lia. do 2 f_equal. lia.
  - rewrite Z.min_r by lia.
    rewrite !take_ge; [done| |]; rewrite length_drop; lia.
Qed.

Lemma py_range_pos (stop step : Z) :
  0 < step -> 0 < stop ->
  py_range 0 stop step =
    (fun i : nat => Z.of_nat i * step) <$> seq 0 (Z.to_nat (ceil_div stop step)).
Proof.
  intros Hs Hstop. unfold py_range, py_range_len, ceil_div.
  destruct (Z.ltb_spec 0 step); [|lia].
  destruct (Z.ltb_spec 0 stop); [|lia]. simpl.
  replace (stop + step - 1) with (stop - 1 - 0 + 1 * step) by lia.
  rewrite Z.div_add by lia.
  replace (1 + (stop - 1 - 0) / step) with ((stop - 1 - 0) / step + 1) by lia.
  done.
Qed.

(** The chunks built at lines 306-307 when the list is split. *)
Lemma split_circuits_Some l (c : Z) :
  0 < c -> c < Z.of_nat (length l) ->
  exists chunks,
    split_circuits (Some c) l = Some chunks /\
    Z.of_nat (length chunks) = ceil_div (Z.of_nat (length l)) c /\
    Forall (fun ch => 1 <= Z.of_nat (length ch) <= c) chunks /\
    concat chunks = l.
Proof.
  intros Hc Hlen. unfold split_circuits, truthyZ.
  destruct (Z.eqb_spec c 0); [lia|].
  destruct (Z.ltb_spec c (Z.of_nat (length l))); [|lia]. simpl.
  eexists; split; [reflexivity|].
  rewrite py_range_pos by lia.
  pose proof (ceil_div_spec (Z.of_nat (length l)) c Hc) as Hk.
  set (k := ceil_div (Z.of_nat (length l)) c) in *.
  assert (0 <= k) by nia.
  rewrite <- list_fmap_compose.
  assert (Hpieces :
    (((fun x => py_slice l x (x + c)) ∘ (fun i : nat => Z.of_nat i * c)) <$> seq 0 (Z.to_nat k))
    = (fun i : nat => take (Z.to_nat c) (drop (i * Z.to_nat c) l)) <$> seq 0 (Z.to_nat k)).
  { apply list_fmap_ext; intros i j Hj.
    apply lookup_seq in Hj as [-> Hj]. simpl.
    rewrite py_slice_take_drop by nia.
    do 2 f_equal. nia. }
  rewrite Hpieces. clear Hpieces.
  split; [|split].
  - rewrite length_fmap, length_seq. lia.
  - apply Forall_fmap, Forall_forall. intros j Hj.
    apply in_seq in Hj. simpl.
    rewrite length_take, length_drop. nia.
  - rewrite concat_pieces. apply take_ge. nia.
Qed.

Lemma split_circuits_None l (c : Z) :
  c = 0 \/ Z.of_nat (length l) <= c -> split_circuits (Some c) l = None.
Proof.
  intros H. unfold split_circuits, truthyZ.
  destruct (Z.eqb_spec c 0); [done|].
  destruct (Z.ltb_spec c (Z.of_nat (length l))); [lia|done].
Qed.
End Chunks.

(** ** Frame reasoning *)

Section Frames.
Context `{Ext : Externals} `{Client : !AccountClient}.
Context (R : World -> World -> Prop) `{!PreOrder R}.

Lemma frame_ret {A} (a : A) : frame R (ret a).
Proof. intros w. simpl. reflexivity. Qed.

Lemma frame_raise {A} (e : exn) : frame R (raise (A := A) e).
Proof. intros w. simpl. reflexivity. Qed.

Lemma frame_gets {A} (f : World -> A) : frame R (gets f).
Proof. intros w. simpl. reflexivity. Qed.

Lemma frame_bind {A B} (m : M A) (k : A -> M B) :
  frame R m -> (forall a, frame R (k a)) -> frame R (bind m k).
Proof.
  intros Hm Hk w. unfold bind.
  specialize (Hm w). destruct (m w) as [[a|e] w1]; simpl in *; [|done].
  etransitivity; [exact Hm|apply Hk].
Qed.

Lemma frame_lift {A} (r : exn + A) : frame R (lift r).
Proof. destruct r; [apply frame_raise|apply frame_ret]. Qed.

Lemma frame_modify (f : World -> World) :
  (forall w, R w (f w)) -> frame R (modify f).
Proof. intros Hf w. apply Hf. Qed.

Lemma frame_client_call {E A} (rep : list api_call -> api_call -> E + A) c :
  (forall w, R w (log_call c w)) -> frame R (client_call rep c).
Proof. intros Hf w. apply Hf. Qed.

End Frames.

(** Unfolding the monad down to the world. *)
Ltac run_monad :=
  repeat (progress (unfold bind, ret, raise, gets, modify, lift, api, client_call,
                      name_, configuration in *; simpl in * )).

(** One step of a frame proof: split a [bind], close a leaf, or take a
    branch apart. *)
Ltac frame_step :=
  match goal with
  | |- frame _ (bind _ _) => apply frame_bind; [try typeclasses eauto| |intros ?]
  | |- frame _ (ret _) => apply frame_ret; typeclasses eauto
  | |- frame _ (raise _) => apply frame_raise; typeclasses eauto
  | |- frame _ (gets _) => apply frame_gets; typeclasses eauto
  | |- frame _ (lift _) => apply frame_lift; typeclasses eauto
  | |- frame _ (modify _) => apply frame_modify; intros ?
  | |- frame _ (client_call _ _) => apply frame_client_call; intros ?
  | |- frame _ (if ?b then _ else _) => destruct b
  | |- frame _ (match ?x with _ => _ end) => destruct x
  end.

Section Methods.
Context `{Ext : Externals} `{Client : !AccountClient}.
Context (R : World -> World -> Prop) `{!Quiet R}.

Lemma frame_publish e j : frame R (publish e j).
Proof. intros w. apply quiet_publish. Qed.

Ltac leaf :=
  first [ apply quiet_log | apply quiet_properties | apply quiet_defaults
        | apply frame_publish ].
Ltac frames := repeat (first [frame_step | leaf]).

Lemma frame_api c : frame R (api c).
Proof. unfold api. frames. Qed.

Lemma frame_properties refresh datetime : frame R (IBMBackend_properties refresh datetime).
Proof. unfold IBMBackend_properties, name_. frames; apply frame_api. Qed.

Lemma frame_properties_ refresh datetime : frame R (properties_ refresh datetime).
Proof. unfold properties_. frames; apply frame_properties. Qed.

Lemma frame_status : frame R IBMBackend_status.
Proof. unfold IBMBackend_status, name_. frames; apply frame_api. Qed.

Lemma frame_defaults refresh : frame R (IBMBackend_defaults refresh).
Proof. unfold IBMBackend_defaults, name_. frames; apply frame_api. Qed.

Lemma frame_job_limit : frame R IBMBackend_job_limit.
Proof. unfold IBMBackend_job_limit, name_. frames; apply frame_api. Qed.

Lemma frame_remaining_jobs_count : frame R IBMBackend_remaining_jobs_count.
Proof. unfold IBMBackend_remaining_jobs_count. frames; apply frame_job_limit. Qed.

Lemma frame_active_jobs limit : frame R (IBMBackend_active_jobs limit).
Proof. unfold IBMBackend_active_jobs. frames. Qed.

Lemma frame_reservations s e : frame R (IBMBackend_reservations s e).
Proof. unfold IBMBackend_reservations, name_. frames; apply frame_api. Qed.

Lemma frame_status_ : frame R status_.
Proof. unfold status_. frames; apply frame_status. Qed.

Lemma frame_defaults_ refresh : frame R (defaults_ refresh).
Proof. unfold defaults_. frames; apply frame_defaults. Qed.

Lemma frame_job_limit_ : frame R job_limit_.
Proof. unfold job_limit_. frames; apply frame_job_limit. Qed.

Lemma frame_remaining_jobs_count_ : frame R remaining_jobs_count_.
Proof. unfold remaining_jobs_count_. frames; apply frame_remaining_jobs_count. Qed.

Lemma frame_active_jobs_ limit : frame R (active_jobs_ limit).
Proof. unfold active_jobs_. frames; apply frame_active_jobs. Qed.

Lemma frame_reservations_ s e : frame R (reservations_ s e).
Proof. unfold reservations_. frames; apply frame_reservations. Qed.

Lemma frame_submit_job qobj jn jt cid lde : frame R (_submit_job qobj jn jt cid lde).
Proof. unfold _submit_job, name_. frames. Qed.

Lemma frame_run_validate a : frame R (run_validate a).
Proof. unfold run_validate, configuration. frames. Qed.

Lemma frame_run_dispatch a d : frame R (run_dispatch a d).
Proof. unfold run_dispatch, configuration. frames; apply frame_submit_job. Qed.

(** *** The pass over 'id' and [run] *)

Context `{!Replacing R}.

Lemma frame_replace_id_at r dt_in_s idx d : frame R (replace_id_at r dt_in_s idx d).
Proof.
  unfold replace_id_at. frames; try apply frame_properties_.
  apply replacing_store.
Qed.

Lemma frame_replace_ids r dt_in_s idx items : frame R (replace_ids r dt_in_s idx items).
Proof.
  revert idx. induction items as [|d rest IH]; intros idx; simpl; frames.
  - apply frame_replace_id_at.
  - apply IH.
Qed.

Lemma frame_replace_in_circuits dt_in_s cs : frame R (replace_in_circuits dt_in_s cs).
Proof.
  induction cs as [|r rest IH]; simpl; frames; try apply IH.
  apply frame_replace_ids.
Qed.

Lemma frame_deprecate_id_instruction cs : frame R (_deprecate_id_instruction cs).
Proof.
  unfold _deprecate_id_instruction, configuration.
  frame_step. { frames. }
  frame_step. { frames. }
  frame_step. { frames. }
  frame_step. { frames. }
  (* the one-time warning and its flag *)
  intros w. unfold bind at 1. unfold gets at 1. simpl.
  destruct (id_warning_issued (self w)) eqn:Hflag; simpl.
  - apply frame_bind; [typeclasses eauto|frames|intros ?].
    frames; apply frame_replace_in_circuits.
  - set (rest := bind (gets _) _).
    assert (Hrest : frame R rest).
    { unfold rest. frames; apply frame_replace_in_circuits. }
    destruct (str_in "id" _ && str_in "delay" _); unfold bind, warn, modify; simpl.
    + etransitivity; [|apply Hrest].
      apply (replacing_flag IdDeprecated w); done.
    + etransitivity; [|apply Hrest].
      apply (replacing_flag IdRemoved w); done.
Qed.

(** *** The run configuration and [run] *)

Context `{!Warning R}.

Lemma frame_warn_option key : frame R (warn (UnrecognizedOption key)).
Proof. intros w. apply warning_option. Qed.

Ltac frames ::= repeat (first [frame_step | leaf | apply frame_warn_option]).

Lemma frame_get_run_config_loop opts sim kwargs d :
  frame R (_get_run_config_loop opts sim kwargs d).
Proof.
  revert d. induction kwargs as [|[key val] rest IH]; intros d; simpl.
  - frames.
  - destruct (is_None val); [apply IH|].
    frames; apply IH.
Qed.

Lemma frame_get_run_config kwargs : frame R (_get_run_config kwargs).
Proof. unfold _get_run_config. frames. apply frame_get_run_config_loop. Qed.

Lemma frame_run_get_config a esp : frame R (run_get_config a esp).
Proof. unfold run_get_config, configuration. frames; apply frame_get_run_config. Qed.

Lemma frame_run_prepare a : frame R (run_prepare a).
Proof.
  unfold run_prepare, configuration.
  frames; first [ apply frame_run_validate | apply frame_deprecate_id_instruction
                | apply frame_run_get_config ].
Qed.

Lemma frame_IBMBackend_run a : frame R (IBMBackend_run a).
Proof.
  unfold IBMBackend_run. frames; [apply frame_run_prepare|apply frame_run_dispatch].
Qed.

Lemma frame_IBMSimulator_run cs jn jt bo nm kw : frame R (IBMSimulator_run cs jn jt bo nm kw).
Proof.
  unfold IBMSimulator_run.
  frames; first [apply frame_IBMBackend_run | intros w; apply warning_backend_options].
Qed.

Lemma frame_run_ a : frame R (run_ a).
Proof.
  unfold run_, IBMRetiredBackend_run, name_.
  frames; first [apply frame_IBMBackend_run | apply frame_IBMSimulator_run].
Qed.

Lemma frame_exec o w : R w (exec o w).
Proof.
  destruct o; simpl.
  - apply frame_run_.
  - apply frame_properties_.
  - apply frame_status_.
  - apply frame_defaults_.
  - apply frame_job_limit_.
  - apply frame_remaining_jobs_count_.
  - apply frame_reservations_.
  - apply frame_active_jobs_.
Qed.

Lemma frame_exec_all ops w : R w (exec_all ops w).
Proof.
  revert w. induction ops as [|o ops IH]; intros w; simpl; [reflexivity|].
  etransitivity; [apply frame_exec|apply IH].
Qed.
End Methods.

(** ** The relations that are framed *)

Section Relations.
Context `{Ext : Externals}.

Global Instance same_configuration_quiet : Quiet same_configuration.
Proof.
  split; [split| | | |]; try done.
  intros w1 w2 w3. unfold same_configuration. congruence.
Qed.

Global Instance same_configuration_replacing : Replacing same_configuration.
Proof. split; done. Qed.

Global Instance same_configuration_warning : Warning same_configuration.
Proof. split; done. Qed.

Global Instance same_class_quiet : Quiet same_class.
Proof.
  split; [split| | | |]; try done.
  intros w1 w2 w3. unfold same_class. congruence.
Qed.

Global Instance same_class_replacing : Replacing same_class.
Proof. split; done. Qed.

Global Instance same_class_warning : Warning same_class.
Proof. split; done. Qed.

Global Instance same_store_quiet : Quiet same_store.
Proof.
  split; [split| | | |]; try done.
  intros w1 w2 w3. unfold same_store. congruence.
Qed.

Global Instance same_store_warning : Warning same_store.
Proof. split; done. Qed.

Lemma id_warnings_app (w : World) x :
  id_warnings (warn x w).2
  = (id_warnings w + if is_id_warning x then 1 else 0)%nat.
Proof.
  unfold id_warnings. simpl. rewrite filter_app, length_app. simpl.
  by destruct (is_id_warning x).
Qed.

Global Instance within_budget_quiet : Quiet within_budget.
Proof.
  split; [split| | | |]; unfold within_budget.
  - intros w. lia.
  - intros w1 w2 w3. lia.
  - intros c w. done.
  - intros e j w. done.
  - intros p w. done.
  - intros d w. done.
Qed.

Global Instance within_budget_warning : Warning within_budget.
Proof.
  split; unfold within_budget.
  - intros key w. unfold budget. rewrite id_warnings_app. simpl. lia.
  - intros w. unfold budget. rewrite id_warnings_app. simpl. lia.
Qed.

Global Instance within_budget_replacing : Replacing within_budget.
Proof.
  split; unfold within_budget.
  - intros x w Hx Hflag. unfold budget at 2. rewrite Hflag.
    unfold budget. simpl.
    change (id_warnings _) with (id_warnings (warn x w).2) at 1.
    rewrite id_warnings_app, Hx. lia.
  - intros s w. done.
Qed.
End Relations.

(** ** Submission *)

Section Submission.
Context `{Ext : Externals} `{Client : !AccountClient}.

(** The call that [_submit_job] makes in world [w], and how it ends. *)
Lemma submit_job_unfold qobj jn jt cid lde w :
  let c := job_submit (name_of w) (to_dict qobj) jn jt cid lde in
  _submit_job qobj jn jt cid lde w =
    match reply_submit (api_log w) c with
    | inl (ApiError ex) =>
        (Raise (if str_contains "Error code: 3458" ex
                then IBMBackendJobLimitError ("Error submitting job: " +:+ ex)
                else IBMBackendApiError ("Error submitting job: " +:+ ex)),
         log_call c w)
    | inl e => (Raise e, log_call c w)
    | inr submit_info =>
        match dict_get "error" submit_info with
        | Some err =>
            (Raise (IBMBackendError ("Error submitting job: " +:+ py_str err)),
             log_call c w)
        | None =>
            match IBMCircuitJob qobj submit_info with
            | inr job => (Return job, (publish "ibm.job.start" job (log_call c w)).2)
            | inl (TypeError err) =>
                (Raise (IBMBackendApiProtocolError
                          ("Unexpected return value received from the server when submitting job: "
                             +:+ err)), log_call c w)
            | inl e => (Raise e, log_call c w)
            end
        end
    end.
Proof.
  intros c. unfold _submit_job, bind, name_, gets, client_call. simpl. fold c.
  destruct (reply_submit (api_log w) c) as [e|info]; simpl.
  - destruct e; try done. by destruct (str_contains _ _).
  - destruct (dict_get "error" info); [done|].
    destruct (IBMCircuitJob qobj info) as [e|job]; [|done]. by destruct e.
Qed.

(** Every submission makes exactly one call on the client. *)
Lemma submit_job_one_call qobj jn jt cid lde w :
  api_log (_submit_job qobj jn jt cid lde w).2 =
    api_log w ++ [job_submit (name_of w) (to_dict qobj) jn jt cid lde].
Proof.
  rewrite submit_job_unfold. simpl.
  destruct (reply_submit _ _) as [e|info]; simpl; [by destruct e|].
  destruct (dict_get "error" info); [done|].
  destruct (IBMCircuitJob qobj info) as [e|job]; [|done]. by destruct e.
Qed.

(** C2, as the code has it.  Every call of [_submit_job] makes one call
    of [job_submit] and ends in one of four ways, decided by what the
    client and the job constructor do.  The client raised [ApiError]: the
    call raises [IBMBackendJobLimitError] when the error text contains
    "Error code: 3458" and [IBMBackendApiError] otherwise.  The answer has
    an 'error' field: the call raises [IBMBackendError] and yields no job.
    The answer is a success: the call returns the job built from it, or
    raises [IBMBackendApiProtocolError] when the constructor raised
    [TypeError].  The fourth way is not among those that the docstring
    lists: the [try] blocks catch [ApiError] and [TypeError] only, so an
    exception of any other class, raised by the client or by the
    constructor, leaves [_submit_job] as it is, unwrapped. *)
Theorem submit_job_outcomes qobj jn jt cid lde w :
  let c := job_submit (name_of w) (to_dict qobj) jn jt cid lde in
  let r := (_submit_job qobj jn jt cid lde w).1 in
  api_log (_submit_job qobj jn jt cid lde w).2 = api_log w ++ [c] /\
  ((exists ex,
      reply_submit (api_log w) c = inl (ApiError ex) /\
      r = Raise (if str_contains "Error code: 3458" ex
                 then IBMBackendJobLimitError ("Error submitting job: " +:+ ex)
                 else IBMBackendApiError ("Error submitting job: " +:+ ex)))
   \/
   (exists info err,
      reply_submit (api_log w) c = inr info /\
      dict_get "error" info = Some err /\
      r = Raise (IBMBackendError ("Error submitting job: " +:+ py_str err)) /\
      forall job, r <> Return job)
   \/
   (exists info,
      reply_submit (api_log w) c = inr info /\
      dict_get "error" info = None /\
      ((exists job, IBMCircuitJob qobj info = inr job /\ r = Return job) \/
       (exists err,
          IBMCircuitJob qobj info = inl (TypeError err) /\
          r = Raise (IBMBackendApiProtocolError
                       ("Unexpected return value received from the server when submitting job: "
                          +:+ err)))))
   \/
   (exists e,
      r = Raise e /\
      ((reply_submit (api_log w) c = inl e /\ forall ex, e <> ApiError ex) \/
       (exists info,
          reply_submit (api_log w) c = inr info /\
          dict_get "error" info = None /\
          IBMCircuitJob qobj info = inl e /\ forall err, e <> TypeError err)))).
Proof.
  intros c r. split; [apply submit_job_one_call|].
  unfold r. rewrite submit_job_unfold. fold c.
  destruct (reply_submit (api_log w) c) as [e|info] eqn:Hreply.
  - destruct e; try (right; right; right; eexists; split; [done|]; left; by split).
    left. by eexists.
  - destruct (dict_get "error" info) as [err|] eqn:Herr.
    + right; left. exists info, err. by repeat split.
    + destruct (IBMCircuitJob qobj info) as [e|job] eqn:Hjob.
      * destruct e;
          try (right; right; right; eexists; split; [done|]; right;
               exists info; by repeat split).
        right; right; left. exists info. split; [done|]. split; [done|].
        right. by eexists.
      * right; right; left. exists info. split; [done|]. split; [done|].
        left. by eexists.
Qed.
End Submission.

(** ** Chunking in [run] *)

Section Dispatch.
Context `{Ext : Externals} `{Client : !AccountClient}.

Lemma run_dispatch_single a d w :
  match circuits a with
  | Many cs =>
      split_circuits (chunk_size_of (_configuration (self w)) (max_circuits_per_job a)) cs
  | One _ => None
  end = None ->
  let qobj := assemble (deref (store w) (circuits a)) d in
  run_dispatch a d w =
    bind (_submit_job qobj (job_name a) (job_tags a) PyNone (live_data_enabled a))
      (fun job => ret (CircuitJob job)) w /\
  api_log (run_dispatch a d w).2 =
    api_log w ++ [job_submit (name_of w) (to_dict qobj) (job_name a) (job_tags a)
                    PyNone (live_data_enabled a)].
Proof.
  intros Hsplit qobj.
  assert (Heq : run_dispatch a d w =
    bind (_submit_job qobj (job_name a) (job_tags a) PyNone (live_data_enabled a))
      (fun job => ret (CircuitJob job)) w).
  { unfold run_dispatch, configuration. unfold bind at 1. unfold gets at 1.
    simpl. rewrite Hsplit. reflexivity. }
  split; [done|]. rewrite Heq. unfold bind.
  pose proof (submit_job_one_call qobj (job_name a) (job_tags a) PyNone
                (live_data_enabled a) w) as Hlog.
  by destruct (_submit_job _ _ _ _ _ w) as [[job|e] w'].
Qed.

(** C1, as the code has it.  With an effective per-job maximum [max] (the
    backend's [max_experiments], or its minimum with the caller's
    [max_circuits_per_job]) that is positive, a list longer than [max]
    becomes a composite job over [ceil(N/max)] contiguous chunks, each of
    at least one and at most [max] circuits, whose concatenation is the
    list; a list of at most [max] circuits, and any list when [max] is 0,
    gives exactly one payload, submitted by one call on the client. *)
Theorem run_chunks_circuits a cs backend_max d w :
  circuits a = Many cs ->
  max_experiments (_configuration (self w)) = Some backend_max ->
  let max := match max_circuits_per_job a with
             | None => backend_max
             | Some m => Z.min backend_max m
             end in
  let N := Z.of_nat (length cs) in
  (0 < max < N ->
     exists chunks,
       run_dispatch a d w =
         (Return (IBMCompositeJob chunks d (job_name a) (job_tags a)), w) /\
       Z.of_nat (length chunks) = ceil_div N max /\
       Forall (fun ch => 1 <= Z.of_nat (length ch) <= max) chunks /\
       concat chunks = cs) /\
  (max = 0 \/ N <= max ->
     let qobj := assemble (Many (store w <$> cs)) d in
     run_dispatch a d w =
       bind (_submit_job qobj (job_name a) (job_tags a) PyNone (live_data_enabled a))
         (fun job => ret (CircuitJob job)) w /\
     api_log (run_dispatch a d w).2 =
       api_log w ++ [job_submit (name_of w) (to_dict qobj) (job_name a) (job_tags a)
                       PyNone (live_data_enabled a)]).
Proof.
  intros Hcs Hmax max N.
  assert (Hsize : chunk_size_of (_configuration (self w)) (max_circuits_per_job a)
                  = Some max).
  { unfold chunk_size_of. by rewrite Hmax. }
  split.
  - intros Hlt.
    destruct (split_circuits_Some cs max) as (chunks & Hsplit & Hlen & Hall & Hcat);
      [lia|lia|].
    exists chunks. repeat split; try done.
    unfold run_dispatch, configuration, bind, gets. simpl.
    by rewrite Hcs, Hsize, Hsplit.
  - intros Hle qobj.
    pose proof (run_dispatch_single a d w) as Hsingle.
    rewrite Hcs, Hsize in Hsingle. simpl in Hsingle.
    apply Hsingle. by apply split_circuits_None.
Qed.
End Dispatch.

(** ** Validation in [run] *)

Section Validation.
Context `{Ext : Externals} `{Client : !AccountClient}.

Lemma run_raises_in_validation a w e :
  run_validate a w = (Raise e, w) -> IBMBackend_run a w = (Raise e, w).
Proof.
  intros H. unfold IBMBackend_run, run_prepare.
  unfold bind at 1. unfold bind at 1. by rewrite H.
Qed.

(** C5. A call of [run] with malformed job tags, or with
    [use_measure_esp=True] on a backend whose configuration does not
    declare [measure_esp_enabled] or declares it [False], raises
    [IBMBackendValueError] and leaves the world as it was: no method of the
    client was called.  With [use_measure_esp=None] and well-formed tags
    the validation raises nothing and takes the backend's
    [measure_esp_enabled] as the value of [use_measure_esp]. *)
Theorem run_validates_before_network a w :
  (validate_job_tags (job_tags a) = false ->
     exists msg, IBMBackend_run a w = (Raise (IBMBackendValueError msg), w) /\
                 api_log (IBMBackend_run a w).2 = api_log w) /\
  (use_measure_esp a = PyBool true ->
   measure_esp_enabled (_configuration (self w)) = None \/
   measure_esp_enabled (_configuration (self w)) = Some (PyBool false) ->
     exists msg, IBMBackend_run a w = (Raise (IBMBackendValueError msg), w) /\
                 api_log (IBMBackend_run a w).2 = api_log w) /\
  (use_measure_esp a = PyNone ->
   validate_job_tags (job_tags a) = true ->
     run_validate a w =
       (Return (measure_esp_enabled_of (_configuration (self w))), w)).
Proof.
  split; [|split].
  - intros Htags. eexists.
    assert (H : run_validate a w = (Raise (IBMBackendValueError
               "job_tags needs to be a list or strings."), w)).
    { unfold run_validate. by rewrite Htags. }
    apply run_raises_in_validation in H. by rewrite H.
  - intros Hesp Hcfg.
    destruct (validate_job_tags (job_tags a)) eqn:Htags.
    + eexists.
      assert (H : run_validate a w = (Raise (IBMBackendValueError
        "ESP readout not supported on this device. Please make sure the flag 'use_measure_esp' is unset or set to 'False'."), w)).
      { unfold run_validate, configuration, bind, gets, measure_esp_enabled_of.
        rewrite Htags, Hesp. simpl. by destruct Hcfg as [-> | ->]. }
      apply run_raises_in_validation in H. by rewrite H.
    + eexists.
      assert (H : run_validate a w = (Raise (IBMBackendValueError
                 "job_tags needs to be a list or strings."), w)).
      { unfold run_validate. by rewrite Htags. }
      apply run_raises_in_validation in H. by rewrite H.
  - intros Hesp Htags.
    unfold run_validate, configuration, bind, gets. rewrite Htags, Hesp. simpl.
    by destruct (truthy (measure_esp_enabled_of _)).
Qed.
End Validation.

(** ** The job limit *)

Section JobLimit.
Context `{Ext : Externals} `{Client : !AccountClient}.

Lemma job_limit_unfold w :
  let c := backend_job_limit (name_of w) in
  IBMBackend_job_limit w =
    match reply (api_log w) c with
    | inl e => (Raise e, log_call c w)
    | inr v =>
        match BackendJobLimit_init v with
        | inr l =>
            (Return (if bool_decide (maximum_jobs l = Some (-1))
                     then mkBackendJobLimit None (active_jobs l) else l),
             log_call c w)
        | inl (TypeError ex) =>
            (Raise (IBMBackendApiProtocolError
               ("Unexpected return value received from the server when querying job limit data for the backend: "
                  +:+ ex +:+ ".")), log_call c w)
        | inl e => (Raise e, log_call c w)
        end
    end.
Proof.
  intros c. unfold IBMBackend_job_limit, api, bind, name_, gets, client_call.
  simpl. fold c.
  destruct (reply (api_log w) c) as [e|v]; simpl; [done|].
  destruct (BackendJobLimit_init v) as [e|l]; [by destruct e|].
  by case_bool_decide.
Qed.

(** C9. Whenever the server's answer is accepted by [BackendJobLimit],
    [job_limit] returns a record whose [maximum_jobs] is not -1: a -1 from
    the server becomes [None], every other value is kept; and for a -1
    [remaining_jobs_count] returns [None]. *)
Theorem job_limit_never_minus_one w v l0 :
  reply (api_log w) (backend_job_limit (name_of w)) = inr v ->
  BackendJobLimit_init v = inr l0 ->
  exists l,
    (IBMBackend_job_limit w).1 = Return l /\
    maximum_jobs l <> Some (-1) /\
    active_jobs l = active_jobs l0 /\
    (maximum_jobs l0 = Some (-1) ->
       maximum_jobs l = None /\
       (IBMBackend_remaining_jobs_count w).1 = Return None) /\
    (maximum_jobs l0 <> Some (-1) -> l = l0).
Proof.
  intros Hreply Hinit.
  pose proof (job_limit_unfold w) as Hjl. simpl in Hjl.
  rewrite Hreply, Hinit in Hjl.
  eexists. split; [by rewrite Hjl|].
  case_bool_decide as Hm; simpl.
  - repeat split; try done.
    unfold IBMBackend_remaining_jobs_count, bind. by rewrite Hjl.
  - repeat split; try done.
Qed.
End JobLimit.

(** ** The identity of the backend *)

Section Identity.
Context `{Ext : Externals} `{Client : !AccountClient}.

(** C8. No sequence of public operations ([run], [properties], [status],
    [defaults], [job_limit], [remaining_jobs_count], [reservations],
    [active_jobs]), on an instance of any of the three classes, changes the
    stored configuration; so [name()] stays what the constructor was
    given. *)
Theorem name_is_immutable ops w :
  _configuration (self (exec_all ops w)) = _configuration (self w) /\
  name_of (exec_all ops w) = name_of w /\
  forall c cfg creds s,
    w = new_world (IBMBackend_init c cfg creds) s ->
    name_of (exec_all ops w) = backend_name cfg.
Proof.
  pose proof (frame_exec_all same_configuration ops w) as H.
  unfold same_configuration in H.
  split; [done|]. split; [unfold name_of; by rewrite H|].
  intros c cfg creds s ->. unfold name_of. rewrite H. by destruct c.
Qed.
End Identity.

(** ** The metadata accessors *)

Section Accessors.
Context `{Ext : Externals} `{Client : !AccountClient}.

Lemma api_unfold c w :
  api c w = match reply (api_log w) c with
            | inl e => (Raise e, log_call c w)
            | inr v => (Return v, log_call c w)
            end.
Proof.
  unfold api, bind, client_call. by destruct (reply (api_log w) c).
Qed.

(** C6. A call of [properties] with a [datetime] leaves the cache
    [_properties] as it was, and returns the historical properties it
    fetched; the cache is replaced only by a call with [refresh=True] or
    by a call that finds it empty; and a call answered from the cache
    changes nothing in the world: in particular no call on the client is
    made. *)
Theorem properties_cache refresh datetime w :
  let r := IBMBackend_properties refresh datetime w in
  (forall t, datetime = PyDatetime t ->
     _properties (self r.2) = _properties (self w) /\
     forall v bp,
       isinstance_bool refresh = true ->
       reply (api_log w)
         (backend_properties (name_of w) (PyDatetime (local_to_utc t))) = inr v ->
       truthy v = true ->
       BackendProperties_from_dict (utc_to_local_all (decode_backend_properties v))
         = inr bp ->
       r.1 = Return (Some bp)) /\
  (_properties (self r.2) <> _properties (self w) ->
     truthy refresh = true \/ _properties (self w) = None) /\
  (forall p,
     _properties (self w) = Some p ->
     refresh = PyBool false -> truthy datetime = false ->
     r = (Return (Some p), w)).
Proof.
  intros r. subst r. split; [|split].
  - intros t ->. split.
    + unfold IBMBackend_properties. run_monad.
      repeat case_match; simplify_eq/=; done.
    + intros v bp Hbool Hreply Hv Hbp.
      unfold IBMBackend_properties. rewrite Hbool. run_monad.
      by rewrite Hreply, Hv, Hbp.
  - intros Hne.
    destruct (truthy refresh) eqn:Hr; [by left|right].
    destruct (_properties (self w)) as [p|] eqn:Hp; [|done].
    exfalso. apply Hne. clear Hne.
    unfold IBMBackend_properties. run_monad.
    destruct (isinstance_bool refresh); simpl; [|done].
    destruct datetime; simpl; rewrite ?Hp, ?Hr; simpl;
      repeat case_match; simplify_eq/=; try done;
      match goal with H : opt_is_None _ = true |- _ => by rewrite Hp in H end.
  - intros p Hp -> Hdt.
    unfold IBMBackend_properties. run_monad.
    destruct datetime; simplify_eq/=; rewrite ?Hdt; simpl;
      repeat (case_match; simplify_eq/=); try done;
      repeat match goal with
             | H : context [opt_is_None (_properties (self w))] |- _ =>
                 rewrite Hp in H
             | H : context [negb (_ =? _)] |- _ => rewrite Hdt in H
             | H : context [negb (String.eqb _ _)] |- _ => rewrite Hdt in H
             end; simplify_eq/=; by rewrite ?Hp.
Qed.

(** C7, as the code has it.  [status] and [job_limit] check the shape of
    the server's answer: on every call they return the object built from
    it, or raise [IBMBackendApiProtocolError] when the constructor raised
    [TypeError], and never return a partial result; an exception of
    another class leaves them as it is.  [properties], [defaults] and
    [reservations] have no such check: on every call that asks the server,
    whatever its arguments, an exception raised while the answer is
    parsed leaves the method as it is, of whatever class, and
    [properties] and [defaults] return [None] for an empty answer. *)
Theorem accessors_response_shape w :
  (forall v,
     reply (api_log w) (backend_status (name_of w)) = inr v ->
     (IBMBackend_status w).1 =
       match BackendStatus_from_dict v with
       | inr s => Return s
       | inl (TypeError ex) =>
           Raise (IBMBackendApiProtocolError
                    ("Unexpected return value received from the server when getting backend status: "
                       +:+ ex))
       | inl e => Raise e
       end) /\
  (forall v,
     reply (api_log w) (backend_job_limit (name_of w)) = inr v ->
     (IBMBackend_job_limit w).1 =
       match BackendJobLimit_init v with
       | inr l =>
           Return (if bool_decide (maximum_jobs l = Some (-1))
                   then mkBackendJobLimit None (active_jobs l) else l)
       | inl (TypeError ex) =>
           Raise (IBMBackendApiProtocolError
                    ("Unexpected return value received from the server when querying job limit data for the backend: "
                       +:+ ex +:+ "."))
       | inl e => Raise e
       end) /\
  (forall refresh datetime v,
     isinstance_bool refresh = true ->
     (truthy datetime = true -> isinstance_datetime datetime = true) ->
     truthy datetime || truthy refresh || opt_is_None (_properties (self w)) = true ->
     reply (api_log w)
       (backend_properties (name_of w)
          match datetime with
          | PyDatetime t => PyDatetime (local_to_utc t)
          | v => v
          end) = inr v ->
     (IBMBackend_properties refresh datetime w).1 =
       if truthy v then
         match BackendProperties_from_dict
                 (utc_to_local_all (decode_backend_properties v)) with
         | inr bp => Return (Some bp)
         | inl e => Raise e
         end
       else Return None) /\
  (forall refresh v,
     truthy refresh || opt_is_None (_defaults (self w)) = true ->
     reply (api_log w) (backend_pulse_defaults (name_of w)) = inr v ->
     (IBMBackend_defaults refresh w).1 =
       if truthy v then
         match PulseDefaults_from_dict (decode_pulse_defaults v) with
         | inr d => Return (Some d)
         | inl e => Raise e
         end
       else Return None) /\
  (forall start_datetime end_datetime v,
     let utc d := match d with
                  | Some t => PyDatetime (local_to_utc t)
                  | None => PyNone
                  end in
     reply (api_log w)
       (backend_reservations (name_of w) (utc start_datetime) (utc end_datetime)) = inr v ->
     (IBMBackend_reservations start_datetime end_datetime w).1 =
       match convert_reservation_data v (name_of w) with
       | inr l => Return l
       | inl e => Raise e
       end).
Proof.
  split; [|split; [|split; [|split]]].
  - intros v Hreply. unfold IBMBackend_status. run_monad. rewrite Hreply.
    destruct (BackendStatus_from_dict v) as [e|s]; [|done]. by destruct e.
  - intros v Hreply. unfold IBMBackend_job_limit. run_monad. rewrite Hreply.
    destruct (BackendJobLimit_init v) as [e|l]; [by destruct e|]. by case_bool_decide.
  - intros refresh datetime v Hbool Hdt Hask Hreply.
    unfold IBMBackend_properties. rewrite Hbool. simpl.
    assert (Hok : truthy datetime && negb (isinstance_datetime datetime) = false).
    { destruct (truthy datetime); [|done]. by rewrite Hdt. }
    rewrite Hok.
    assert (Hsame : truthy match datetime with
                           | PyDatetime t => PyDatetime (local_to_utc t)
                           | v => v
                           end = truthy datetime) by by destruct datetime.
    run_monad. rewrite Hsame, Hask, Hreply.
    destruct (truthy v); simpl; [|done].
    destruct (BackendProperties_from_dict _) as [e|bp]; simpl; [done|].
    by destruct (truthy datetime).
  - intros refresh v Hask Hreply.
    unfold IBMBackend_defaults. run_monad. rewrite Hask, Hreply.
    destruct (truthy v); simpl; [|done].
    by destruct (PulseDefaults_from_dict _).
  - intros s e v utc Hreply. unfold IBMBackend_reservations. run_monad.
    subst utc. simpl in Hreply. rewrite Hreply.
    by destruct (convert_reservation_data _ _).
Qed.
End Accessors.

(** ** The consolidated run configuration *)

Section RunConfig.
Context `{Ext : Externals} `{Client : !AccountClient}.

Global Instance same_options_quiet : Quiet same_options.
Proof.
  split; [split| | | |]; try done.
  intros w1 w2 w3. unfold same_options. congruence.
Qed.
Global Instance same_options_replacing : Replacing same_options.
Proof. split; done. Qed.
Global Instance same_options_warning : Warning same_options.
Proof. split; done. Qed.

Lemma option_warnings_app key (w : World) x :
  option_warnings key (warn x w).2
  = (option_warnings key w + if is_unrecognized key x then 1 else 0)%nat.
Proof.
  unfold option_warnings. simpl. rewrite filter_app, length_app. simpl.
  by destruct (is_unrecognized key x).
Qed.

Global Instance same_option_warnings_quiet key : Quiet (same_option_warnings key).
Proof.
  split; [split| | | |]; try done.
  intros w1 w2 w3. unfold same_option_warnings. congruence.
Qed.
Global Instance same_option_warnings_replacing key :
  Replacing (same_option_warnings key).
Proof.
  split; [|done]. intros x w Hx _. unfold same_option_warnings.
  change (option_warnings key _) with (option_warnings key (warn x w).2) at 1.
  rewrite option_warnings_app. destruct x; try done; simpl; lia.
Qed.

(** The loop of [_get_run_config] never raises. *)
Lemma get_run_config_loop_eq opts sim kwargs d w :
  _get_run_config_loop opts sim kwargs d w =
    (Return (consolidate kwargs d), add_warnings (unrecognized opts sim kwargs) w).
Proof.
  revert d w. induction kwargs as [|[key val] rest IH]; intros d w; simpl.
  - unfold ret, add_warnings, unrecognized. simpl. rewrite app_nil_r. by destruct w.
  - unfold unrecognized. simpl. destruct (is_None val) eqn:Hval; simpl.
    + apply IH.
    + unfold bind.
      destruct (bool_decide (opts !! key = None) && negb sim) eqn:Hw; simpl.
      * rewrite IH. f_equal. unfold add_warnings, unrecognized. simpl.
        by rewrite <- app_assoc.
      * unfold ret. rewrite IH. done.
Qed.

Lemma get_run_config_eq kwargs w :
  _get_run_config kwargs w =
    (Return (consolidate kwargs (options (self w))),
     add_warnings (unrecognized (options (self w))
                     (isinstance_IBMSimulator (cls (self w))) kwargs) w).
Proof.
  unfold _get_run_config, bind, gets. simpl. apply get_run_config_loop_eq.
Qed.

Lemma consolidate_notin kwargs d key :
  key ∉ kwargs.*1 -> consolidate kwargs d !! key = d !! key.
Proof.
  revert d. induction kwargs as [|[k v] rest IH]; intros d Hnotin; simpl; [done|].
  simpl in Hnotin. apply not_elem_of_cons in Hnotin as [Hne Hrest].
  rewrite IH by done.
  destruct (is_None v); [done|]. by rewrite lookup_insert_ne.
Qed.

Lemma consolidate_in kwargs d key val :
  NoDup kwargs.*1 -> (key, val) ∈ kwargs ->
  consolidate kwargs d !! key = if is_None val then d !! key else Some val.
Proof.
  revert d. induction kwargs as [|[k v] rest IH]; intros d Hnd Hin; simpl.
  - by apply elem_of_nil in Hin.
  - simpl in Hnd. apply list.NoDup_cons in Hnd as [Hk Hnd].
    apply elem_of_cons in Hin as [Heq|Hin].
    + inversion Heq; subst k v. rewrite consolidate_notin by done.
      destruct (is_None val); [done|]. by rewrite lookup_insert_eq.
    + rewrite IH by done.
      assert (key <> k).
      { intros ->. apply Hk. apply list_elem_of_fmap. by exists (k, val). }
      destruct (is_None val), (is_None v); try done; by rewrite lookup_insert_ne.
Qed.

(** [consolidate] never writes [None]. *)
Lemma consolidate_None kwargs d key :
  consolidate kwargs d !! key = Some PyNone -> d !! key = Some PyNone.
Proof.
  revert d. induction kwargs as [|[k v] rest IH]; intros d H; simpl in *; [done|].
  apply IH in H. destruct (is_None v) eqn:Hv; [done|].
  destruct (decide (k = key)) as [->|Hne].
  - rewrite lookup_insert_eq in H. inversion H; subst v. done.
  - by rewrite lookup_insert_ne in H.
Qed.

Lemma unrecognized_cons opts sim k v rest :
  unrecognized opts sim ((k, v) :: rest) =
    (if negb (is_None v) && bool_decide (opts !! k = None) && negb sim
     then [UnrecognizedOption k] else []) ++ unrecognized opts sim rest.
Proof.
  unfold unrecognized. simpl.
  by destruct (negb (is_None v) && bool_decide (opts !! k = None) && negb sim).
Qed.

Lemma unrecognized_count opts sim kwargs key :
  key ∉ kwargs.*1 ->
  length (List.filter (is_unrecognized key) (unrecognized opts sim kwargs)) = 0%nat.
Proof.
  induction kwargs as [|[k v] rest IH]; intros Hnotin; [done|].
  simpl in Hnotin. apply not_elem_of_cons in Hnotin as [Hne Hrest].
  rewrite unrecognized_cons, filter_app, length_app, IH by done.
  destruct (negb (is_None v) && bool_decide (opts !! k = None) && negb sim);
    simpl; [|done].
  by destruct (String.eqb_spec k key).
Qed.

Lemma unrecognized_count_in opts sim kwargs key val :
  NoDup kwargs.*1 -> (key, val) ∈ kwargs ->
  length (List.filter (is_unrecognized key) (unrecognized opts sim kwargs)) =
    if negb (is_None val) && bool_decide (opts !! key = None) && negb sim
    then 1%nat else 0%nat.
Proof.
  induction kwargs as [|[k v] rest IH]; intros Hnd Hin.
  - by apply elem_of_nil in Hin.
  - simpl in Hnd. apply list.NoDup_cons in Hnd as [Hk Hnd].
    rewrite unrecognized_cons, filter_app, length_app.
    apply elem_of_cons in Hin as [Heq|Hin].
    + inversion Heq; subst k v.
      rewrite unrecognized_count by done.
      destruct (negb (is_None val) && bool_decide (opts !! key = None) && negb sim);
        simpl; [|done].
      by rewrite String.eqb_refl.
    + assert (key <> k).
      { intros ->. apply Hk. apply list_elem_of_fmap. by exists (k, val). }
      rewrite IH by done.
      destruct (negb (is_None v) && bool_decide (opts !! k = None) && negb sim);
        simpl; [|done].
      destruct (String.eqb_spec k key); [congruence|done].
Qed.

Lemma option_warnings_add key ws (w : World) :
  option_warnings key (add_warnings ws w)
  = (option_warnings key w + length (List.filter (is_unrecognized key) ws))%nat.
Proof. unfold option_warnings. simpl. by rewrite filter_app, length_app. Qed.

(** What [_get_run_config] does with one keyword argument: a [None] is
    dropped silently; any other value is written into the configuration,
    with exactly one warning when the option is not among
    [self.options] and the backend is not an [IBMSimulator], and with no
    warning otherwise.  It never raises. *)
Lemma get_run_config_keyword kwargs key val w :
  NoDup kwargs.*1 -> (key, val) ∈ kwargs ->
  exists d w',
    _get_run_config kwargs w = (Return d, w') /\
    d !! key = (if is_None val then options (self w) !! key else Some val) /\
    option_warnings key w' =
      (option_warnings key w +
       if negb (is_None val) && bool_decide (options (self w) !! key = None)
          && negb (isinstance_IBMSimulator (cls (self w)))
       then 1 else 0)%nat.
Proof.
  intros Hnd Hin. rewrite get_run_config_eq. do 2 eexists. split; [done|]. split.
  - by apply consolidate_in.
  - rewrite option_warnings_add. f_equal. by apply unrecognized_count_in.
Qed.

(** *** Through [run] *)

Lemma run_validate_world a w : (run_validate a w).2 = w.
Proof.
  unfold run_validate. run_monad. repeat case_match; simplify_eq/=; done.
Qed.

Lemma call_kwargs_inr f named extra kwargs :
  call_kwargs f named extra = inr kwargs ->
  kwargs = named ++ extra /\ forall kv, kv ∈ extra -> kv.1 ∉ named.*1.
Proof.
  unfold call_kwargs. destruct (List.find _ extra) as [kv|] eqn:Hfind; [done|].
  intros [= <-]. split; [done|]. intros kv Hin Hnamed.
  apply list_elem_of_In in Hin.
  pose proof (find_none _ _ Hfind kv Hin) as Hkv. simpl in Hkv.
  unfold str_in in Hkv. by rewrite bool_decide_eq_true_2 in Hkv.
Qed.

Lemma run_kwargs_NoDup a esp : NoDup (run_kwargs a esp).*1.
Proof. simpl. by apply (bool_decide_unpack _). Qed.

Lemma run_kwargs_config_NoDup a esp kwargs :
  call_kwargs "_get_run_config" (run_kwargs a esp) (run_config a) = inr kwargs ->
  NoDup (run_config a).*1 -> NoDup kwargs.*1.
Proof.
  intros Hcall Hnd. apply call_kwargs_inr in Hcall as [-> Hdisj].
  rewrite fmap_app. apply list.NoDup_app. split; [apply run_kwargs_NoDup|]. split; [|done].
  intros k Hnamed Hextra. apply list_elem_of_fmap in Hextra as (kv & -> & Hkv).
  by apply (Hdisj kv).
Qed.

(** The three steps of [run_prepare] when it returns. *)
Lemma run_prepare_inv a w d w' :
  run_prepare a w = (Return d, w') ->
  exists esp w1 kwargs,
    run_validate a w = (Return esp, w) /\
    (is_None (use_measure_esp a) = true ->
       esp = measure_esp_enabled_of (_configuration (self w))) /\
    (is_None (use_measure_esp a) = false -> esp = use_measure_esp a) /\
    (if negb (simulator (_configuration (self w)))
     then _deprecate_id_instruction (circuits a) else ret tt) w = (Return tt, w1) /\
    call_kwargs "_get_run_config" (run_kwargs a esp) (run_config a) = inr kwargs /\
    w' = add_warnings (unrecognized (options (self w1))
                         (isinstance_IBMSimulator (cls (self w1))) kwargs) w1 /\
    (forall key, key <> "parameter_binds" -> key <> "method" ->
       d !! key = consolidate kwargs (options (self w1)) !! key) /\
    (forall v, consolidate kwargs (options (self w1)) !! "method" = Some v ->
       d !! "method" = Some v) /\
    (forall key, d !! key = Some PyNone ->
       consolidate kwargs (options (self w1)) !! key = Some PyNone).
Proof.
  unfold run_prepare. unfold bind at 1.
  pose proof (run_validate_world a w) as Hw.
  destruct (run_validate a w) as [[esp|e] w0] eqn:Hval; [|done].
  simpl in Hw. subst w0.
  unfold bind at 1. unfold configuration at 1, gets at 1.
  unfold bind at 1.
  destruct ((if negb (simulator (_configuration (self w)))
             then _deprecate_id_instruction (circuits a) else ret tt) w)
    as [[[]|e] w1] eqn:Hdep; [|done].
  unfold run_get_config.
  unfold bind at 1. unfold configuration at 1, gets at 1.
  unfold bind at 1. unfold lift.
  destruct (call_kwargs _ _ _) as [e|kwargs] eqn:Hcall; [done|].
  unfold ret at 1. unfold bind at 1. rewrite get_run_config_eq.
  unfold ret. intros [= <- <-].
  exists esp, w1, kwargs. repeat split; try done.
  - intros Hnone. revert Hval. unfold run_validate. run_monad.
    rewrite Hnone. repeat case_match; intros ?; simplify_eq/=; done.
  - intros Hnone. revert Hval. unfold run_validate. run_monad.
    rewrite Hnone. repeat case_match; intros ?; simplify_eq/=; done.
  - intros key Hpb Hm.
    repeat case_match; rewrite ?lookup_insert_ne by done; done.
  - intros v Hv.
    repeat case_match; rewrite ?lookup_insert_ne by done; try done;
      match goal with
      | H : _ && bool_decide _ = true |- _ =>
          apply andb_prop in H as [_ H]; apply bool_decide_eq_true_1 in H;
          rewrite ?lookup_insert_ne in H by done; congruence
      end.
  - intros key.
    repeat case_match; intros Hd; try done;
      repeat match goal with
      | H : <[?k := ?v]> _ !! key = Some PyNone |- _ =>
          destruct (decide (k = key)) as [<-|];
          [rewrite lookup_insert_eq in H; simplify_eq/=
          |rewrite lookup_insert_ne in H by done]
      end; try done;
      repeat match goal with
      | Hn : ?x = PyNone, Ht : context [truthy ?x] |- _ =>
          rewrite Hn in Ht; simpl in Ht
      end; done.
Qed.

Lemma frame_deprecate_step (R : World -> World -> Prop) `{!Quiet R} `{!Replacing R}
    (b : bool) cs w :
  R w ((if b then _deprecate_id_instruction cs else ret tt) w).2.
Proof.
  destruct b; [apply frame_deprecate_id_instruction; typeclasses eauto|].
  simpl. reflexivity.
Qed.

(** X1. What [run] does with an extra option that is not [None]: it is
    written into the consolidated configuration, with exactly one
    warning when it is not among [self.options] and the backend is not an
    [IBMSimulator]. *)
Lemma run_passes_option a w d w' key val :
  run_prepare a w = (Return d, w') ->
  NoDup (run_config a).*1 ->
  (key, val) ∈ run_config a -> is_None val = false ->
  key <> "parameter_binds" ->
  d !! key = Some val /\
  option_warnings key w' =
    (option_warnings key w +
     if bool_decide (options (self w) !! key = None)
        && negb (isinstance_IBMSimulator (cls (self w)))
     then 1 else 0)%nat.
Proof.
  intros Hrun Hnd Hin Hval Hpb.
  apply run_prepare_inv in Hrun
    as (esp & w1 & kwargs & _ & _ & _ & Hdep & Hcall & -> & Hd & Hm & _).
  pose proof (run_kwargs_config_NoDup _ _ _ Hcall Hnd) as Hnd'.
  pose proof (frame_deprecate_step same_options
                (negb (simulator (_configuration (self w)))) (circuits a) w) as Hopts.
  pose proof (frame_deprecate_step same_class
                (negb (simulator (_configuration (self w)))) (circuits a) w) as Hcls.
  pose proof (frame_deprecate_step (same_option_warnings key)
                (negb (simulator (_configuration (self w)))) (circuits a) w) as Hwarn.
  rewrite Hdep in Hopts, Hcls, Hwarn.
  unfold same_options, same_class, same_option_warnings in *. simpl in *.
  apply call_kwargs_inr in Hcall as [-> _].
  assert (Hin' : (key, val) ∈ run_kwargs a esp ++ run_config a).
  { apply elem_of_app. by right. }
  assert (Hc : consolidate (run_kwargs a esp ++ run_config a) (options (self w1)) !! key
               = Some val).
  { rewrite (consolidate_in _ _ key val) by done. by rewrite Hval. }
  split.
  - destruct (decide (key = "method")) as [->|Hne]; [by apply Hm|].
    by rewrite Hd.
  - rewrite option_warnings_add, (unrecognized_count_in _ _ _ key val) by done.
    by rewrite Hval, Hopts, Hcls, Hwarn.
Qed.

(** C10, as the code has it.  A keyword option that reaches
    [_get_run_config] with the value [None] is dropped without a warning
    and the entry of [self.options] is kept; this holds for every extra
    option and for every option that [run] passes on, [use_measure_esp]
    excepted: its [None] is first replaced by the backend's
    [measure_esp_enabled], which then overrides the entry.  (A 'method'
    left out may still be filled with the simulator's method.)  In every
    case the consolidated configuration never holds [None] where
    [self.options] holds another value. *)
Theorem none_keeps_default a w d w' :
  run_prepare a w = (Return d, w') ->
  NoDup (run_config a).*1 ->
  (forall key v,
     options (self w) !! key = Some v -> v <> PyNone -> d !! key <> Some PyNone) /\
  exists esp,
    run_validate a w = (Return esp, w) /\
    (is_None (use_measure_esp a) = true ->
       esp = measure_esp_enabled_of (_configuration (self w))) /\
    (forall key,
       (key, PyNone) ∈ run_kwargs a esp ++ run_config a ->
       key <> "parameter_binds" -> key <> "method" ->
       d !! key = options (self w) !! key /\
       option_warnings key w' = option_warnings key w).
Proof.
  intros Hrun Hnd.
  apply run_prepare_inv in Hrun
    as (esp & w1 & kwargs & Hval & Hesp & _ & Hdep & Hcall & -> & Hd & _ & Hnone).
  pose proof (run_kwargs_config_NoDup _ _ _ Hcall Hnd) as Hnd'.
  pose proof (frame_deprecate_step same_options
                (negb (simulator (_configuration (self w)))) (circuits a) w) as Hopts.
  rewrite Hdep in Hopts. unfold same_options in Hopts. simpl in Hopts.
  apply call_kwargs_inr in Hcall as [-> _].
  split.
  - intros key v Hopt Hv Hdkey. apply Hnone in Hdkey.
    apply consolidate_None in Hdkey. rewrite Hopts in Hdkey. congruence.
  - exists esp. repeat split; try done.
    + rewrite Hd by done.
      rewrite (consolidate_in _ _ key PyNone) by done. by rewrite Hopts.
    + pose proof (frame_deprecate_step (same_option_warnings key)
                (negb (simulator (_configuration (self w)))) (circuits a) w) as Hwarn.
      rewrite Hdep in Hwarn. unfold same_option_warnings in Hwarn. simpl in Hwarn.
      rewrite option_warnings_add, (unrecognized_count_in _ _ _ key PyNone) by done.
      simpl. lia.
Qed.
End RunConfig.

(** ** The pass over the deprecated 'id' instruction *)

Section Deprecation.
Context `{Ext : Externals} `{Client : !AccountClient}.

Lemma datum_evolves_refl d : datum_evolves d d.
Proof. by left. Qed.

Lemma datum_evolves_trans d1 d2 d3 :
  datum_evolves d1 d2 -> datum_evolves d2 d3 -> datum_evolves d1 d3.
Proof.
  intros [->|(Hid & Hname & Hq & Hc)] H23; [done|].
  destruct H23 as [->|(Hid' & _)]; [by right|].
  unfold is_id in Hid'. by rewrite Hname in Hid'.
Qed.

Global Instance circuit_evolves_preorder : PreOrder circuit_evolves.
Proof.
  split.
  - intros [data|s]; simpl; [|done].
    apply Forall2_same_length_lookup. split; [done|].
    intros i x y Hx Hy. rewrite Hx in Hy. injection Hy as <-. apply datum_evolves_refl.
  - intros [d1|s1] [d2|s2] [d3|s3]; simpl; try done; [|congruence].
    revert d2 d3. induction d1 as [|x d1 IH]; intros d2 d3 H12 H23.
    + apply Forall2_nil_inv_l in H12 as ->. by apply Forall2_nil_inv_l in H23 as ->.
    + apply Forall2_cons_inv_l in H12 as (y & d2' & Hxy & H12 & ->).
      apply Forall2_cons_inv_l in H23 as (z & d3' & Hyz & H23 & ->).
      constructor; [by eapply datum_evolves_trans|by eapply IH].
Qed.

Global Instance store_evolves_preorder : PreOrder store_evolves.
Proof.
  split.
  - intros w r. reflexivity.
  - intros w1 w2 w3 H12 H23 r. etransitivity; [apply H12|apply H23].
Qed.

(** A circuit without 'id' stays so. *)
Lemma no_id_evolves c c' : circuit_evolves c c' -> no_id c -> no_id c'.
Proof.
  destruct c as [data|s], c' as [data'|s']; simpl; try done.
  intros Hev. induction Hev as [|d d' data data' Hd Hev IH]; [done|].
  simpl. intros Hno. apply orb_false_iff in Hno as [Hd0 Hrest].
  apply orb_false_iff. split; [|by apply IH].
  destruct Hd as [->|(Hid & _)]; congruence.
Qed.

(** One step of the inner loop: only position [idx] of circuit [r] may
    change; it evolves, and holds no 'id' when the step returns. *)
Lemma replace_id_at_spec r dt_in_s d pre post w :
  store w r = QuantumCircuit (pre ++ d :: post) ->
  let res := replace_id_at r dt_in_s (length pre) d w in
  (forall r', r' <> r -> store res.2 r' = store w r') /\
  exists d',
    store res.2 r = QuantumCircuit (pre ++ d' :: post) /\
    datum_evolves d d' /\
    (res.1 = Return tt -> is_id d' = false).
Proof.
  intros Hr. cbv zeta.
  remember (replace_id_at r dt_in_s (length pre) d w) as res eqn:Hres.
  assert (Hkeep : forall e w1, store w1 = store w -> res = (e, w1) ->
            (e = Return tt -> is_id d = false) ->
            (forall r', r' <> r -> store res.2 r' = store w r') /\
            exists d', store res.2 r = QuantumCircuit (pre ++ d' :: post) /\
                       datum_evolves d d' /\ (res.1 = Return tt -> is_id d' = false)).
  { intros e w1 Hw1 -> He. simpl. rewrite Hw1. split; [done|].
    exists d. split; [done|]. split; [apply datum_evolves_refl|done]. }
  unfold replace_id_at in Hres.
  destruct (is_id d) eqn:Hid; [|by eapply Hkeep].
  unfold bind in Hres.
  pose proof (frame_properties_ same_store (PyBool false) PyNone w) as Hstore.
  unfold same_store in Hstore.
  destruct (properties_ (PyBool false) PyNone w) as [[[props|]|e] w1];
    simpl in Hstore; [|by eapply Hkeep..].
  destruct (d.1.2) as [|q qs] eqn:Hq; [by eapply Hkeep|].
  destruct (gate_length props "sx" (index q)) as [sx|]; [|by eapply Hkeep].
  clear Hkeep. subst res. unfold modify. simpl. rewrite Hstore. split.
  - intros r' Hne. by rewrite fn_lookup_alter_ne.
  - eexists. rewrite fn_lookup_alter, Hr. simpl.
    rewrite insert_app_r_alt, Nat.sub_diag by lia. simpl.
    split; [reflexivity|]. split; [|done].
    right. by rewrite Hq.
Qed.

(** The inner loop, entered at position [length pre] of circuit [r]. *)
Lemma replace_ids_spec r dt_in_s items pre w :
  store w r = QuantumCircuit (pre ++ items) ->
  let res := replace_ids r dt_in_s (length pre) items w in
  (forall r', r' <> r -> store res.2 r' = store w r') /\
  exists items',
    store res.2 r = QuantumCircuit (pre ++ items') /\
    Forall2 datum_evolves items items' /\
    (res.1 = Return tt -> existsb is_id items' = false).
Proof.
  revert pre w. induction items as [|d rest IH]; intros pre w Hr; simpl.
  { split; [done|]. exists []. by repeat split. }
  destruct (replace_id_at_spec r dt_in_s d pre rest w Hr)
    as (Hother & d' & Hr1 & Hev & Hno).
  unfold bind.
  destruct (replace_id_at r dt_in_s (length pre) d w) as [[[]|e] w1]; simpl in *.
  - assert (Hr1' : store w1 r = QuantumCircuit ((pre ++ [d']) ++ rest)).
    { by rewrite <- app_assoc. }
    destruct (IH (pre ++ [d']) w1 Hr1') as (Hother' & items' & Hr2 & Hev' & Hno').
    rewrite length_app, Nat.add_1_r in Hother', Hr2, Hno'. simpl in *.
    split.
    + intros r' Hne. rewrite Hother' by done. by apply Hother.
    + exists (d' :: items'). rewrite <- app_assoc in Hr2. repeat split; try done.
      * by constructor.
      * intros Hres. simpl. rewrite Hno by done. by apply Hno'.
  - split; [done|]. exists (d' :: rest). repeat split; try done.
    constructor; [done|]. apply (reflexivity (R := circuit_evolves) (QuantumCircuit rest)).
Qed.

(** The outer loop. *)
Lemma replace_in_circuits_spec dt_in_s cs w :
  let res := replace_in_circuits dt_in_s cs w in
  store_evolves w res.2 /\
  (res.1 = Return tt -> forall r, r ∈ cs -> no_id (store res.2 r)).
Proof.
  revert w. induction cs as [|r rest IH]; intros w; simpl.
  { split; [reflexivity|]. intros _ r Hr. by apply elem_of_nil in Hr. }
  unfold bind at 1. unfold gets at 1. simpl.
  assert (Hstep : forall m : M unit,
    store_evolves w (m w).2 -> ((m w).1 = Return tt -> no_id (store (m w).2 r)) ->
    store_evolves w (bind m (fun _ => replace_in_circuits dt_in_s rest) w).2 /\
    ((bind m (fun _ => replace_in_circuits dt_in_s rest) w).1 = Return tt ->
     forall r', r' ∈ r :: rest ->
       no_id (store (bind m (fun _ => replace_in_circuits dt_in_s rest) w).2 r'))).
  { intros m Hev1 Hno1. unfold bind.
    destruct (m w) as [[[]|e] w1]; simpl in *; [|by split].
    destruct (IH w1) as [Hev2 Hno2].
    split; [by etransitivity|].
    intros Hres r' Hin. apply elem_of_cons in Hin as [->|Hin]; [|by apply Hno2].
    eapply no_id_evolves; [apply Hev2|by apply Hno1]. }
  apply Hstep; clear Hstep.
  - destruct (store w r) as [data|s] eqn:Hr; simpl; [|reflexivity].
    destruct (replace_ids_spec r dt_in_s data [] w Hr)
      as (Hother & items' & Hr1 & Hev & Hno). simpl in *.
    intros r'. destruct (decide (r' = r)) as [->|Hne].
    + by rewrite Hr, Hr1.
    + rewrite Hother by done. reflexivity.
  - destruct (store w r) as [data|s] eqn:Hr; simpl; [|by rewrite Hr].
    destruct (replace_ids_spec r dt_in_s data [] w Hr)
      as (Hother & items' & Hr1 & Hev & Hno). simpl in *.
    intros Hres. rewrite Hr1. by apply Hno.
Qed.

Lemma circuit_has_id_false (s : loc -> circuit_obj) cs :
  circuit_has_id s cs = false -> forall r, r ∈ cs -> no_id (s r).
Proof.
  induction cs as [|r0 rest IH]; intros Hhas r Hin.
  - by apply elem_of_nil in Hin.
  - simpl in Hhas. apply orb_false_iff in Hhas as [H0 Hrest].
    apply elem_of_cons in Hin as [->|Hin]; [|by apply IH].
    unfold no_id. by destruct (s r0).
Qed.

Lemma same_store_evolves (w w' : World) : store w' = store w -> store_evolves w w'.
Proof. intros H r. rewrite H. reflexivity. Qed.

(** [_deprecate_id_instruction]: the circuits only evolve, and when the
    pass returns on a backend that supports 'delay', no circuit it was
    given holds an 'id'. *)
Lemma deprecate_id_instruction_spec cs w :
  let res := _deprecate_id_instruction cs w in
  store_evolves w res.2 /\
  (res.1 = Return tt ->
   str_in "delay" (default [] (supported_instructions (_configuration (self w)))) = true ->
   forall r, r ∈ as_list cs -> no_id (store res.2 r)).
Proof.
  cbv zeta. remember (_deprecate_id_instruction cs w) as res eqn:Hres.
  unfold _deprecate_id_instruction in Hres.
  unfold bind at 1, configuration at 1, gets at 1 in Hres. simpl in Hres.
  destruct (str_in "delay" _) eqn:Hdelay; simpl in Hres.
  2:{ subst res. split; [reflexivity|done]. }
  unfold bind at 1, gets at 1 in Hres. simpl in Hres.
  destruct (circuit_has_id (store w) (as_list cs)) eqn:Hhas; simpl in Hres.
  2:{ subst res. split; [reflexivity|]. intros _ _. by apply circuit_has_id_false. }
  unfold bind at 1, gets at 1 in Hres. simpl in Hres.
  unfold bind at 1 in Hres.
  set (block := if negb (id_warning_issued (self w)) then _ else _) in Hres.
  assert (Hblock : exists w2, block w = (Return tt, w2) /\ store w2 = store w /\
                     _configuration (self w2) = _configuration (self w)).
  { unfold block. destruct (id_warning_issued (self w)); simpl.
    - by exists w.
    - destruct (str_in "id" _ && true); by eexists. }
  destruct Hblock as (w2 & Hb & Hstore & Hcfg). clearbody block.
  rewrite Hb in Hres.
  unfold bind, configuration, gets in Hres. simpl in Hres. rewrite Hcfg in Hres.
  destruct (dt (_configuration (self w))) as [dt_in_s|]; simpl in Hres.
  2:{ subst res. split; [by apply same_store_evolves|done]. }
  destruct (replace_in_circuits_spec dt_in_s (as_list cs) w2) as [Hev Hno].
  rewrite <- Hres in Hev, Hno.
  split.
  - etransitivity; [by apply same_store_evolves|done].
  - intros Hr _. by apply Hno.
Qed.

(** A circuit that evolved and holds no 'id': every 'id' it had is now a
    'delay' on the same qubits and clbits, every other item is as it
    was. *)
Lemma evolved_without_id data data' :
  circuit_evolves (QuantumCircuit data) (QuantumCircuit data') ->
  no_id (QuantumCircuit data') ->
  Forall2 (fun d d' =>
             if is_id d
             then name d'.1.1 = "delay" /\ d'.1.2 = d.1.2 /\ d'.2 = d.2
             else d' = d) data data'.
Proof.
  simpl. intros Hev. induction Hev as [|d d' data data' Hd Hev IH]; [done|].
  simpl. intros Hno. apply orb_false_iff in Hno as [Hd' Hrest].
  constructor; [|by apply IH].
  destruct Hd as [->|(Hid & Hname & Hq & Hc)].
  - by rewrite Hd'.
  - by rewrite Hid.
Qed.

(** *** When the pass completes *)

Lemma cached_properties_answer p w :
  cached p w -> properties_ (PyBool false) PyNone w = (Return (Some p), w).
Proof.
  intros [Hcls Hp]. unfold properties_. unfold bind, gets. simpl. rewrite Hcls.
  unfold IBMBackend_properties. simpl. unfold bind, gets. simpl. rewrite Hp. simpl.
  by rewrite Hp.
Qed.

Lemma replace_id_at_completes p r dt_in_s idx d w :
  cached p w -> replaceable p d ->
  (replace_id_at r dt_in_s idx d w).1 = Return tt /\
  cached p (replace_id_at r dt_in_s idx d w).2.
Proof.
  intros Hc Hd. unfold replace_id_at.
  destruct (is_id d) eqn:Hid; [|done].
  destruct (Hd Hid) as (q & qs & sx & Hq & Hsx).
  unfold bind. rewrite (cached_properties_answer p w Hc), Hq, Hsx. done.
Qed.

Lemma replace_ids_completes p r dt_in_s items idx w :
  cached p w -> Forall (replaceable p) items ->
  (replace_ids r dt_in_s idx items w).1 = Return tt /\
  cached p (replace_ids r dt_in_s idx items w).2.
Proof.
  revert idx w. induction items as [|d rest IH]; intros idx w Hc Hall; simpl; [done|].
  inversion Hall as [|? ? Hd Hrest]; subst.
  destruct (replace_id_at_completes p r dt_in_s idx d w Hc Hd) as [Hres Hc1].
  unfold bind. destruct (replace_id_at r dt_in_s idx d w) as [[[]|e] w1];
    simpl in *; [|done].
  by apply IH.
Qed.

Lemma replaceable_evolves p c c' :
  circuit_evolves c c' -> replaceable_circuit p c -> replaceable_circuit p c'.
Proof.
  destruct c as [data|s], c' as [data'|s']; simpl; try done.
  intros Hev. induction Hev as [|d d' data data' Hd Hev IH]; [done|].
  intros Hall. inversion Hall as [|? ? Hd0 Hrest]; subst.
  constructor; [|by apply IH].
  destruct Hd as [->|(_ & Hname & _)]; [done|].
  intros Hid. unfold is_id in Hid. by rewrite Hname in Hid.
Qed.

Lemma replace_in_circuits_completes p dt_in_s cs w :
  cached p w ->
  (forall r, r ∈ cs -> replaceable_circuit p (store w r)) ->
  (replace_in_circuits dt_in_s cs w).1 = Return tt.
Proof.
  revert w. induction cs as [|r rest IH]; intros w Hc Hall; simpl; [done|].
  unfold bind at 1. unfold gets at 1. simpl.
  assert (Hstep : forall m : M unit,
    (m w).1 = Return tt -> cached p (m w).2 -> store_evolves w (m w).2 ->
    (bind m (fun _ => replace_in_circuits dt_in_s rest) w).1 = Return tt).
  { intros m Hres Hc1 Hev. unfold bind.
    destruct (m w) as [[[]|e] w1]; simpl in *; [|done].
    apply IH; [done|]. intros r' Hr'.
    eapply replaceable_evolves; [apply Hev|]. apply Hall. by right. }
  pose proof (Hall r ltac:(by left)) as Hr.
  apply Hstep; clear Hstep; destruct (store w r) as [data|s] eqn:Hsr; simpl in *;
    try done; try reflexivity.
  - by apply (replace_ids_completes p).
  - by apply (replace_ids_completes p).
  - destruct (replace_ids_spec r dt_in_s data [] w Hsr)
      as (Hother & items' & Hr1 & Hev & _). simpl in *.
    intros r'. destruct (decide (r' = r)) as [->|Hne].
    + by rewrite Hsr, Hr1.
    + rewrite Hother by done. reflexivity.
Qed.

(** X2. The pass completes when the configuration has [dt], the properties
    are cached, and they know the length of 'sx' on the qubit of every
    'id'. *)
Lemma deprecate_id_instruction_completes p cs w :
  cached p w ->
  is_Some (dt (_configuration (self w))) ->
  (forall r, r ∈ as_list cs -> replaceable_circuit p (store w r)) ->
  (_deprecate_id_instruction cs w).1 = Return tt.
Proof.
  intros Hc [dt_in_s Hdt] Hall.
  unfold _deprecate_id_instruction.
  unfold bind at 1, configuration at 1, gets at 1. simpl.
  destruct (str_in "delay" _); simpl; [|done].
  unfold bind at 1, gets at 1. simpl.
  destruct (circuit_has_id (store w) (as_list cs)); simpl; [|done].
  unfold bind at 1, gets at 1. simpl.
  unfold bind at 1.
  set (block := if negb (id_warning_issued (self w)) then _ else _).
  assert (Hblock : exists w2, block w = (Return tt, w2) /\ store w2 = store w /\
                     _configuration (self w2) = _configuration (self w) /\
                     cached p w2).
  { unfold block. destruct (id_warning_issued (self w)); simpl.
    - by exists w.
    - destruct (str_in "id" _ && true); by eexists. }
  destruct Hblock as (w2 & Hb & Hstore & Hcfg & Hc2). clearbody block.
  rewrite Hb. unfold bind, configuration, gets. simpl. rewrite Hcfg, Hdt.
  apply (replace_in_circuits_completes p); [done|].
  intros r Hr. rewrite Hstore. by apply Hall.
Qed.
End Deprecation.

(** ** What each method writes *)

(** A part outside a footprint written out. *)
Ltac footprint_notin :=
  let Hin := fresh "Hin" in
  intros Hin;
  repeat (apply elem_of_cons in Hin as [Hin|Hin]; [done|]);
  by apply elem_of_nil in Hin.

Section FootprintLemmas.
Context `{Ext : Externals} `{Client : !AccountClient}.

Lemma keeps_refl p (w : World) : keeps p w w.
Proof. by destruct p. Qed.

Lemma keeps_trans p (w1 w2 w3 : World) : keeps p w1 w2 -> keeps p w2 w3 -> keeps p w1 w3.
Proof. destruct p; simpl; congruence. Qed.

Global Instance writes_only_preorder ps : PreOrder (writes_only ps).
Proof.
  split.
  - intros w. split; [by repeat split|]. intros p _. apply keeps_refl.
  - intros w1 w2 w3 [Ha1 Hk1] [Ha2 Hk2]. split.
    + unfold same_attributes in *.
      destruct Ha1 as (?&?&?&?&?&?&?), Ha2 as (?&?&?&?&?&?&?).
      repeat split; congruence.
    + intros p Hp. eapply keeps_trans; [by apply Hk1|by apply Hk2].
Qed.

Lemma writes_only_mono ps ps' (w w' : World) :
  ps ⊆ ps' -> writes_only ps w w' -> writes_only ps' w w'.
Proof.
  intros Hsub [Ha Hk]. split; [done|].
  intros p Hp. apply Hk. intros Hin. apply Hp. by apply Hsub.
Qed.

Lemma frame_writes_only_mono {A} ps ps' (m : M A) :
  frame (writes_only ps) m -> ps ⊆ ps' -> frame (writes_only ps') m.
Proof. intros Hm Hsub w. eapply writes_only_mono; [done|apply Hm]. Qed.

End FootprintLemmas.

(** A write stays within the footprint. *)
Ltac footprint :=
  intros; split;
  [ by repeat split
  | let p := fresh "p" in let Hp := fresh "Hp" in
    intros p Hp; destruct p; try done;
    exfalso; apply Hp; repeat constructor ].

Ltac footprints := repeat (first [frame_step | footprint]).

(** An inclusion between two footprints written out. *)
Ltac footprint_incl :=
  let p := fresh "p" in let Hp := fresh "Hp" in
  intros p Hp;
  repeat (apply elem_of_cons in Hp as [->|Hp]; [repeat constructor|]);
  by apply elem_of_nil in Hp.

Ltac within lem := eapply frame_writes_only_mono; [apply lem|footprint_incl].

Section MethodFootprints.
Context `{Ext : Externals} `{Client : !AccountClient}.

Lemma api_writes c : frame (writes_only [Calls]) (api c).
Proof. unfold api. footprints. Qed.

Lemma properties_writes refresh datetime :
  frame (writes_only [Calls; PropertiesCache]) (IBMBackend_properties refresh datetime).
Proof.
  unfold IBMBackend_properties, name_. footprints; within api_writes.
Qed.

Lemma properties__writes refresh datetime :
  frame (writes_only [Calls; PropertiesCache]) (properties_ refresh datetime).
Proof. unfold properties_. footprints; apply properties_writes. Qed.

Lemma status_writes : frame (writes_only [Calls]) IBMBackend_status.
Proof. unfold IBMBackend_status, name_. footprints; apply api_writes. Qed.

Lemma defaults_writes refresh : frame (writes_only [Calls; DefaultsCache]) (IBMBackend_defaults refresh).
Proof. unfold IBMBackend_defaults, name_. footprints; within api_writes. Qed.

Lemma job_limit_writes : frame (writes_only [Calls]) IBMBackend_job_limit.
Proof. unfold IBMBackend_job_limit, name_. footprints; apply api_writes. Qed.

Lemma remaining_jobs_count_writes : frame (writes_only [Calls]) IBMBackend_remaining_jobs_count.
Proof. unfold IBMBackend_remaining_jobs_count. footprints; apply job_limit_writes. Qed.

Lemma active_jobs_writes limit : frame (writes_only [Calls]) (IBMBackend_active_jobs limit).
Proof. unfold IBMBackend_active_jobs. footprints. Qed.

Lemma reservations_writes s e : frame (writes_only [Calls]) (IBMBackend_reservations s e).
Proof. unfold IBMBackend_reservations, name_. footprints; apply api_writes. Qed.

Lemma submit_job_writes qobj jn jt cid lde :
  frame (writes_only [Calls; Events]) (_submit_job qobj jn jt cid lde).
Proof. unfold _submit_job, name_, publish. footprints. Qed.

Lemma run_validate_writes a : frame (writes_only []) (run_validate a).
Proof. unfold run_validate, configuration. footprints. Qed.

Lemma run_dispatch_writes a d : frame (writes_only [Calls; Events]) (run_dispatch a d).
Proof. unfold run_dispatch, configuration. footprints; apply submit_job_writes. Qed.

Lemma replace_id_at_writes r dt_in_s idx d :
  frame (writes_only [Calls; PropertiesCache; Circuits]) (replace_id_at r dt_in_s idx d).
Proof. unfold replace_id_at. footprints; within properties__writes. Qed.

Lemma replace_ids_writes r dt_in_s idx items :
  frame (writes_only [Calls; PropertiesCache; Circuits]) (replace_ids r dt_in_s idx items).
Proof.
  revert idx. induction items as [|d rest IH]; intros idx; simpl; footprints.
  - apply replace_id_at_writes.
  - apply IH.
Qed.

Lemma replace_in_circuits_writes dt_in_s cs :
  frame (writes_only [Calls; PropertiesCache; Circuits]) (replace_in_circuits dt_in_s cs).
Proof.
  induction cs as [|r rest IH]; simpl; footprints; try apply IH.
  apply replace_ids_writes.
Qed.

Lemma deprecate_id_instruction_writes cs :
  frame (writes_only [Calls; PropertiesCache; Circuits; Warnings; WarningFlag])
    (_deprecate_id_instruction cs).
Proof.
  unfold _deprecate_id_instruction, configuration, warn.
  footprints; within replace_in_circuits_writes.
Qed.

Lemma get_run_config_loop_writes opts sim kwargs d :
  frame (writes_only [Warnings]) (_get_run_config_loop opts sim kwargs d).
Proof.
  revert d. induction kwargs as [|[key val] rest IH]; intros d; simpl.
  - footprints.
  - destruct (is_None val); [apply IH|].
    unfold warn. footprints; apply IH.
Qed.

Lemma get_run_config_writes kwargs : frame (writes_only [Warnings]) (_get_run_config kwargs).
Proof. unfold _get_run_config. footprints. apply get_run_config_loop_writes. Qed.

Lemma run_get_config_writes a esp : frame (writes_only [Warnings]) (run_get_config a esp).
Proof. unfold run_get_config, configuration. footprints; apply get_run_config_writes. Qed.

Lemma run_prepare_writes a :
  frame (writes_only [Calls; PropertiesCache; Circuits; Warnings; WarningFlag]) (run_prepare a).
Proof.
  unfold run_prepare, configuration.
  footprints;
    first [ within run_validate_writes | apply deprecate_id_instruction_writes
          | within run_get_config_writes ].
Qed.

Lemma IBMBackend_run_writes a :
  frame (writes_only [Calls; PropertiesCache; Circuits; Warnings; WarningFlag; Events])
    (IBMBackend_run a).
Proof.
  unfold IBMBackend_run. footprints; [within run_prepare_writes|within run_dispatch_writes].
Qed.

Lemma IBMSimulator_run_writes cs jn jt bo nm kw :
  frame (writes_only [Calls; PropertiesCache; Circuits; Warnings; WarningFlag; Events])
    (IBMSimulator_run cs jn jt bo nm kw).
Proof.
  unfold IBMSimulator_run, warn. footprints; apply IBMBackend_run_writes.
Qed.

Lemma run__writes a :
  frame (writes_only [Calls; PropertiesCache; Circuits; Warnings; WarningFlag; Events]) (run_ a).
Proof.
  unfold run_, IBMRetiredBackend_run, name_.
  footprints; first [apply IBMBackend_run_writes | apply IBMSimulator_run_writes].
Qed.

End MethodFootprints.

(** ** The delay that replaces an 'id' *)

Section ExactReplacement.
Context `{Ext : Externals} `{Client : !AccountClient}.

Lemma equivalent_delay_mono (w w' : World) d d' :
  _configuration (self w') = _configuration (self w) ->
  (forall p, _properties (self w) = Some p -> _properties (self w') = Some p) ->
  equivalent_delay w d d' -> equivalent_delay w' d d'.
Proof.
  intros Hcfg Hp (p & dt_in_s & q & qs & sx & H1 & H2 & H3 & H4 & H5).
  exists p, dt_in_s, q, qs, sx. rewrite Hcfg. by repeat split; try apply Hp.
Qed.

Lemma equivalent_delay_not_id (w : World) d d' : equivalent_delay w d d' -> is_id d' = false.
Proof. by intros (p & dt_in_s & q & qs & sx & _ & _ & _ & _ & ->). Qed.

Lemma datum_replaced_mono (w w' : World) d d' :
  _configuration (self w') = _configuration (self w) ->
  (forall p, _properties (self w) = Some p -> _properties (self w') = Some p) ->
  datum_replaced w d d' -> datum_replaced w' d d'.
Proof.
  intros Hcfg Hp [->|[Hid Hd]]; [by left|right].
  split; [done|]. by eapply equivalent_delay_mono.
Qed.

Lemma datum_replaced_trans (w : World) d1 d2 d3 :
  datum_replaced w d1 d2 -> datum_replaced w d2 d3 -> datum_replaced w d1 d3.
Proof.
  intros [->|[Hid Hd]] H23; [done|].
  destruct H23 as [->|[Hid' _]]; [by right|].
  apply equivalent_delay_not_id in Hd. congruence.
Qed.

Lemma circuit_replaced_refl (w : World) c : circuit_replaced w c c.
Proof.
  destruct c as [data|s]; simpl; [|done].
  apply Forall2_same_length_lookup. split; [done|].
  intros i x y Hx Hy. rewrite Hx in Hy. injection Hy as <-. by left.
Qed.

Lemma circuit_replaced_mono (w w' : World) c c' :
  _configuration (self w') = _configuration (self w) ->
  (forall p, _properties (self w) = Some p -> _properties (self w') = Some p) ->
  circuit_replaced w c c' -> circuit_replaced w' c c'.
Proof.
  intros Hcfg Hp. destruct c as [data|s], c' as [data'|s']; simpl; try done.
  apply Forall2_impl. intros d d'. by apply datum_replaced_mono.
Qed.

Lemma circuit_replaced_trans (w : World) c1 c2 c3 :
  circuit_replaced w c1 c2 -> circuit_replaced w c2 c3 -> circuit_replaced w c1 c3.
Proof.
  destruct c1 as [d1|s1], c2 as [d2|s2], c3 as [d3|s3]; simpl; try done; [|congruence].
  revert d2 d3. induction d1 as [|x d1 IH]; intros d2 d3 H12 H23.
  - apply Forall2_nil_inv_l in H12 as ->. by apply Forall2_nil_inv_l in H23 as ->.
  - apply Forall2_cons_inv_l in H12 as (y & d2' & Hxy & H12 & ->).
    apply Forall2_cons_inv_l in H23 as (z & d3' & Hyz & H23 & ->).
    constructor; [by eapply datum_replaced_trans|by eapply IH].
Qed.

Global Instance replaces_preorder : PreOrder replaces.
Proof.
  split.
  - intros w. split; [done|]. split; [done|]. intros r. apply circuit_replaced_refl.
  - intros w1 w2 w3 (Hc1 & Hp1 & Hs1) (Hc2 & Hp2 & Hs2).
    split; [congruence|]. split; [by auto|].
    intros r. eapply circuit_replaced_trans; [|apply Hs2].
    eapply circuit_replaced_mono; [exact Hc2|exact Hp2|apply Hs1].
Qed.

(** A step that keeps the configuration, the cache and the circuits. *)
Lemma still_replaces (w w' : World) :
  _configuration (self w') = _configuration (self w) ->
  _properties (self w') = _properties (self w) ->
  store w' = store w ->
  replaces w w'.
Proof.
  intros Hcfg Hp Hs. split; [done|]. split; [by rewrite Hp|].
  intros r. rewrite Hs. apply circuit_replaced_refl.
Qed.

(** [properties()] as the pass calls it: what it returns is what the
    backend then holds, and what the backend held it still holds. *)
Lemma properties_replaces w :
  let res := properties_ (PyBool false) PyNone w in
  replaces w res.2 /\
  (forall p, res.1 = Return (Some p) -> _properties (self res.2) = Some p).
Proof.
  cbv zeta. unfold properties_, bind, gets. simpl.
  destruct (cls (self w)); simpl; [|by split; [reflexivity|]..].
  unfold IBMBackend_properties. run_monad.
  destruct (_properties (self w)) as [p|] eqn:Hp; simpl.
  { rewrite ?Hp. split; [reflexivity|]. by intros ? [= <-]. }
  destruct (reply _ _) as [e|v]; simpl.
  { split; [by apply still_replaces|done]. }
  destruct (truthy v); simpl.
  2:{ split; [by apply still_replaces|done]. }
  destruct (BackendProperties_from_dict _) as [e|bp]; simpl.
  { split; [by apply still_replaces|done]. }
  split; [|by intros ? [= <-]].
  split; [done|]. split; [by rewrite Hp|]. intros r. apply circuit_replaced_refl.
Qed.

(** One step of the inner loop. *)
Lemma datum_replaced_refl_all (w : World) data : Forall2 (datum_replaced w) data data.
Proof. apply (circuit_replaced_refl w (QuantumCircuit data)). Qed.

Lemma replace_id_at_replaces r dt_in_s d pre post w :
  store w r = QuantumCircuit (pre ++ d :: post) ->
  dt (_configuration (self w)) = Some dt_in_s ->
  replaces w (replace_id_at r dt_in_s (length pre) d w).2.
Proof.
  intros Hr Hdt. unfold replace_id_at.
  destruct (is_id d) eqn:Hid; [|reflexivity].
  unfold bind.
  destruct (properties_replaces w) as [Hrep Hcache].
  pose proof (frame_properties_ same_store (PyBool false) PyNone w) as Hstore.
  unfold same_store in Hstore.
  destruct (properties_ (PyBool false) PyNone w) as [[[props|]|e] w1];
    simpl in *; [|done..].
  destruct (d.1.2) as [|q qs] eqn:Hq; [done|].
  destruct (gate_length props "sx" (index q)) as [sx|] eqn:Hsx; [|done].
  etransitivity; [exact Hrep|].
  destruct Hrep as (Hcfg & _ & _).
  unfold modify. simpl.
  split; [done|]. split; [done|]. intros r'. simpl.
  destruct (decide (r' = r)) as [->|Hne].
  - rewrite fn_lookup_alter, Hstore, Hr. simpl.
    rewrite insert_app_r_alt, Nat.sub_diag by lia. simpl.
    apply Forall2_app; [apply datum_replaced_refl_all|].
    constructor; [|apply datum_replaced_refl_all].
    right. split; [done|].
    exists props, dt_in_s, q, qs, sx. simpl. rewrite Hcfg, Hq.
    split; [by apply Hcache|]. by repeat split.
  - rewrite fn_lookup_alter_ne by done. apply circuit_replaced_refl.
Qed.

(** The inner loop, entered at position [length pre] of circuit [r]. *)
Lemma replace_ids_replaces r dt_in_s items pre w :
  store w r = QuantumCircuit (pre ++ items) ->
  dt (_configuration (self w)) = Some dt_in_s ->
  replaces w (replace_ids r dt_in_s (length pre) items w).2.
Proof.
  revert pre w. induction items as [|d rest IH]; intros pre w Hr Hdt; simpl.
  { reflexivity. }
  destruct (replace_id_at_spec r dt_in_s d pre rest w Hr) as (_ & d' & Hr1 & _).
  pose proof (replace_id_at_replaces r dt_in_s d pre rest w Hr Hdt) as Hrep.
  unfold bind.
  destruct (replace_id_at r dt_in_s (length pre) d w) as [[[]|e] w1]; simpl in *; [|done].
  etransitivity; [exact Hrep|].
  assert (Hr1' : store w1 r = QuantumCircuit ((pre ++ [d']) ++ rest)).
  { by rewrite <- app_assoc. }
  destruct Hrep as (Hcfg & _).
  specialize (IH (pre ++ [d']) w1 Hr1'). rewrite length_app, Nat.add_1_r in IH.
  apply IH. by rewrite Hcfg.
Qed.

(** The outer loop: the circuits are replaced, those not in the list are
    not touched. *)
Lemma replace_in_circuits_replaces dt_in_s cs w :
  dt (_configuration (self w)) = Some dt_in_s ->
  let res := replace_in_circuits dt_in_s cs w in
  replaces w res.2 /\ forall r, r ∉ cs -> store res.2 r = store w r.
Proof.
  revert w. induction cs as [|r rest IH]; intros w Hdt; cbv zeta.
  { simpl. split; [reflexivity|done]. }
  remember (replace_in_circuits dt_in_s (r :: rest) w) as res eqn:Hres.
  simpl in Hres. unfold bind at 1 in Hres. unfold gets at 1 in Hres. simpl in Hres.
  set (m := match store w r with
            | QuantumCircuit data => replace_ids r dt_in_s 0 data
            | Schedule _ => ret tt
            end) in Hres.
  assert (Hm : replaces w (m w).2 /\ forall r', r' <> r -> store (m w).2 r' = store w r').
  { unfold m. destruct (store w r) as [data|s] eqn:Hr; simpl; [|by split; [reflexivity|]].
    split; [by apply (replace_ids_replaces r dt_in_s data [] w)|].
    by destruct (replace_ids_spec r dt_in_s data [] w Hr) as (Hother & _). }
  clearbody m. destruct Hm as [Hrep Hother]. unfold bind in Hres.
  destruct (m w) as [[[]|e] w1]; simpl in *; subst res; simpl.
  - pose proof Hrep as (Hcfg & _).
    destruct (IH w1) as [Hrep2 Hother2]; [by rewrite Hcfg|].
    split; [by etransitivity|].
    intros r' Hr'. apply not_elem_of_cons in Hr' as [Hne Hr'].
    rewrite Hother2 by done. by apply Hother.
  - split; [done|]. intros r' Hr'. apply not_elem_of_cons in Hr' as [Hne Hr'].
    by apply Hother.
Qed.

(** [_deprecate_id_instruction]: whether the pass returns or raises, what
    it changed in a circuit is an 'id' that became its equivalent delay,
    and a circuit it was not given is as it was. *)
Lemma deprecate_id_instruction_replaces cs w :
  let res := _deprecate_id_instruction cs w in
  replaces w res.2 /\ forall r, r ∉ as_list cs -> store res.2 r = store w r.
Proof.
  cbv zeta. remember (_deprecate_id_instruction cs w) as res eqn:Hres.
  unfold _deprecate_id_instruction in Hres.
  unfold bind at 1, configuration at 1, gets at 1 in Hres. simpl in Hres.
  destruct (str_in "delay" _) eqn:Hdelay; simpl in Hres.
  2:{ subst res. split; [reflexivity|done]. }
  unfold bind at 1, gets at 1 in Hres. simpl in Hres.
  destruct (circuit_has_id (store w) (as_list cs)) eqn:Hhas; simpl in Hres.
  2:{ subst res. split; [reflexivity|done]. }
  unfold bind at 1, gets at 1 in Hres. simpl in Hres.
  unfold bind at 1 in Hres.
  set (block := if negb (id_warning_issued (self w)) then _ else _) in Hres.
  assert (Hblock : exists w2, block w = (Return tt, w2) /\ store w2 = store w /\
                     _configuration (self w2) = _configuration (self w) /\
                     _properties (self w2) = _properties (self w)).
  { unfold block. destruct (id_warning_issued (self w)); simpl.
    - by exists w.
    - destruct (str_in "id" _ && true); by eexists. }
  destruct Hblock as (w2 & Hb & Hstore & Hcfg & Hp). clearbody block.
  rewrite Hb in Hres.
  unfold bind, configuration, gets in Hres. simpl in Hres. rewrite Hcfg in Hres.
  destruct (dt (_configuration (self w))) as [dt_in_s|] eqn:Hdt; simpl in Hres.
  2:{ subst res. simpl. split; [by apply still_replaces|by rewrite Hstore]. }
  destruct (replace_in_circuits_replaces dt_in_s (as_list cs) w2) as [Hrep Hother];
    [by rewrite Hcfg|].
  rewrite <- Hres in Hrep, Hother. split.
  - etransitivity; [by apply still_replaces|done].
  - intros r Hr. rewrite Hother by done. by rewrite Hstore.
Qed.

(** A circuit that was replaced and holds no 'id': every 'id' it had is
    now its equivalent delay, every other item is as it was. *)
Lemma replaced_without_id (w : World) data data' :
  circuit_replaced w (QuantumCircuit data) (QuantumCircuit data') ->
  no_id (QuantumCircuit data') ->
  Forall2 (fun d d' => if is_id d then equivalent_delay w d d' else d' = d) data data'.
Proof.
  simpl. intros Hev. induction Hev as [|d d' data data' Hd Hev IH]; [done|].
  simpl. intros Hno. apply orb_false_iff in Hno as [Hd' Hrest].
  constructor; [|by apply IH].
  destruct Hd as [->|[Hid Hd]].
  - by rewrite Hd'.
  - by rewrite Hid.
Qed.

(** C3, as the code has it.  Over any sequence of operations on a backend
    the deprecation warning about 'id' is emitted at most once.  A call of
    [run] on a hardware backend that supports 'delay', once it has passed
    the validation of tags and ESP readout and its replacement pass has
    completed, leaves every circuit it was given without an 'id': each
    'id' was replaced in place by its equivalent 'delay', which is on the
    same qubits and clbits and lasts as long as the 'sx' gate on the first
    qubit of the 'id', in units of the configuration's [dt] and by the
    properties that the backend holds after the call, which are those it
    held before when it held any; every other instruction is as it was
    and where it was, and a circuit that was not passed is not touched.
    A call that the validation rejects leaves the world, and so the
    circuits, untouched. *)
Theorem id_replaced_and_warned_once :
  (forall ops w, (id_warnings (exec_all ops w) <= budget w)%nat) /\
  (forall c cfg creds s ops,
     (id_warnings (exec_all ops (new_world (IBMBackend_init c cfg creds) s)) <= 1)%nat) /\
  (forall a w esp w1,
     simulator (_configuration (self w)) = false ->
     str_in "delay" (default [] (supported_instructions (_configuration (self w))))
       = true ->
     run_validate a w = (Return esp, w) ->
     _deprecate_id_instruction (circuits a) w = (Return tt, w1) ->
     let w' := (IBMBackend_run a w).2 in
     store w' = store w1 /\
     store_evolves w w' /\
     (forall r, r ∈ as_list (circuits a) -> no_id (store w' r)) /\
     (forall r, r ∈ as_list (circuits a) ->
        match store w r, store w' r with
        | QuantumCircuit data, QuantumCircuit data' =>
            Forall2 (fun d d' => if is_id d then equivalent_delay w' d d' else d' = d)
              data data'
        | Schedule s, Schedule s' => s' = s
        | _, _ => False
        end) /\
     (forall r, r ∉ as_list (circuits a) -> store w' r = store w r) /\
     (forall p, _properties (self w) = Some p -> _properties (self w') = Some p)) /\
  (forall a w e,
     (run_validate a w).1 = Raise e -> IBMBackend_run a w = (Raise e, w)).
Proof.
  assert (Hbudget : forall ops w, (id_warnings (exec_all ops w) <= budget w)%nat).
  { intros ops w.
    pose proof (frame_exec_all within_budget ops w) as H.
    unfold within_budget, budget in *. lia. }
  split; [done|]. split; [|split].
  - intros c cfg creds s ops. etransitivity; [apply Hbudget|].
    by destruct c.
  - intros a w esp w1 Hsim Hdelay Hval Hdep w'.
    assert (Hsame : store w' = store w1 /\
                    _configuration (self w') = _configuration (self w1) /\
                    _properties (self w') = _properties (self w1)).
    { subst w'. remember (IBMBackend_run a w) as res eqn:Hres.
      unfold IBMBackend_run, run_prepare in Hres.
      unfold bind at 1 in Hres. unfold bind at 1 in Hres. rewrite Hval in Hres.
      unfold bind at 1 in Hres. unfold configuration at 1, gets at 1 in Hres.
      unfold bind at 1 in Hres. rewrite Hsim in Hres. simpl in Hres.
      rewrite Hdep in Hres.
      destruct (run_get_config_writes a esp w1) as [(_ & Hcfg1 & _) Hk1].
      pose proof (Hk1 Circuits ltac:(footprint_notin)) as Hs1.
      pose proof (Hk1 PropertiesCache ltac:(footprint_notin)) as Hp1.
      destruct (run_get_config a esp w1) as [[d|e] w2]; simpl in *; [|by subst res].
      destruct (run_dispatch_writes a d w2) as [(_ & Hcfg2 & _) Hk2].
      pose proof (Hk2 Circuits ltac:(footprint_notin)) as Hs2.
      pose proof (Hk2 PropertiesCache ltac:(footprint_notin)) as Hp2.
      rewrite <- Hres in Hcfg2, Hs2, Hp2. simpl in *.
      split; [congruence|]. split; congruence. }
    destruct Hsame as (Hstore & Hcfg & Hcache).
    destruct (deprecate_id_instruction_spec (circuits a) w) as [Hev Hno].
    destruct (deprecate_id_instruction_replaces (circuits a) w) as [Hrep Hother].
    rewrite Hdep in Hev, Hno, Hrep, Hother. simpl in Hev, Hno, Hrep, Hother.
    split; [done|]. split; [|split; [|split; [|split]]].
    + intros r. rewrite Hstore. apply Hev.
    + intros r Hr. rewrite Hstore. by apply Hno.
    + intros r Hr.
      destruct Hrep as (_ & _ & Hs).
      pose proof (circuit_replaced_mono w1 w' _ _ Hcfg
                    ltac:(by intros p; rewrite Hcache) (Hs r)) as Hc.
      specialize (Hno eq_refl Hdelay r Hr).
      rewrite <- Hstore in Hc, Hno.
      destruct (store w r) as [data|s], (store w' r) as [data'|s']; try done.
      by apply replaced_without_id.
    + intros r Hr. rewrite Hstore. by apply Hother.
    + intros p Hp. rewrite Hcache. by apply Hrep.
  - intros a w e He. apply run_raises_in_validation.
    pose proof (run_validate_world a w) as Hw.
    destruct (run_validate a w) as [res w0]. simpl in *. by subst.
Qed.
End ExactReplacement.

(** ** Retired backends *)

Section Retired.
Context `{Ext : Externals} `{Client : !AccountClient}.

Lemma retired_answers w :
  cls (self w) = IBMRetiredBackend ->
  (forall a, run_ a w =
     (Raise (IBMBackendError ("This backend (" +:+ name_of w +:+ ") is no longer available.")),
      w)) /\
  (forall refresh datetime, properties_ refresh datetime w = (Return None, w)) /\
  (forall refresh, defaults_ refresh w = (Return None, w)) /\
  status_ w = (Return (_status (self w)), w) /\
  job_limit_ w = (Return None, w) /\
  remaining_jobs_count_ w = (Return None, w) /\
  (forall limit, active_jobs_ limit w = (Return None, w)) /\
  (forall s e, reservations_ s e w = (Return [], w)).
Proof.
  intros H.
  unfold run_, properties_, status_, defaults_, job_limit_, remaining_jobs_count_,
    reservations_, active_jobs_, IBMRetiredBackend_run, bind, gets, name_, raise.
  cbv beta iota. rewrite H. by repeat split.
Qed.

Lemma retired_exec o w : cls (self w) = IBMRetiredBackend -> exec o w = w.
Proof.
  intros H.
  destruct (retired_answers w H) as (Hrun & Hp & Hd & Hs & Hj & Hr & Ha & Hres).
  destruct o; unfold exec;
    by rewrite ?Hrun, ?Hp, ?Hd, ?Hs, ?Hj, ?Hr, ?Ha, ?Hres.
Qed.

Lemma retired_exec_all ops w : cls (self w) = IBMRetiredBackend -> exec_all ops w = w.
Proof.
  revert w. induction ops as [|o ops IH]; intros w H; [done|].
  simpl. rewrite (retired_exec o w H). by apply IH.
Qed.

(** X3. A retired backend is inert: no sequence of operations changes
    anything (no call on the client, no warning, no event, no write), [run]
    raises [IBMBackendError] with the backend's name, [status] answers the
    status set by the constructor, [reservations] the empty list and the
    other accessors [None], whatever their arguments. *)
Theorem retired_backend_is_inert w :
  cls (self w) = IBMRetiredBackend ->
  (forall ops, exec_all ops w = w) /\
  (forall a, run_ a w =
     (Raise (IBMBackendError ("This backend (" +:+ name_of w +:+ ") is no longer available.")),
      w)) /\
  (forall refresh datetime, properties_ refresh datetime w = (Return None, w)) /\
  (forall refresh, defaults_ refresh w = (Return None, w)) /\
  status_ w = (Return (_status (self w)), w) /\
  job_limit_ w = (Return None, w) /\
  remaining_jobs_count_ w = (Return None, w) /\
  (forall limit, active_jobs_ limit w = (Return None, w)) /\
  (forall s e, reservations_ s e w = (Return [], w)).
Proof.
  intros H. split; [intros ops; by apply retired_exec_all|].
  by apply retired_answers.
Qed.

(** X4. A backend built by [IBMRetiredBackend.from_name(name, ...)]: after any
    sequence of operations it is still the object that was built, its name
    is [name], [status] reports version '0.0.0', not operational, no
    pending job, and [run] raises an error that names it. *)
Theorem from_name_backend n creds s ops :
  let w0 := new_world (IBMRetiredBackend_from_name n creds) s in
  let w := exec_all ops w0 in
  w = w0 /\
  name_of w = n /\
  status_ w =
    (Return (Some (mkBackendStatus n "0.0.0" false 0 "This backend is no longer available.")),
     w) /\
  (forall a, run_ a w =
     (Raise (IBMBackendError ("This backend (" +:+ n +:+ ") is no longer available.")), w)) /\
  __repr__ w =
    (Return ("<IBMRetiredBackend('" +:+ n +:+ "') from IBMProvider(" +:+
             (if truthy creds.1.1
              then "hub='" +:+ py_str creds.1.1 +:+ "', group='" +:+ py_str creds.1.2
                     +:+ "', project='" +:+ py_str creds.2 +:+ "'"
              else "") +:+ ")>"), w).
Proof.
  intros w0 w.
  assert (Hw : w = w0) by (by apply retired_exec_all).
  rewrite Hw. split; [done|]. split; [done|].
  destruct (retired_answers w0 eq_refl) as (Hrun & _ & _ & Hstatus & _).
  split; [done|]. split; [done|]. reflexivity.
Qed.
End Retired.

(** ** The two caches *)

Section Caches.
Context `{Ext : Externals} `{Client : !AccountClient}.

(** X5. [defaults]: a call with a filled cache and no [refresh] is answered
    from the cache and changes nothing; whatever a call returns is what
    the cache holds afterwards; an empty answer of the server clears the
    cache, also on a refresh of a filled cache; and a call that raises
    leaves the cache as it was. *)
Theorem defaults_cache refresh w :
  let r := IBMBackend_defaults refresh w in
  (forall d, _defaults (self w) = Some d -> truthy refresh = false ->
     r = (Return (Some d), w)) /\
  (forall x, r.1 = Return x -> _defaults (self r.2) = x) /\
  (forall v,
     truthy refresh = true \/ _defaults (self w) = None ->
     reply (api_log w) (backend_pulse_defaults (name_of w)) = inr v ->
     truthy v = false ->
     r.1 = Return None /\ _defaults (self r.2) = None) /\
  (forall e, r.1 = Raise e -> _defaults (self r.2) = _defaults (self w)).
Proof.
  cbv zeta. unfold IBMBackend_defaults. run_monad.
  split; [|split; [|split]].
  - intros d Hd Hr. rewrite Hd, Hr. simpl. by rewrite Hd.
  - intros x. repeat case_match; simplify_eq/=; by intros [= <-].
  - intros v Hcond Hreply Hv.
    assert (Hc : truthy refresh || opt_is_None (_defaults (self w)) = true).
    { destruct Hcond as [-> | ->]; [done|]. by rewrite orb_true_r. }
    by rewrite Hc, Hreply, Hv.
  - intros e. repeat case_match; simplify_eq/=; done.
Qed.

(** X6. [properties]: an argument of the wrong type is rejected with
    [TypeError] before anything is done; without a [datetime], the
    properties that a call returns are the ones the cache holds
    afterwards, so that the next plain call returns them again and
    changes nothing; an empty answer of the server gives [None] and
    leaves the cache as it was, as does a call that raises. *)
Theorem properties_arguments_and_answers refresh datetime w :
  let r := IBMBackend_properties refresh datetime w in
  (isinstance_bool refresh = false -> exists msg, r = (Raise (TypeError msg), w)) /\
  (truthy datetime = true -> isinstance_datetime datetime = false ->
     exists msg, r = (Raise (TypeError msg), w)) /\
  (forall p, truthy datetime = false -> r.1 = Return (Some p) ->
     _properties (self r.2) = Some p /\
     IBMBackend_properties (PyBool false) PyNone r.2 = (Return (Some p), r.2)) /\
  (r.1 = Return None -> _properties (self r.2) = _properties (self w)) /\
  (forall e, r.1 = Raise e -> _properties (self r.2) = _properties (self w)).
Proof.
  cbv zeta. split; [|split; [|split; [|split]]].
  - intros Hb. unfold IBMBackend_properties. rewrite Hb. by eexists.
  - intros Ht Hd. unfold IBMBackend_properties.
    destruct (isinstance_bool refresh); simpl; [|by eexists].
    rewrite Ht, Hd. by eexists.
  - intros p Hdt Hres.
    assert (Hp : _properties (self (IBMBackend_properties refresh datetime w).2) = Some p).
    { revert Hres. unfold IBMBackend_properties. run_monad.
      destruct datetime; simplify_eq/=; rewrite ?Hdt; simpl;
        repeat (case_match; simplify_eq/=); try done;
        try (intros [= <-]; done);
        repeat match goal with
               | H : context [negb (_ =? _)] |- _ => rewrite Hdt in H
               | H : context [negb (String.eqb _ _)] |- _ => rewrite Hdt in H
               end; simplify_eq/=; try done; by intros [= <-]. }
    split; [done|].
    unfold IBMBackend_properties at 1. run_monad. rewrite Hp. simpl. by rewrite Hp.
  - unfold IBMBackend_properties. run_monad.
    repeat (case_match; simplify_eq/=); try done.
    all: intros [= H]; try done.
    all: match goal with
         | H1 : opt_is_None ?c = false, H2 : ?c = None |- _ => by rewrite H2 in H1
         | _ => idtac
         end.
  - intros e. unfold IBMBackend_properties. run_monad.
    repeat (case_match; simplify_eq/=); done.
Qed.
End Caches.

(** ** Round trips of the accessors *)

Section RoundTrips.
Context `{Ext : Externals} `{Client : !AccountClient}.

Lemma api_log_api c w : api_log (api c w).2 = api_log w ++ [c].
Proof. rewrite api_unfold. by destruct (reply (api_log w) c). Qed.

Lemma exec_accessor_writes o w :
  is_run o = false -> writes_only [Calls; PropertiesCache; DefaultsCache] w (exec o w).
Proof.
  intros Ho. destruct o; [done| | | | | | |]; simpl.
  - apply (frame_writes_only_mono [Calls; PropertiesCache]); [apply properties__writes|footprint_incl].
  - apply (frame_writes_only_mono [Calls]); [|footprint_incl].
    unfold status_. footprints; apply status_writes.
  - apply (frame_writes_only_mono [Calls; DefaultsCache]); [|footprint_incl].
    unfold defaults_. footprints; apply defaults_writes.
  - apply (frame_writes_only_mono [Calls]); [|footprint_incl].
    unfold job_limit_. footprints; apply job_limit_writes.
  - apply (frame_writes_only_mono [Calls]); [|footprint_incl].
    unfold remaining_jobs_count_. footprints; apply remaining_jobs_count_writes.
  - apply (frame_writes_only_mono [Calls]); [|footprint_incl].
    unfold reservations_. footprints; apply reservations_writes.
  - apply (frame_writes_only_mono [Calls]); [|footprint_incl].
    unfold active_jobs_. footprints; apply active_jobs_writes.
Qed.

(** X7. Every accessor makes one round trip, and the two cached ones make
    none when the cache answers: [status], [job_limit],
    [remaining_jobs_count] and [reservations] call the client exactly
    once, with the backend's name, and [active_jobs] asks the provider's
    backend service once, whether the call then succeeds or not;
    [defaults] calls the client once when [refresh] is set or the cache
    is empty, and not otherwise; [properties] once when its arguments are
    well typed and a [datetime] or [refresh] is given or the cache is
    empty, and not otherwise.  No accessor, on a backend of any class,
    writes anything but the log of calls and the two caches: no warning,
    no event, no change to a circuit or to the warning flag. *)
Theorem accessors_round_trips w :
  let n := name_of w in
  let utc d := match d with Some t => PyDatetime (local_to_utc t) | None => PyNone end in
  api_log (IBMBackend_status w).2 = api_log w ++ [backend_status n] /\
  api_log (IBMBackend_job_limit w).2 = api_log w ++ [backend_job_limit n] /\
  api_log (IBMBackend_remaining_jobs_count w).2 = api_log w ++ [backend_job_limit n] /\
  (forall s e,
     api_log (IBMBackend_reservations s e w).2 =
       api_log w ++ [backend_reservations n (utc s) (utc e)]) /\
  (forall limit,
     api_log (IBMBackend_active_jobs limit w).2 =
       api_log w ++ [provider_backend_jobs active_job_states limit]) /\
  (forall refresh,
     api_log (IBMBackend_defaults refresh w).2 =
       api_log w ++ if truthy refresh || opt_is_None (_defaults (self w))
                    then [backend_pulse_defaults n] else []) /\
  (forall refresh datetime,
     api_log (IBMBackend_properties refresh datetime w).2 =
       api_log w ++
       if isinstance_bool refresh
          && negb (truthy datetime && negb (isinstance_datetime datetime))
          && (truthy datetime || truthy refresh || opt_is_None (_properties (self w)))
       then [backend_properties n
               match datetime with
               | PyDatetime t => PyDatetime (local_to_utc t)
               | v => v
               end]
       else []) /\
  (forall o, is_run o = false ->
     writes_only [Calls; PropertiesCache; DefaultsCache] w (exec o w)).
Proof.
  cbv zeta. split; [|split; [|split; [|split; [|split; [|split; [|split]]]]]].
  - unfold IBMBackend_status. run_monad. repeat case_match; simplify_eq/=; done.
  - unfold IBMBackend_job_limit. run_monad. repeat case_match; simplify_eq/=; done.
  - unfold IBMBackend_remaining_jobs_count, IBMBackend_job_limit. run_monad.
    repeat case_match; simplify_eq/=; done.
  - intros s e. unfold IBMBackend_reservations. run_monad.
    repeat case_match; simplify_eq/=; done.
  - intros limit. unfold IBMBackend_active_jobs. run_monad.
    repeat case_match; simplify_eq/=; done.
  - intros refresh. unfold IBMBackend_defaults. run_monad.
    repeat case_match; simplify_eq/=; by rewrite ?app_nil_r.
  - intros refresh datetime. unfold IBMBackend_properties. run_monad.
    destruct (isinstance_bool refresh); simpl; [|by rewrite app_nil_r].
    destruct datetime; simpl;
      repeat (case_match; simplify_eq/=); by rewrite ?app_nil_r.
  - intros o Ho. by apply exec_accessor_writes.
Qed.
End RoundTrips.

(** ** The pass over 'id', again *)

Section IdPass.
Context `{Ext : Externals} `{Client : !AccountClient}.

Lemma fetches_once_bind {A B} (m : M A) (k : A -> M B) :
  fetches_once m -> (forall a, fetches_once (k a)) -> fetches_once (bind m k).
Proof.
  intros Hm Hk w. specialize (Hm w). cbv zeta in *. unfold bind.
  destruct (m w) as [[a|e] w1]; simpl in *; [|done].
  destruct Hm as (Hn1 & Hs1 & Hc1).
  destruct (Hk a w1) as (Hn2 & Hs2 & Hc2).
  split; [congruence|]. split.
  - intros Hs. destruct (Hs1 Hs) as [Hl1 Hs1']. destruct (Hs2 Hs1') as [Hl2 Hs2'].
    split; [congruence|done].
  - destruct Hc1 as [Hl1|[Hl1 Hset1]].
    + destruct Hc2 as [Hl2|[Hl2 Hset2]]; [left; congruence|right].
      split; [congruence|done].
    + destruct (Hs2 (Hset1 eq_refl)) as [Hl2 Hs2']. right. split; [congruence|done].
Qed.

(** A computation that makes no call and writes no cache. *)
Lemma fetches_once_still {A} (m : M A) :
  frame (writes_only [Warnings; WarningFlag; Circuits]) m -> fetches_once m.
Proof.
  intros H w. cbv zeta. destruct (H w) as [(Hc & Hcfg & _) Hkeep].
  pose proof (Hkeep Calls ltac:(footprint_notin)) as Hl.
  pose proof (Hkeep PropertiesCache ltac:(footprint_notin)) as Hp.
  simpl in Hl, Hp.
  split; [unfold name_of; by rewrite Hcfg|]. split; [|by left].
  intros Hs. split; [done|]. unfold settled in *. by rewrite Hc, Hp.
Qed.

Lemma fetches_once_ret {A} (a : A) : fetches_once (ret a).
Proof. apply fetches_once_still. footprints. Qed.

Lemma fetches_once_raise {A} e : fetches_once (raise (A := A) e).
Proof. apply fetches_once_still. footprints. Qed.

Lemma fetches_once_gets {A} (f : World -> A) : fetches_once (gets f).
Proof. apply fetches_once_still. footprints. Qed.

Lemma replace_id_at_fetches_once r dt_in_s idx d :
  fetches_once (replace_id_at r dt_in_s idx d).
Proof.
  intros w. cbv zeta. unfold replace_id_at.
  destruct (is_id d); [|by apply fetches_once_ret].
  unfold properties_, IBMBackend_properties, settled. run_monad.
  destruct (cls (self w)) eqn:Hcls; simpl.
  - destruct (_properties (self w)) as [p|] eqn:Hp; simpl.
    + rewrite Hp.
      repeat (case_match; simplify_eq/=); rewrite ?Hcls, ?Hp;
        (split; [done|]); (split; [|by left]); intros _; (split; [done|]); by right.
    + repeat (case_match; simplify_eq/=); rewrite ?Hcls;
        (split; [done|]); (split; [intros [?|[? ?]]; done|]); right;
        (split; [done|]); try done; intros _; right; by eexists.
  - split; [done|]. split; [|by left]. intros _. split; [done|]. left. by rewrite Hcls.
  - split; [done|]. split; [|by left]. intros _. split; [done|]. left. by rewrite Hcls.
Qed.

Lemma replace_ids_fetches_once r dt_in_s idx items :
  fetches_once (replace_ids r dt_in_s idx items).
Proof.
  revert idx. induction items as [|d rest IH]; intros idx; simpl.
  - apply fetches_once_ret.
  - apply fetches_once_bind; [apply replace_id_at_fetches_once|intros _; apply IH].
Qed.

Lemma replace_in_circuits_fetches_once dt_in_s cs :
  fetches_once (replace_in_circuits dt_in_s cs).
Proof.
  induction cs as [|r rest IH]; simpl.
  - apply fetches_once_ret.
  - apply fetches_once_bind; [apply fetches_once_gets|intros c].
    apply fetches_once_bind; [|intros _; apply IH].
    destruct c; [apply replace_ids_fetches_once|apply fetches_once_ret].
Qed.

Lemma deprecate_id_instruction_fetches_once cs :
  fetches_once (_deprecate_id_instruction cs).
Proof.
  unfold _deprecate_id_instruction, configuration.
  apply fetches_once_bind; [apply fetches_once_gets|intros cfg].
  destruct (negb _); [apply fetches_once_ret|].
  apply fetches_once_bind; [apply fetches_once_gets|intros has_id].
  destruct (negb _); [apply fetches_once_ret|].
  apply fetches_once_bind; [apply fetches_once_gets|intros issued].
  apply fetches_once_bind.
  - apply fetches_once_still. destruct (negb issued); unfold warn; footprints.
  - intros _. apply fetches_once_bind; [apply fetches_once_gets|intros cfg'].
    destruct (dt cfg'); [apply replace_in_circuits_fetches_once|apply fetches_once_raise].
Qed.

(** X8. The pass over 'id' asks the server for the backend properties at most
    once, however many 'id' instructions it replaces, and makes no other
    call; it makes no call at all when the properties are cached, or on a
    class that has none. *)
Theorem id_pass_fetches_properties_once cs w :
  let res := _deprecate_id_instruction cs w in
  (api_log res.2 = api_log w \/
   api_log res.2 = api_log w ++ [backend_properties (name_of w) PyNone]) /\
  (cls (self w) <> IBMBackend \/ is_Some (_properties (self w)) ->
   api_log res.2 = api_log w).
Proof.
  destruct (deprecate_id_instruction_fetches_once cs w) as (_ & Hs & Hc).
  cbv zeta. split.
  - destruct Hc as [H|[H _]]; [by left|by right].
  - intros H. by apply Hs.
Qed.

(** *** The warning and its flag *)

Lemma replace_in_circuits_keeps dt_in_s cs w :
  warn_log (replace_in_circuits dt_in_s cs w).2 = warn_log w /\
  id_warning_issued (self (replace_in_circuits dt_in_s cs w).2) = id_warning_issued (self w).
Proof.
  destruct (replace_in_circuits_writes dt_in_s cs w) as [_ Hk].
  split.
  - apply (Hk Warnings). footprint_notin.
  - apply (Hk WarningFlag). footprint_notin.
Qed.

(** X9. The pass warns exactly when it has something to do and the flag is
    unset: on a backend that supports 'delay', given a circuit with an
    'id', it emits one warning ('deprecated' when 'id' is among the basis
    gates, 'removed' otherwise) and sets the flag, before it replaces
    anything, so also when the replacement then fails; in every other
    case it emits nothing and leaves the flag as it is. *)
Theorem id_pass_warning cs w :
  let cfg := _configuration (self w) in
  let res := _deprecate_id_instruction cs w in
  let due := str_in "delay" (default [] (supported_instructions cfg))
             && circuit_has_id (store w) (as_list cs) in
  warn_log res.2 =
    warn_log w ++
    (if due && negb (id_warning_issued (self w))
     then [if str_in "id" (default [] (basis_gates cfg)) then IdDeprecated else IdRemoved]
     else []) /\
  id_warning_issued (self res.2) = id_warning_issued (self w) || due.
Proof.
  cbv zeta.
  remember (_deprecate_id_instruction cs w) as res eqn:Hres.
  unfold _deprecate_id_instruction in Hres.
  unfold bind at 1, configuration at 1, gets at 1 in Hres. simpl in Hres.
  destruct (str_in "delay" _) eqn:Hdelay; simpl in Hres.
  2:{ subst res. simpl. by rewrite app_nil_r, orb_false_r. }
  unfold bind at 1, gets at 1 in Hres. simpl in Hres.
  destruct (circuit_has_id (store w) (as_list cs)) eqn:Hhas; simpl in Hres.
  2:{ subst res. simpl. by rewrite app_nil_r, orb_false_r. }
  unfold bind at 1, gets at 1 in Hres. simpl in Hres.
  unfold bind at 1 in Hres.
  set (block := if negb (id_warning_issued (self w)) then _ else _) in Hres.
  assert (Hblock : exists w2, block w = (Return tt, w2) /\
            warn_log w2 = warn_log w ++
              (if negb (id_warning_issued (self w))
               then [if str_in "id" (default [] (basis_gates (_configuration (self w))))
                     then IdDeprecated else IdRemoved]
               else []) /\
            id_warning_issued (self w2) = true /\
            _configuration (self w2) = _configuration (self w)).
  { unfold block. destruct (id_warning_issued (self w)) eqn:Hflag; simpl.
    - exists w. by rewrite app_nil_r.
    - destruct (str_in "id" _); simpl; by eexists. }
  destruct Hblock as (w2 & Hb & Hwarn & Hflag & Hcfg). clearbody block.
  rewrite Hb in Hres.
  unfold bind, configuration, gets in Hres. simpl in Hres. rewrite Hcfg in Hres.
  rewrite orb_true_r.
  destruct (dt (_configuration (self w))) as [dt_in_s|]; simpl in Hres.
  2:{ subst res. by simpl. }
  destruct (replace_in_circuits_keeps dt_in_s (as_list cs) w2) as [Hw Hf].
  subst res. by rewrite Hw, Hf.
Qed.

(** *** Running the pass again *)

Lemma circuit_has_id_no_id (s : loc -> circuit_obj) cs :
  (forall r, r ∈ cs -> no_id (s r)) -> circuit_has_id s cs = false.
Proof.
  induction cs as [|r rest IH]; intros H; [done|].
  simpl. apply orb_false_iff. split.
  - pose proof (H r ltac:(by left)) as Hr. unfold no_id in Hr. by destruct (s r).
  - apply IH. intros r' Hr'. apply H. by right.
Qed.

(** X10. Once the pass has returned, running it again on the same circuits
    does nothing: it returns in the world it was started in, with no
    call, no warning and no write. *)
Theorem id_pass_idempotent cs w w1 :
  _deprecate_id_instruction cs w = (Return tt, w1) ->
  _deprecate_id_instruction cs w1 = (Return tt, w1).
Proof.
  intros Hrun.
  pose proof (deprecate_id_instruction_writes cs w) as [(_ & Hcfg & _) _].
  destruct (deprecate_id_instruction_spec cs w) as [_ Hno].
  rewrite Hrun in Hcfg, Hno. simpl in Hcfg, Hno.
  unfold _deprecate_id_instruction.
  unfold bind at 1, configuration at 1, gets at 1. simpl. rewrite Hcfg.
  destruct (str_in "delay" _) eqn:Hdelay; simpl; [|done].
  unfold bind at 1, gets at 1. simpl.
  rewrite (circuit_has_id_no_id (store w1) (as_list cs)); [done|].
  by apply Hno.
Qed.
End IdPass.

(** ** [run], again *)

Section Run.
Context `{Ext : Externals} `{Client : !AccountClient}.

Lemma writes_only_keeps ps p (w w' : World) : writes_only ps w w' -> p ∉ ps -> keeps p w w'.
Proof. intros [_ H]. apply H. Qed.

Lemma writes_only_name ps (w w' : World) : writes_only ps w w' -> name_of w' = name_of w.
Proof. intros [(_ & Hcfg & _) _]. unfold name_of. by rewrite Hcfg. Qed.

(** What [run_dispatch] does: a composite job in the same world, or one
    payload. *)
Lemma run_dispatch_cases a d w :
  (exists chunks,
     run_dispatch a d w =
       (Return (IBMCompositeJob chunks d (job_name a) (job_tags a)), w)) \/
  run_dispatch a d w = single_payload a d w.
Proof.
  unfold run_dispatch, configuration, bind, gets. simpl.
  destruct (match circuits a with
            | One _ => None
            | Many cs => split_circuits _ cs
            end) as [chunks|]; [left; by exists chunks|right; reflexivity].
Qed.

Lemma single_payload_spec a d w :
  let res := single_payload a d w in
  let c := job_submit (name_of w) (to_dict (assemble (deref (store w) (circuits a)) d))
             (job_name a) (job_tags a) PyNone (live_data_enabled a) in
  api_log res.2 = api_log w ++ [c] /\
  published res.2 = published w ++
    match res.1 with
    | Return (CircuitJob job) => [("ibm.job.start", job)]
    | _ => []
    end /\
  (forall chunks d' n t, res.1 <> Return (IBMCompositeJob chunks d' n t)) /\
  (is_Return res.1 = true -> exists job, res.1 = Return (CircuitJob job)).
Proof.
  cbv zeta. unfold single_payload, bind. rewrite submit_job_unfold. simpl.
  destruct (reply_submit _ _) as [ex|info]; simpl.
  { destruct ex; simpl; rewrite app_nil_r; by repeat split. }
  destruct (dict_get "error" info); simpl.
  { rewrite app_nil_r. by repeat split. }
  destruct (IBMCircuitJob _ info) as [err|job]; simpl.
  { destruct err; simpl; rewrite app_nil_r; by repeat split. }
  repeat split; try done. intros _. by eexists.
Qed.

(** [run] on a simulator configuration skips the pass over 'id'. *)
Lemma run_on_simulator a w :
  simulator (_configuration (self w)) = true ->
  IBMBackend_run a w =
    bind (bind (run_validate a) (run_get_config a)) (run_dispatch a) w.
Proof.
  intros Hsim. unfold IBMBackend_run, run_prepare, bind, configuration, gets, ret.
  pose proof (run_validate_world a w) as Hw.
  destruct (run_validate a w) as [[esp|e] w0]; simpl in *; subst w0; [|done].
  by rewrite Hsim.
Qed.

(** The calls of [run_prepare]: none, or one fetch of the properties. *)
Lemma run_prepare_calls a w :
  api_log (run_prepare a w).2 = api_log w \/
  api_log (run_prepare a w).2 = api_log w ++ [backend_properties (name_of w) PyNone].
Proof.
  remember (run_prepare a w) as res eqn:Hres.
  unfold run_prepare in Hres.
  unfold bind at 1 in Hres.
  pose proof (run_validate_world a w) as Hw.
  destruct (run_validate a w) as [[esp|e] w0]; simpl in Hw; subst w0.
  2:{ subst res. by left. }
  unfold bind at 1 in Hres. unfold configuration at 1, gets at 1 in Hres.
  unfold bind at 1 in Hres.
  set (pass := if negb (simulator (_configuration (self w))) then _ else _) in Hres.
  assert (Hpass : api_log (pass w).2 = api_log w \/
                  api_log (pass w).2 = api_log w ++ [backend_properties (name_of w) PyNone]).
  { unfold pass. destruct (simulator (_configuration (self w))); simpl; [by left|].
    destruct (deprecate_id_instruction_fetches_once (circuits a) w) as (_ & _ & Hc).
    destruct Hc as [Hl|[Hl _]]; [by left|by right]. }
  clearbody pass.
  destruct (pass w) as [[[]|e] w1]; simpl in *.
  2:{ by subst res. }
  pose proof (run_get_config_writes a esp w1) as Hcfg.
  pose proof (writes_only_keeps _ Calls _ _ Hcfg ltac:(footprint_notin)) as Hlog2.
  simpl in Hlog2. subst res. by rewrite Hlog2.
Qed.

(** X12. [run] publishes the event "ibm.job.start" exactly when it returns a
    job it has submitted, once, with that job; a call that raises, at any
    point, and a call that returns a composite job publish nothing. *)
Theorem run_publishes_submitted_job a w :
  let res := IBMBackend_run a w in
  published res.2 =
    published w ++
    match res.1 with
    | Return (CircuitJob job) => [("ibm.job.start", job)]
    | _ => []
    end.
Proof.
  cbv zeta. remember (IBMBackend_run a w) as res eqn:Hres.
  unfold IBMBackend_run in Hres. unfold bind at 1 in Hres.
  pose proof (run_prepare_writes a w) as Hprep.
  pose proof (writes_only_keeps _ Events _ _ Hprep ltac:(footprint_notin)) as Hpub.
  simpl in Hpub.
  destruct (run_prepare a w) as [[d|e] w1]; simpl in *.
  2:{ subst res. simpl. by rewrite app_nil_r. }
  destruct (run_dispatch_cases a d w1) as [[chunks Hd]|Hd]; rewrite Hd in Hres; subst res.
  - simpl. by rewrite app_nil_r.
  - destruct (single_payload_spec a d w1) as (_ & Hp & _). by rewrite Hp, Hpub.
Qed.

(** *** Simulators *)

Global Instance same_id_warnings_quiet : Quiet same_id_warnings.
Proof.
  split; [split| | | |]; try done.
  intros w1 w2 w3. unfold same_id_warnings. congruence.
Qed.
Global Instance same_id_warnings_warning : Warning same_id_warnings.
Proof.
  split; intros; unfold same_id_warnings; rewrite id_warnings_app; simpl; lia.
Qed.

(** X13. On a backend whose configuration says [simulator], [run] skips the
    pass over 'id': it writes nothing but calls, warnings and events, so
    the caller's circuits, the two caches and the warning flag are as
    they were, and none of the warnings is about 'id'. *)
Theorem simulator_run_leaves_circuits a w :
  simulator (_configuration (self w)) = true ->
  let w' := (IBMBackend_run a w).2 in
  writes_only [Calls; Warnings; Events] w w' /\
  store w' = store w /\
  id_warnings w' = id_warnings w.
Proof.
  intros Hsim. cbv zeta. rewrite (run_on_simulator a w Hsim).
  assert (Honly : frame (writes_only [Calls; Warnings; Events])
                    (bind (bind (run_validate a) (run_get_config a)) (run_dispatch a))).
  { footprints; first [within run_validate_writes | within run_get_config_writes
                      | within run_dispatch_writes]. }
  split; [apply Honly|]. split.
  - apply (writes_only_keeps _ Circuits _ _ (Honly w)). footprint_notin.
  - assert (Hid : frame same_id_warnings
                    (bind (bind (run_validate a) (run_get_config a)) (run_dispatch a))).
    { repeat frame_step;
        first [ apply frame_run_validate | apply frame_run_get_config
              | apply frame_run_dispatch ]; typeclasses eauto. }
    apply Hid.
Qed.

Lemma unrecognized_simulator opts kwargs : unrecognized opts true kwargs = [].
Proof.
  unfold unrecognized. induction kwargs as [|[k v] rest IH]; [done|].
  simpl. by rewrite andb_false_r.
Qed.

Lemma run_get_config_warnings a esp w :
  warn_log (run_get_config a esp w).2 =
    warn_log w ++
    match call_kwargs "_get_run_config" (run_kwargs a esp) (run_config a) with
    | inl _ => []
    | inr kwargs =>
        unrecognized (options (self w)) (isinstance_IBMSimulator (cls (self w))) kwargs
    end.
Proof.
  unfold run_get_config. unfold bind at 1. unfold configuration, gets. simpl.
  unfold bind at 1. destruct (call_kwargs _ _ _) as [e|kwargs]; simpl.
  { by rewrite app_nil_r. }
  unfold bind. by rewrite get_run_config_eq.
Qed.

(** On an [IBMSimulator] with a simulator configuration [IBMBackend.run]
    emits no warning. *)
Lemma run_simulator_no_warning a w :
  cls (self w) = IBMSimulator ->
  simulator (_configuration (self w)) = true ->
  warn_log (IBMBackend_run a w).2 = warn_log w.
Proof.
  intros Hcls Hsim.
  rewrite (run_on_simulator a w Hsim).
  unfold bind at 1. unfold bind at 1.
  pose proof (run_validate_world a w) as Hw.
  destruct (run_validate a w) as [[esp|e] w0]; simpl in Hw; subst w0; [|done].
  pose proof (run_get_config_warnings a esp w) as Hcw.
  rewrite Hcls in Hcw. simpl in Hcw.
  assert (Hcw' : warn_log (run_get_config a esp w).2 = warn_log w).
  { rewrite Hcw. destruct (call_kwargs _ _ _); [by rewrite app_nil_r|].
    by rewrite unrecognized_simulator, app_nil_r. }
  clear Hcw.
  destruct (run_get_config a esp w) as [[d|e] w2]; simpl in *; [|done].
  pose proof (run_dispatch_writes a d w2) as Hd.
  pose proof (writes_only_keeps _ Warnings _ _ Hd ltac:(footprint_notin)) as Hdw.
  simpl in Hdw. congruence.
Qed.

(** A step that leaves the world as it is. *)
Lemma warn_log_bind_still {A B} (m : M A) (k : A -> M B) (w : World) :
  (m w).2 = w ->
  (forall x, warn_log (k x w).2 = warn_log w) ->
  warn_log (bind m k w).2 = warn_log w.
Proof.
  unfold bind. destruct (m w) as [[x|e] w']; simpl; intros ->; [|done].
  intros H. apply H.
Qed.

(** X14. [IBMSimulator.run] on a simulator: the only warning it can emit is
    the deprecation of [backend_options], exactly when the argument is
    not [None] (an empty dictionary included), and before anything else;
    no option is ever reported as unrecognized. *)
Theorem simulator_run_warnings cs jn jt bo nm kw w :
  cls (self w) = IBMSimulator ->
  simulator (_configuration (self w)) = true ->
  warn_log (IBMSimulator_run cs jn jt bo nm kw w).2 =
    warn_log w ++ if is_None bo then [] else [BackendOptionsDeprecated].
Proof.
  intros Hcls Hsim. unfold IBMSimulator_run.
  unfold bind at 1.
  set (first := if negb (is_None bo) then _ else _).
  assert (Hfirst : exists w1, first w = (Return tt, w1) /\
            warn_log w1 = warn_log w ++ (if is_None bo then [] else [BackendOptionsDeprecated]) /\
            self w1 = self w).
  { unfold first. destruct (is_None bo); simpl.
    - exists w. by rewrite app_nil_r.
    - by eexists. }
  destruct Hfirst as (w1 & -> & Hwarn & Hself). clearbody first.
  rewrite <- Hwarn. rewrite <- Hself in Hcls, Hsim.
  apply warn_log_bind_still.
  { destruct (truthy nm); [|done].
    destruct (noise_model_to_dict nm) as [e|d]; [|done]. by destruct e. }
  intros nm'. apply warn_log_bind_still.
  { by destruct (if truthy bo then bo else PyDict []). }
  intros rc. apply warn_log_bind_still.
  { by destruct (call_kwargs _ _ _). }
  intros kw1. apply warn_log_bind_still.
  { by destruct (call_positional _ _ _). }
  intros kw2. by apply run_simulator_no_warning.
Qed.

(** *** Chunking: the other cases *)

Lemma run_dispatch_negative a cs c d w :
  circuits a = Many cs ->
  chunk_size_of (_configuration (self w)) (max_circuits_per_job a) = Some c ->
  c < 0 ->
  run_dispatch a d w = (Return (IBMCompositeJob [] d (job_name a) (job_tags a)), w).
Proof.
  intros Hcs Hsize Hc.
  unfold run_dispatch, configuration, bind, gets. simpl. rewrite Hcs, Hsize.
  unfold split_circuits, truthyZ.
  destruct (Z.eqb_spec c 0); [lia|].
  destruct (Z.ltb_spec c (Z.of_nat (length cs))); [|lia]. simpl.
  unfold py_range, py_range_len.
  destruct (Z.ltb_spec 0 c); [lia|]. simpl.
  destruct (Z.ltb_spec c 0); [|lia].
  destruct (Z.ltb_spec (Z.of_nat (length cs)) 0); [lia|]. done.
Qed.

(** X15. A negative effective maximum (from the backend's
    [max_experiments] or from [max_circuits_per_job]) makes [run], for
    every list of circuits, end where its preparation ends: when the
    validation, the pass over 'id' and the consolidation of the options
    have returned, [run] returns a composite job over an empty list of
    chunks, in the world that they left.  The circuits are dropped:
    nothing is submitted and no event is published, although the pass may
    have fetched the properties, warned and rewritten the circuits. *)
Theorem negative_maximum_drops_all a cs c w :
  circuits a = Many cs ->
  chunk_size_of (_configuration (self w)) (max_circuits_per_job a) = Some c ->
  c < 0 ->
  IBMBackend_run a w =
    match run_prepare a w with
    | (Return d, w1) => (Return (IBMCompositeJob [] d (job_name a) (job_tags a)), w1)
    | (Raise e, w1) => (Raise e, w1)
    end /\
  published (IBMBackend_run a w).2 = published w /\
  (api_log (IBMBackend_run a w).2 = api_log w \/
   api_log (IBMBackend_run a w).2 = api_log w ++ [backend_properties (name_of w) PyNone]).
Proof.
  intros Hcs Hsize Hc.
  assert (Hrun : IBMBackend_run a w =
            match run_prepare a w with
            | (Return d, w1) => (Return (IBMCompositeJob [] d (job_name a) (job_tags a)), w1)
            | (Raise e, w1) => (Raise e, w1)
            end).
  { unfold IBMBackend_run, bind.
    pose proof (frame_run_prepare same_configuration a w) as Hcfg.
    unfold same_configuration in Hcfg.
    destruct (run_prepare a w) as [[d|e] w1]; simpl in Hcfg; [|done].
    apply (run_dispatch_negative a cs c); [done| |done]. by rewrite Hcfg. }
  split; [done|].
  pose proof (run_prepare_writes a w) as Hw.
  pose proof (writes_only_keeps _ Events _ _ Hw ltac:(footprint_notin)) as Hev.
  pose proof (run_prepare_calls a w) as Hcalls.
  rewrite Hrun. simpl in Hev.
  destruct (run_prepare a w) as [[d|e] w1]; simpl in *; by split.
Qed.

(** X16. A circuit passed on its own, not in a list, is never split, whatever
    the maxima.  On a backend whose configuration has no
    [max_experiments], the caller's [max_circuits_per_job] alone decides:
    without it, or with 0, a list of any length is one payload; with a
    positive [m], a list longer than [m] becomes a composite job over
    [ceil(N/m)] contiguous chunks of at most [m] circuits whose
    concatenation is the list, and a list of at most [m] circuits is one
    payload. *)
Theorem run_without_backend_maximum a d w :
  (forall c, circuits a = One c -> run_dispatch a d w = single_payload a d w) /\
  (max_experiments (_configuration (self w)) = None ->
   forall cs, circuits a = Many cs ->
     let N := Z.of_nat (length cs) in
     (max_circuits_per_job a = None \/ max_circuits_per_job a = Some 0 ->
        run_dispatch a d w = single_payload a d w) /\
     (forall m, max_circuits_per_job a = Some m -> 0 < m < N ->
        exists chunks,
          run_dispatch a d w =
            (Return (IBMCompositeJob chunks d (job_name a) (job_tags a)), w) /\
          Z.of_nat (length chunks) = ceil_div N m /\
          Forall (fun ch => 1 <= Z.of_nat (length ch) <= m) chunks /\
          concat chunks = cs) /\
     (forall m, max_circuits_per_job a = Some m -> N <= m ->
        run_dispatch a d w = single_payload a d w)).
Proof.
  split.
  - intros c Hc. unfold single_payload, run_dispatch, configuration, bind, gets.
    simpl. by rewrite Hc.
  - intros Hmax cs Hcs N.
    assert (Hgo : forall size,
              chunk_size_of (_configuration (self w)) (max_circuits_per_job a) = size ->
              run_dispatch a d w =
                match split_circuits size cs with
                | Some chunks =>
                    (Return (IBMCompositeJob chunks d (job_name a) (job_tags a)), w)
                | None => single_payload a d w
                end).
    { intros size <-. unfold single_payload, run_dispatch, configuration, bind, gets.
      simpl. rewrite Hcs.
      by destruct (split_circuits _ cs). }
    split; [|split].
    + intros Hm. rewrite (Hgo None); [done|].
      unfold chunk_size_of. rewrite Hmax. by destruct Hm as [-> | ->].
    + intros m Hm Hlt.
      destruct (split_circuits_Some cs m) as (chunks & Hsplit & Hlen & Hall & Hcat);
        [lia|lia|].
      exists chunks. rewrite (Hgo (Some m)), Hsplit; [done|].
      unfold chunk_size_of, truthyZ. rewrite Hmax, Hm.
      destruct (Z.eqb_spec m 0); [lia|done].
    + intros m Hm Hle.
      destruct (decide (m = 0)) as [->|Hne].
      * rewrite (Hgo None); [done|]. unfold chunk_size_of. by rewrite Hmax, Hm.
      * rewrite (Hgo (Some m)).
        -- rewrite split_circuits_None; [done|]. by right.
        -- unfold chunk_size_of, truthyZ. rewrite Hmax, Hm.
           destruct (Z.eqb_spec m 0); [lia|done].
Qed.
End Run.

(** ** The backend object *)

Section Object.
Context `{Ext : Externals} `{Client : !AccountClient}.

Global Instance flag_stays_quiet : Quiet flag_stays.
Proof.
  split; [split| | | |]; unfold flag_stays.
  - by intros w.
  - intros w1 w2 w3 H12 H23 H. by apply H23, H12.
  - by intros c w.
  - by intros e j w.
  - by intros p w.
  - by intros d w.
Qed.
Global Instance flag_stays_warning : Warning flag_stays.
Proof. split; unfold flag_stays; by intros. Qed.
Global Instance flag_stays_replacing : Replacing flag_stays.
Proof. split; unfold flag_stays; by intros. Qed.

Lemma exec_writes o w : writes_only every_part w (exec o w).
Proof.
  destruct (is_run o) eqn:Ho.
  - destruct o; try done. simpl.
    eapply writes_only_mono; [|apply run__writes]. footprint_incl.
  - eapply writes_only_mono; [|by apply exec_accessor_writes]. footprint_incl.
Qed.

Lemma exec_all_writes ops w : writes_only every_part w (exec_all ops w).
Proof.
  revert w. induction ops as [|o ops IH]; intros w; simpl; [reflexivity|].
  etransitivity; [apply exec_writes|apply IH].
Qed.

(** X17. No operation assigns an attribute of the backend object other than
    the two caches and the warning flag: after any sequence of operations
    the class, the configuration, the options, the credentials' hub,
    group and project and the retired status are those the constructor
    set, so [__repr__] prints what it printed at first; and the warning
    flag, once set, is never reset. *)
Theorem backend_attributes_are_fixed ops w :
  let w' := exec_all ops w in
  same_attributes (self w) (self w') /\
  __repr__ w' = ((__repr__ w).1, w') /\
  (id_warning_issued (self w) = true -> id_warning_issued (self w') = true) /\
  forall c cfg creds s,
    w = new_world (IBMBackend_init c cfg creds) s ->
    cls (self w') = c /\ _configuration (self w') = cfg /\
    options (self w') = _default_options c /\
    hub (self w') = creds.1.1 /\ group (self w') = creds.1.2 /\
    project (self w') = creds.2.
Proof.
  cbv zeta.
  destruct (exec_all_writes ops w) as [Hsame _].
  pose proof (frame_exec_all flag_stays ops w) as Hflag.
  split; [done|].
  destruct Hsame as (Hcls & Hcfg & Hopt & Hhub & Hgroup & Hproject & Hstatus).
  split; [|split; [done|]].
  - unfold __repr__, bind, gets, name_, name_of, ret. simpl.
    by rewrite Hcls, Hcfg, Hhub, Hgroup, Hproject.
  - intros c cfg creds s ->.
    rewrite Hcls, Hcfg, Hopt, Hhub, Hgroup, Hproject. by destruct c.
Qed.
End Object.

(** ** The keys of the consolidated configuration *)

Section ConfigurationKeys.
Context `{Ext : Externals} `{Client : !AccountClient}.

Lemma consolidate_is_Some kwargs d key :
  is_Some (d !! key) -> is_Some (consolidate kwargs d !! key).
Proof.
  revert d. induction kwargs as [|[k v] rest IH]; intros d H; simpl; [done|].
  apply IH. destruct (is_None v); [done|].
  destruct (decide (k = key)) as [->|Hne].
  - rewrite lookup_insert_eq. by eexists.
  - by rewrite lookup_insert_ne.
Qed.

Lemma consolidate_new kwargs d key :
  is_Some (consolidate kwargs d !! key) ->
  is_Some (d !! key) \/ exists val, (key, val) ∈ kwargs /\ is_None val = false.
Proof.
  revert d. induction kwargs as [|[k v] rest IH]; intros d H; simpl in *; [by left|].
  destruct (IH _ H) as [Hd|(val & Hin & Hval)].
  - destruct (is_None v) eqn:Hv; [by left|].
    destruct (decide (k = key)) as [->|Hne].
    + right. exists v. split; [by left|done].
    + left. by rewrite lookup_insert_ne in Hd.
  - right. exists val. split; [by right|done].
Qed.

(** The dictionary that [run_prepare] returns. *)
Lemma run_prepare_dict a w d w' :
  run_prepare a w = (Return d, w') ->
  exists esp kwargs,
    run_validate a w = (Return esp, w) /\
    call_kwargs "_get_run_config" (run_kwargs a esp) (run_config a) = inr kwargs /\
    let c := consolidate kwargs (options (self w)) in
    let c1 := if truthy (parameter_binds a)
              then <["parameter_binds" := parameter_binds a]> c else c in
    let sim_method := sim_method_of (_configuration (self w)) in
    d = if truthy sim_method && bool_decide (c1 !! "method" = None)
        then <["method" := sim_method]> c1 else c1.
Proof.
  unfold run_prepare. unfold bind at 1.
  pose proof (run_validate_world a w) as Hw.
  destruct (run_validate a w) as [[esp|e] w0] eqn:Hval; [|done].
  simpl in Hw. subst w0.
  unfold bind at 1. unfold configuration at 1, gets at 1.
  unfold bind at 1.
  pose proof (frame_deprecate_step same_options
                (negb (simulator (_configuration (self w)))) (circuits a) w) as Hopts.
  pose proof (frame_deprecate_step same_configuration
                (negb (simulator (_configuration (self w)))) (circuits a) w) as Hcfg.
  destruct ((if negb (simulator (_configuration (self w)))
             then _deprecate_id_instruction (circuits a) else ret tt) w)
    as [[[]|e] w1] eqn:Hdep; [|done].
  unfold same_options, same_configuration in *. simpl in *.
  unfold run_get_config.
  unfold bind at 1. unfold configuration at 1, gets at 1.
  unfold bind at 1. unfold lift.
  destruct (call_kwargs _ _ _) as [e|kwargs] eqn:Hcall; [done|].
  unfold ret at 1. unfold bind at 1. rewrite get_run_config_eq.
  unfold ret. intros [= <- <-].
  exists esp, kwargs. split; [done|]. split; [done|].
  simpl. by rewrite Hopts, Hcfg.
Qed.

(** X18. The consolidated run configuration holds every option of the
    backend: [run] never drops one.  Beyond these it holds only the
    keywords that were given with a value other than [None],
    'parameter_binds' when the argument is not empty, and 'method' on a
    simulator that declares a simulation method. *)
Theorem run_configuration_keys a w d w' :
  run_prepare a w = (Return d, w') ->
  exists esp,
    run_validate a w = (Return esp, w) /\
    forall key,
      (is_Some (options (self w) !! key) -> is_Some (d !! key)) /\
      (is_Some (d !! key) ->
         is_Some (options (self w) !! key) \/
         (exists val, (key, val) ∈ run_kwargs a esp ++ run_config a /\ is_None val = false) \/
         key = "parameter_binds" /\ truthy (parameter_binds a) = true \/
         key = "method" /\ truthy (sim_method_of (_configuration (self w))) = true).
Proof.
  intros Hrun.
  apply run_prepare_dict in Hrun as (esp & kwargs & Hval & Hcall & Hd).
  apply call_kwargs_inr in Hcall as [-> _]. cbv zeta in Hd.
  exists esp. split; [done|]. intros key. subst d. split.
  - intros Hopt.
    pose proof (consolidate_is_Some (run_kwargs a esp ++ run_config a) _ key Hopt) as Hc.
    repeat case_match;
      repeat match goal with
      | |- is_Some (<[?k := _]> _ !! key) =>
          destruct (decide (k = key)) as [<-|];
          [rewrite lookup_insert_eq; by eexists|rewrite lookup_insert_ne by done]
      end; done.
  - intros Hd.
    assert (Hcases :
      is_Some (consolidate (run_kwargs a esp ++ run_config a) (options (self w)) !! key) \/
      key = "parameter_binds" /\ truthy (parameter_binds a) = true \/
      key = "method" /\ truthy (sim_method_of (_configuration (self w))) = true).
    { revert Hd.
      destruct (truthy (sim_method_of _) && _) eqn:Hm;
        destruct (truthy (parameter_binds a)) eqn:Hpb; intros Hd;
        repeat match type of Hd with
        | is_Some (<[?k := _]> _ !! key) =>
            destruct (decide (k = key)) as [<-|];
            [|rewrite lookup_insert_ne in Hd by done]
        end;
        try (by left);
        try (right; left; by split);
        try (right; right; split; [done|]; by apply andb_prop in Hm as [Hm _]). }
    destruct Hcases as [Hc|[?|?]]; [|by right; right; left|by right; right; right].
    apply consolidate_new in Hc as [?|?]; [by left|by right; left].
Qed.

(** X19. The keywords that [run] writes out itself, on a backend that is not
    an [IBMSimulator]: each one given with a value other than [None] is in
    the consolidated configuration with that value, each one left at
    [None] keeps the entry of the options; a warning is emitted for it
    exactly when it has a value and is not among the options.  With the
    default options of [IBMBackend] this is the case of [header] alone,
    which is passed on as 'qobj_header': a call that gives a header always
    warns that 'qobj_header' is not a recognized option, and no other
    named argument ever warns.  The argument [live_data_enabled] is not
    consolidated: the configuration keeps the entry of the options. *)
Theorem run_named_options a w d w' :
  run_prepare a w = (Return d, w') ->
  NoDup (run_config a).*1 ->
  cls (self w) <> IBMSimulator ->
  exists esp,
    run_validate a w = (Return esp, w) /\
    (forall key val, (key, val) ∈ run_kwargs a esp ->
       d !! key = (if is_None val then options (self w) !! key else Some val) /\
       option_warnings key w' =
         (option_warnings key w +
          if negb (is_None val) && bool_decide (options (self w) !! key = None)
          then 1 else 0)%nat) /\
    (options (self w) = IBMBackend_default_options ->
       option_warnings "qobj_header" w' =
         (option_warnings "qobj_header" w + if is_None (header a) then 0 else 1)%nat /\
       forall key val, (key, val) ∈ run_kwargs a esp -> key <> "qobj_header" ->
         option_warnings key w' = option_warnings key w) /\
    ("live_data_enabled" ∉ (run_config a).*1 ->
       d !! "live_data_enabled" = options (self w) !! "live_data_enabled").
Proof.
  intros Hrun Hnd Hcls.
  apply run_prepare_inv in Hrun
    as (esp & w1 & kwargs & Hval & _ & _ & Hdep & Hcall & -> & Hd & _ & _).
  pose proof (run_kwargs_config_NoDup _ _ _ Hcall Hnd) as Hnd'.
  pose proof (frame_deprecate_step same_options
                (negb (simulator (_configuration (self w)))) (circuits a) w) as Hopts.
  pose proof (frame_deprecate_step same_class
                (negb (simulator (_configuration (self w)))) (circuits a) w) as Hcls1.
  rewrite Hdep in Hopts, Hcls1.
  unfold same_options, same_class in *. simpl in *.
  apply call_kwargs_inr in Hcall as [-> _].
  assert (Hsim : isinstance_IBMSimulator (cls (self w1)) = false).
  { rewrite Hcls1. by destruct (cls (self w)). }
  assert (Hnamed : forall key val, (key, val) ∈ run_kwargs a esp ->
            d !! key = (if is_None val then options (self w) !! key else Some val) /\
            option_warnings key
              (add_warnings (unrecognized (options (self w1))
                               (isinstance_IBMSimulator (cls (self w1)))
                               (run_kwargs a esp ++ run_config a)) w1) =
              (option_warnings key w +
               if negb (is_None val) && bool_decide (options (self w) !! key = None)
               then 1 else 0)%nat).
  { intros key val Hin.
    assert (Hin' : (key, val) ∈ run_kwargs a esp ++ run_config a).
    { apply elem_of_app. by left. }
    assert (Hkey : key <> "parameter_binds" /\ key <> "method").
    { simpl in Hin.
      repeat (apply elem_of_cons in Hin as [Hin|Hin]; [by inversion Hin|]).
      by apply elem_of_nil in Hin. }
    destruct Hkey as [Hpb Hm].
    pose proof (frame_deprecate_step (same_option_warnings key)
                  (negb (simulator (_configuration (self w)))) (circuits a) w) as Hwarn.
    rewrite Hdep in Hwarn. unfold same_option_warnings in Hwarn. simpl in Hwarn.
    split.
    - rewrite Hd by done. rewrite (consolidate_in _ _ key val) by done.
      by rewrite Hopts.
    - rewrite option_warnings_add, (unrecognized_count_in _ _ _ key val) by done.
      by rewrite Hsim, Hopts, Hwarn, andb_true_r. }
  exists esp. split; [done|]. split; [done|]. split.
  - intros Hdef. split.
    + destruct (Hnamed "qobj_header" (header a)) as [_ Hw]; [by left|].
      rewrite Hw, Hdef. by destruct (is_None (header a)).
    + intros key val Hin Hne.
      destruct (Hnamed key val Hin) as [_ Hw]. rewrite Hw, Hdef.
      simpl in Hin.
      repeat (apply elem_of_cons in Hin as [Hin|Hin];
              [inversion Hin; subst; try done;
               (rewrite (bool_decide_eq_false_2 _); [rewrite andb_false_r; lia|];
                by vm_compute)
              |]).
      by apply elem_of_nil in Hin.
  - intros Hnotin. rewrite Hd by done.
    rewrite consolidate_notin; [by rewrite Hopts|].
    rewrite fmap_app. intros Hin. apply elem_of_app in Hin as [Hin|Hin]; [|done].
    simpl in Hin.
    repeat (apply elem_of_cons in Hin as [Hin|Hin]; [done|]).
    by apply elem_of_nil in Hin.
Qed.
End ConfigurationKeys.

(** ** The caller's circuits *)

Section Evolution.
Context `{Ext : Externals} `{Client : !AccountClient}.

Lemma writes_only_evolves ps (w w' : World) :
  Circuits ∉ ps -> writes_only ps w w' -> store_evolves w w'.
Proof.
  intros Hnotin Honly. apply same_store_evolves.
  by apply (writes_only_keeps ps Circuits).
Qed.

Lemma frame_writes_only_evolves {A} ps (m : M A) :
  Circuits ∉ ps -> frame (writes_only ps) m -> frame store_evolves m.
Proof. intros Hnotin Hm w. eapply writes_only_evolves; [done|apply Hm]. Qed.

Lemma deprecate_id_instruction_evolves cs : frame store_evolves (_deprecate_id_instruction cs).
Proof. intros w. apply deprecate_id_instruction_spec. Qed.

Lemma IBMBackend_run_evolves a : frame store_evolves (IBMBackend_run a).
Proof.
  unfold IBMBackend_run, run_prepare, configuration.
  repeat frame_step;
    first [ apply deprecate_id_instruction_evolves
          | apply (frame_writes_only_evolves _ _ ltac:(footprint_notin) (run_validate_writes a))
          | eapply (frame_writes_only_evolves [Warnings]);
              [footprint_notin|apply run_get_config_writes]
          | eapply (frame_writes_only_evolves [Calls; Events]);
              [footprint_notin|apply run_dispatch_writes] ].
Qed.

Lemma run__evolves a : frame store_evolves (run_ a).
Proof.
  unfold run_, IBMSimulator_run, IBMRetiredBackend_run, name_, warn.
  repeat frame_step; try apply IBMBackend_run_evolves.
  all: intros; by apply same_store_evolves.
Qed.

Lemma exec_evolves o w : store_evolves w (exec o w).
Proof.
  destruct (is_run o) eqn:Ho.
  - destruct o; try done. apply run__evolves.
  - eapply writes_only_evolves; [|by apply exec_accessor_writes]. footprint_notin.
Qed.

Lemma exec_all_evolves ops w : store_evolves w (exec_all ops w).
Proof.
  revert w. induction ops as [|o ops IH]; intros w; simpl; [reflexivity|].
  etransitivity; [apply exec_evolves|apply IH].
Qed.

(** X20. Whatever sequence of operations is run, and wherever one of them
    fails, the caller's objects change in one way only: an 'id' of a
    circuit may have become a 'delay' on the same qubits and clbits.  A
    circuit keeps its length, every instruction that is not an 'id' stays
    as it is and where it is, and a pulse schedule is never touched. *)
Theorem circuits_only_evolve ops w r :
  let w' := exec_all ops w in
  match store w r, store w' r with
  | QuantumCircuit data, QuantumCircuit data' =>
      length data' = length data /\
      forall i d, data !! i = Some d ->
        exists d', data' !! i = Some d' /\
          (d' = d \/
           is_id d = true /\ name d'.1.1 = "delay" /\ d'.1.2 = d.1.2 /\ d'.2 = d.2)
  | Schedule s, Schedule s' => s' = s
  | _, _ => False
  end.
Proof.
  cbv zeta. pose proof (exec_all_evolves ops w r) as H.
  unfold circuit_evolves in H.
  destruct (store w r) as [data|s], (store (exec_all ops w) r) as [data'|s']; try done.
  split.
  - symmetry. by eapply Forall2_length.
  - intros i d Hd.
    destruct (Forall2_lookup_l _ _ _ _ _ H Hd) as (d' & Hd' & Hev).
    by exists d'.
Qed.
End Evolution.

(** ** The custom provider of the tests *)

Lemma str_split_length sep s : length (str_split sep s) = S (str_count sep s).
Proof.
  induction s as [|c rest IH]; [done|]. simpl.
  destruct (Ascii.eqb c sep); simpl; [by rewrite IH|].
  destruct (str_split sep rest); simpl in *; [done|lia].
Qed.

Lemma str_split_free sep s : str_count sep s = 0%nat -> str_split sep s = [s].
Proof.
  induction s as [|c rest IH]; [done|]. simpl.
  destruct (Ascii.eqb c sep); [done|]. simpl. intros H. by rewrite IH.
Qed.

Lemma str_split_field sep field rest :
  str_count sep field = 0%nat ->
  str_split sep (field +:+ String sep EmptyString +:+ rest) = field :: str_split sep rest.
Proof.
  induction field as [|c field IH]; simpl.
  - intros _. by rewrite Ascii.eqb_refl.
  - destruct (Ascii.eqb c sep); [done|]. simpl. intros H. by rewrite IH.
Qed.

Section CustomProviderProofs.
Context {Provider : Type}.
Context (IBMProvider : string -> string -> string -> string -> string -> exn + Provider).

(** X21. The hub, group and project of the custom provider are read from one
    environment variable, QISKIT_IBM_STAGING_HGP when
    QISKIT_IBM_USE_STAGING_CREDENTIALS is set to a non-empty value and
    QISKIT_IBM_HGP otherwise.  When the variable is unset or empty there is
    no custom provider and none is constructed.  A value
    hub/group/project, with no '/' inside the three names, gives back
    exactly these names to the constructor, and further fields after a
    third '/' are ignored; a value with fewer than two '/' raises
    [IndexError]. *)
Theorem custom_provider_hgp environ token url :
  let staging :=
    truthy_str (getenv environ "QISKIT_IBM_USE_STAGING_CREDENTIALS" (Some "")) in
  let hgp :=
    environ !! (if staging then "QISKIT_IBM_STAGING_HGP" else "QISKIT_IBM_HGP") in
  let constructed hub group project :=
    match IBMProvider token url hub group project with
    | inr provider => inr (Some provider)
    | inl e => inl e
    end in
  (hgp = None \/ hgp = Some "" ->
     _get_custom_provider IBMProvider environ token url = inr None) /\
  (forall hub group project,
     str_count "/"%char hub = 0%nat -> str_count "/"%char group = 0%nat ->
     str_count "/"%char project = 0%nat ->
     (hgp = Some (hub +:+ "/" +:+ group +:+ "/" +:+ project) ->
        _get_custom_provider IBMProvider environ token url = constructed hub group project) /\
     (forall more,
        hgp = Some (hub +:+ "/" +:+ group +:+ "/" +:+ project +:+ "/" +:+ more) ->
        _get_custom_provider IBMProvider environ token url = constructed hub group project)) /\
  (forall s, hgp = Some s -> s <> "" -> (str_count "/"%char s < 2)%nat ->
     _get_custom_provider IBMProvider environ token url = inl IndexError).
Proof.
  cbv zeta. unfold _get_custom_provider, getenv.
  set (staging := truthy_str _).
  assert (Hsel : (if staging
                  then match environ !! "QISKIT_IBM_STAGING_HGP" with
                       | Some v => Some v | None => None end
                  else match environ !! "QISKIT_IBM_HGP" with
                       | Some v => Some v | None => None end)
                 = environ !! (if staging then "QISKIT_IBM_STAGING_HGP" else "QISKIT_IBM_HGP")).
  { destruct staging; by destruct (environ !! _). }
  rewrite Hsel. clear Hsel.
  set (hgp := environ !! _).
  split; [|split].
  - by intros [-> | ->].
  - intros hub group project Hh Hg Hp. split.
    + intros ->. simpl.
      assert (Hne : String.eqb (hub +:+ "/" +:+ group +:+ "/" +:+ project) "" = false).
      { by destruct hub. }
      rewrite Hne. simpl.
      rewrite !(str_split_field "/"%char) by done.
      by rewrite (str_split_free "/"%char project).
    + intros more ->. simpl.
      assert (Hne : String.eqb (hub +:+ "/" +:+ group +:+ "/" +:+ project +:+ "/" +:+ more) ""
                    = false).
      { by destruct hub. }
      rewrite Hne. simpl.
      rewrite !(str_split_field "/"%char) by done. done.
  - intros s -> Hne Hcount. simpl.
    destruct (String.eqb_spec s ""); [done|]. simpl.
    pose proof (str_split_length "/"%char s) as Hlen.
    destruct (str_split "/"%char s) as [|f0 [|f1 [|f2 fs]]]; simpl in *; try done. lia.
Qed.
End CustomProviderProofs.

(** ** Calls and failures *)

Section Calls.
Context `{Ext : Externals} `{Client : !AccountClient}.

Global Instance calls_named_preorder : PreOrder calls_named.
Proof.
  split.
  - intros w. split; [done|]. exists []. by rewrite app_nil_r.
  - intros w1 w2 w3 [Hn1 (c1 & Hl1 & Hf1)] [Hn2 (c2 & Hl2 & Hf2)].
    split; [congruence|]. exists (c1 ++ c2). split.
    + by rewrite Hl2, Hl1, app_assoc.
    + apply Forall_app. split; [done|]. by rewrite <- Hn1.
Qed.

Lemma writes_only_calls_named ps (w w' : World) :
  Calls ∉ ps -> writes_only ps w w' -> calls_named w w'.
Proof.
  intros Hnotin H. split; [by eapply writes_only_name|].
  exists []. rewrite app_nil_r. split; [|done].
  by apply (writes_only_keeps ps Calls).
Qed.

Lemma frame_writes_only_calls_named {A} ps (m : M A) :
  Calls ∉ ps -> frame (writes_only ps) m -> frame calls_named m.
Proof. intros Hnotin Hm w. eapply writes_only_calls_named; [done|apply Hm]. Qed.

(** One call, which names the backend. *)
Lemma one_call_named ps (w w' : World) c :
  writes_only ps w w' -> api_log w' = api_log w ++ [c] -> names_backend (name_of w) c ->
  calls_named w w'.
Proof.
  intros H Hl Hc. split; [by eapply writes_only_name|].
  exists [c]. split; [done|]. by constructor.
Qed.

(** The calls of the accessors. *)
Lemma accessor_calls w :
  let n := name_of w in
  let utc d := match d with Some t => PyDatetime (local_to_utc t) | None => PyNone end in
  api_log (IBMBackend_status w).2 = api_log w ++ [backend_status n] /\
  api_log (IBMBackend_job_limit w).2 = api_log w ++ [backend_job_limit n] /\
  api_log (IBMBackend_remaining_jobs_count w).2 = api_log w ++ [backend_job_limit n] /\
  (forall s e,
     api_log (IBMBackend_reservations s e w).2 =
       api_log w ++ [backend_reservations n (utc s) (utc e)]) /\
  (forall limit,
     api_log (IBMBackend_active_jobs limit w).2 =
       api_log w ++ [provider_backend_jobs active_job_states limit]) /\
  (forall refresh,
     api_log (IBMBackend_defaults refresh w).2 =
       api_log w ++ if truthy refresh || opt_is_None (_defaults (self w))
                    then [backend_pulse_defaults n] else []) /\
  (forall refresh datetime,
     api_log (IBMBackend_properties refresh datetime w).2 =
       api_log w ++
       if isinstance_bool refresh
          && negb (truthy datetime && negb (isinstance_datetime datetime))
          && (truthy datetime || truthy refresh || opt_is_None (_properties (self w)))
       then [backend_properties n
               match datetime with
               | PyDatetime t => PyDatetime (local_to_utc t)
               | v => v
               end]
       else []).
Proof.
  cbv zeta. split; [|split; [|split; [|split; [|split; [|split]]]]].
  - unfold IBMBackend_status. run_monad. repeat case_match; simplify_eq/=; done.
  - unfold IBMBackend_job_limit. run_monad. repeat case_match; simplify_eq/=; done.
  - unfold IBMBackend_remaining_jobs_count, IBMBackend_job_limit. run_monad.
    repeat case_match; simplify_eq/=; done.
  - intros s e. unfold IBMBackend_reservations. run_monad.
    repeat case_match; simplify_eq/=; done.
  - intros limit. unfold IBMBackend_active_jobs. run_monad.
    repeat case_match; simplify_eq/=; done.
  - intros refresh. unfold IBMBackend_defaults. run_monad.
    repeat case_match; simplify_eq/=; by rewrite ?app_nil_r.
  - intros refresh datetime. unfold IBMBackend_properties. run_monad.
    destruct (isinstance_bool refresh); simpl; [|by rewrite app_nil_r].
    destruct datetime; simpl;
      repeat (case_match; simplify_eq/=); by rewrite ?app_nil_r.
Qed.

(** A log that grew by nothing or by one call that names the backend. *)
Lemma maybe_call_named ps (w w' : World) (b : bool) c :
  writes_only ps w w' -> api_log w' = api_log w ++ (if b then [c] else []) ->
  names_backend (name_of w) c -> calls_named w w'.
Proof.
  intros H Hl Hc. split; [by eapply writes_only_name|].
  eexists. split; [exact Hl|]. destruct b; by repeat constructor.
Qed.

Lemma exec_accessor_named o w : is_run o = false -> calls_named w (exec o w).
Proof.
  intros Ho. pose proof (exec_accessor_writes o w Ho) as Hw.
  destruct (accessor_calls w) as (Hst & Hjl & Hrem & Hres & Hact & Hdef & Hprop).
  destruct o; [done| | | | | | |]; simpl in *.
  - revert Hw. unfold properties_, bind, gets. simpl.
    destruct (cls (self w)); simpl; intros Hw; [|reflexivity..].
    by eapply maybe_call_named; [exact Hw|apply Hprop|].
  - revert Hw. unfold status_, bind, gets. simpl.
    destruct (cls (self w)); simpl; intros Hw; [| |reflexivity];
      (apply (one_call_named _ _ _ (backend_status (name_of w)) Hw); [|done]);
      unfold bind; by destruct (IBMBackend_status w) as [[?|?] ?].
  - revert Hw. unfold defaults_, bind, gets. simpl.
    destruct (cls (self w)); simpl; intros Hw; [| |reflexivity];
      by eapply maybe_call_named; [exact Hw|apply Hdef|].
  - revert Hw. unfold job_limit_, bind, gets. simpl.
    destruct (cls (self w)); simpl; intros Hw; [| |reflexivity];
      (apply (one_call_named _ _ _ (backend_job_limit (name_of w)) Hw); [|done]);
      unfold bind; by destruct (IBMBackend_job_limit w) as [[?|?] ?].
  - revert Hw. unfold remaining_jobs_count_, bind, gets. simpl.
    destruct (cls (self w)); simpl; intros Hw; [| |reflexivity];
      by apply (one_call_named _ _ _ (backend_job_limit (name_of w)) Hw).
  - revert Hw. unfold reservations_, bind, gets. simpl.
    destruct (cls (self w)); simpl; intros Hw; [| |reflexivity];
      by eapply one_call_named; [exact Hw|apply Hres|].
  - revert Hw. unfold active_jobs_, bind, gets. simpl.
    specialize (Hact limit).
    destruct (cls (self w)); simpl; intros Hw; [| |reflexivity];
      (apply (one_call_named _ _ _ (provider_backend_jobs active_job_states limit) Hw);
       [|done]);
      unfold bind; by destruct (IBMBackend_active_jobs limit w) as [[?|?] ?].
Qed.

Lemma deprecate_id_instruction_named cs : frame calls_named (_deprecate_id_instruction cs).
Proof.
  intros w. destruct (deprecate_id_instruction_fetches_once cs w) as (Hn & _ & Hc).
  split; [done|]. destruct Hc as [Hl|[Hl _]].
  - exists []. by rewrite app_nil_r.
  - eexists. split; [exact Hl|]. by repeat constructor.
Qed.

Lemma run_dispatch_named a d : frame calls_named (run_dispatch a d).
Proof.
  intros w. pose proof (run_dispatch_writes a d w) as Hw.
  destruct (run_dispatch_cases a d w) as [[chunks Hd]|Hd]; rewrite Hd in *.
  - reflexivity.
  - destruct (single_payload_spec a d w) as (Hl & _).
    by eapply one_call_named.
Qed.

Lemma IBMBackend_run_named a : frame calls_named (IBMBackend_run a).
Proof.
  unfold IBMBackend_run, run_prepare, configuration.
  repeat frame_step;
    first [ apply deprecate_id_instruction_named
          | apply run_dispatch_named
          | apply (frame_writes_only_calls_named _ _ ltac:(footprint_notin)
                     (run_validate_writes a))
          | eapply (frame_writes_only_calls_named [Warnings]);
              [footprint_notin|apply run_get_config_writes] ].
Qed.

Lemma run__named a : frame calls_named (run_ a).
Proof.
  unfold run_, IBMSimulator_run, IBMRetiredBackend_run, name_, warn.
  repeat frame_step; try apply IBMBackend_run_named.
  all: intros; eapply (writes_only_calls_named [Warnings]); [footprint_notin|footprint].
Qed.

Lemma exec_named o w : calls_named w (exec o w).
Proof.
  destruct (is_run o) eqn:Ho.
  - destruct o; try done. apply run__named.
  - by apply exec_accessor_named.
Qed.

(** X22. Over any sequence of operations the log of calls only grows, and
    every call that was added names this backend: no operation ever asks
    the server about another backend.  The one call that names no backend
    is the query for the unfinished jobs, which [active_jobs] sends to
    the provider. *)
Theorem calls_name_the_backend ops w :
  exists calls,
    api_log (exec_all ops w) = api_log w ++ calls /\
    Forall (names_backend (name_of w)) calls.
Proof.
  assert (H : calls_named w (exec_all ops w)).
  { revert w. induction ops as [|o ops IH]; intros w; simpl; [reflexivity|].
    etransitivity; [apply exec_named|apply IH]. }
  by destruct H as [_ H].
Qed.
End Calls.

Section Failures.
Context `{Ext : Externals} `{Client : !AccountClient}.





End Failures.

(** * The properties on a concrete backend *)

Section Examples.
Local Existing Instance example_externals.
Local Existing Instance example_client.

(** Five circuits, at most two per job: three chunks; and three circuits
    on a backend that takes five: one payload, one call. *)
Lemma run_chunks_circuits_witness :
  let a := with_max_circuits_per_job 2 (default_args (Many [0; 1; 2; 3; 4]%nat)) in
  let b := default_args (Many [0; 1; 2]%nat) in
  (circuits a = Many [0; 1; 2; 3; 4]%nat /\
   max_experiments (_configuration (self example_world)) = Some 5 /\
   0 < Z.min 5 2 < 5) /\
  (exists chunks,
     run_dispatch a ∅ example_world =
       (Return (IBMCompositeJob chunks ∅ PyNone PyNone), example_world) /\
     Z.of_nat (length chunks) = ceil_div 5 2 /\
     Forall (fun ch => 1 <= Z.of_nat (length ch) <= 2) chunks /\
     concat chunks = [0; 1; 2; 3; 4]%nat) /\
  api_log (run_dispatch b ∅ example_world).2 =
    [job_submit "ibmq_example"
       (to_dict (assemble (Many (store example_world <$> [0; 1; 2]%nat)) ∅))
       PyNone PyNone PyNone PyNone].
Proof.
  intros a b. split; [|split].
  - repeat split; simpl; lia.
  - apply (run_chunks_circuits a [0; 1; 2; 3; 4]%nat 5 ∅ example_world eq_refl eq_refl).
    simpl. lia.
  - apply (run_chunks_circuits b [0; 1; 2]%nat 5 ∅ example_world eq_refl eq_refl).
    right. simpl. lia.
Defined.

(** With [max_circuits_per_job=0] the effective maximum is 0 and one
    circuit exceeds it, yet [run] builds no composite job: it submits the
    list as one payload. *)
Lemma zero_maximum_is_not_split :
  let a := with_max_circuits_per_job 0 (default_args (Many [0%nat])) in
  max_experiments (_configuration (self example_world)) = Some 5 /\
  Z.min 5 0 < Z.of_nat (length [0%nat]) /\
  (run_dispatch a ∅ example_world).1 = Return (CircuitJob [("job_id", PyStr "j1")]).
Proof. repeat split. Qed.

(** A negative [max_circuits_per_job] gives a composite job without any
    chunk: the circuits are dropped. *)
Example negative_maximum_drops_circuits :
  let a := with_max_circuits_per_job (-1) (default_args (Many [0; 1]%nat)) in
  (run_dispatch a ∅ example_world).1 = Return (IBMCompositeJob [] ∅ PyNone PyNone).
Proof. reflexivity. Qed.

(** A client whose [job_submit] raises something else than [ApiError],
    here the [KeyError] of a response that lacks a field: the [except
    ApiError] of [_submit_job] does not catch it, so the call raises the
    [KeyError] itself: no wrapped error, and no job. *)
Lemma submit_job_raises_unwrapped :
  let broken : AccountClient :=
    {| reply := fun _ _ => inr PyNone;
       reply_submit := fun _ _ => inl (KeyError "objectStorageInfo");
       reply_jobs := fun _ _ => inr [] |} in
  let r := (_submit_job (Client := broken) (One example_circuit, ∅) PyNone PyNone PyNone
              PyNone example_world).1 in
  r = Raise (KeyError "objectStorageInfo") /\
  (forall msg, r <> Raise (IBMBackendJobLimitError msg)) /\
  (forall msg, r <> Raise (IBMBackendApiError msg)) /\
  (forall msg, r <> Raise (IBMBackendError msg)) /\
  (forall msg, r <> Raise (IBMBackendApiProtocolError msg)) /\
  (forall job, r <> Return job).
Proof. repeat split; intros ?; discriminate. Qed.

(** The job limit is reached: the client raises [ApiError] with the error
    code 3458. *)
Example job_limit_reached_example :
  let failing : AccountClient :=
    {| reply := fun _ _ => inr PyNone;
       reply_submit := fun _ _ =>
         inl (ApiError "Reached maximum number of concurrent jobs. Error code: 3458.");
       reply_jobs := fun _ _ => inr [] |} in
  (_submit_job (Client := failing) (One example_circuit, ∅) PyNone PyNone PyNone PyNone
     example_world).1 =
    Raise (IBMBackendJobLimitError
             "Error submitting job: Reached maximum number of concurrent jobs. Error code: 3458.").
Proof. reflexivity. Qed.

(** [run] with [use_measure_esp=True] on the example backend, which does
    not declare ESP readout: the call is rejected before the pass over
    'id', and the caller's circuit still holds its 'id'. *)
Lemma rejected_run_keeps_id :
  let a := with_use_measure_esp (PyBool true) (default_args (One 0%nat)) in
  simulator (_configuration (self example_world)) = false /\
  str_in "delay"
    (default [] (supported_instructions (_configuration (self example_world)))) = true /\
  circuit_has_id (store example_world) [0%nat] = true /\
  (IBMBackend_run a example_world).1 =
    Raise (IBMBackendValueError
             "ESP readout not supported on this device. Please make sure the flag 'use_measure_esp' is unset or set to 'False'.") /\
  circuit_has_id (store (IBMBackend_run a example_world).2) [0%nat] = true.
Proof. repeat split. Qed.

(** When the properties are not available the pass stops on the first
    'id' with an [AttributeError], after the warning. *)
Example pass_without_properties :
  let silent : AccountClient :=
    {| reply := fun _ _ => inr PyNone;
       reply_submit := fun _ _ => inr [];
       reply_jobs := fun _ _ => inr [] |} in
  let r := _deprecate_id_instruction (Client := silent) (One 0%nat) example_world in
  r.1 = Raise (AttributeError "'NoneType' object has no attribute 'gate_length'") /\
  warn_log r.2 = [IdDeprecated] /\
  circuit_has_id (store r.2) [0%nat] = true.
Proof. repeat split. Qed.

(** [run] on the example backend with a circuit that holds an 'id': the
    call passes the validation, the pass completes, and the circuit is
    left without 'id'; the delay lasts 36 / 2 = 18 [dt]. *)
Lemma id_replaced_and_warned_once_witness :
  let a := default_args (One 0%nat) in
  let w1 := (_deprecate_id_instruction (circuits a) example_world).2 in
  let w' := (IBMBackend_run a example_world).2 in
  (simulator (_configuration (self example_world)) = false /\
   str_in "delay"
     (default [] (supported_instructions (_configuration (self example_world)))) = true /\
   run_validate a example_world = (Return (PyBool false), example_world) /\
   _deprecate_id_instruction (circuits a) example_world = (Return tt, w1)) /\
  (store w' = store w1 /\
   store_evolves example_world w' /\
   (forall r, r ∈ as_list (circuits a) -> no_id (store w' r)) /\
   (forall r, r ∈ as_list (circuits a) ->
      match store example_world r, store w' r with
      | QuantumCircuit data, QuantumCircuit data' =>
          Forall2 (fun d d' => if is_id d then equivalent_delay w' d d' else d' = d)
            data data'
      | Schedule s, Schedule s' => s' = s
      | _, _ => False
      end) /\
   (forall r, r ∉ as_list (circuits a) -> store w' r = store example_world r) /\
   (forall p, _properties (self example_world) = Some p -> _properties (self w') = Some p)) /\
  store w' 0%nat =
    QuantumCircuit [(mkInstruction "x" [], [mkQubit 0], []);
                    (Delay 18, [mkQubit 0], []);
                    (mkInstruction "measure" [], [mkQubit 0], [0])].
Proof.
  intros a w1 w'.
  assert (Hdep : _deprecate_id_instruction (circuits a) example_world = (Return tt, w1)).
  { subst w1.
    assert (H : is_Return (_deprecate_id_instruction (circuits a) example_world).1 = true)
      by (vm_compute; reflexivity).
    by destruct (_deprecate_id_instruction (circuits a) example_world) as [[[]|e] w0]. }
  split; [by repeat split|]. split; [|vm_compute; reflexivity].
  destruct id_replaced_and_warned_once as (_ & _ & H & _).
  by apply (H a example_world (PyBool false) w1).
Defined.

(** An option that the backend does not know is passed through with one
    warning. *)
Example unrecognized_option_example :
  let a := with_run_config [("optimization_level", PyInt 3)] (default_args (One 1%nat)) in
  let r := run_prepare a example_world in
  (match r.1 with Return d => d !! "optimization_level" | Raise _ => None end)
    = Some (PyInt 3) /\
  warn_log r.2 = [UnrecognizedOption "optimization_level"].
Proof. split; vm_compute; reflexivity. Qed.

(** C4 at the input [run(circuit, qobj_header={...})] on a hardware
    backend: the option is not among the backend's options and is not
    [None], yet it is not passed through with a warning: [run] writes out
    the keyword [qobj_header] itself when it calls [_get_run_config], so
    the call raises [TypeError]. *)
Theorem run_qobj_header_collision :
  let a := with_run_config [("qobj_header", PyDict [("note", PyStr "x")])]
             (default_args (One 1%nat)) in
  options (self example_world) !! "qobj_header" = None /\
  (IBMBackend_run a example_world).1 =
    Raise (TypeError
             "_get_run_config() got multiple values for keyword argument 'qobj_header'").
Proof. split; vm_compute; reflexivity. Qed.

(** Tags that are not a list of strings, and ESP readout on a backend
    without it. *)
Lemma run_validates_before_network_witness :
  let a := with_job_tags (PyInt 3) (default_args (One 0%nat)) in
  let b := with_use_measure_esp (PyBool true) (default_args (One 0%nat)) in
  (validate_job_tags (job_tags a) = false /\
   use_measure_esp b = PyBool true /\
   measure_esp_enabled (_configuration (self example_world)) = None) /\
  (exists msg, IBMBackend_run a example_world = (Raise (IBMBackendValueError msg), example_world) /\
               api_log (IBMBackend_run a example_world).2 = api_log example_world) /\
  (exists msg, IBMBackend_run b example_world = (Raise (IBMBackendValueError msg), example_world) /\
               api_log (IBMBackend_run b example_world).2 = api_log example_world).
Proof.
  intros a b. split; [by repeat split|]. split.
  - by apply (proj1 (run_validates_before_network a example_world)).
  - apply (proj1 (proj2 (run_validates_before_network b example_world))); [done|by left].
Defined.

(** After a first call has filled the cache, a call with the defaults is
    answered from it and leaves the world as it is. *)
Lemma properties_cache_witness :
  let w := (IBMBackend_properties (PyBool false) PyNone example_world).2 in
  let p := [("backend_name", PyStr "ibmq_example"); ("sx", PyInt 36)] in
  (_properties (self w) = Some p /\ truthy PyNone = false) /\
  IBMBackend_properties (PyBool false) PyNone w = (Return (Some p), w) /\
  _properties (self (IBMBackend_properties (PyBool false) (PyDatetime 7200) w).2)
    = _properties (self w).
Proof.
  intros w p. split; [by repeat split|]. split.
  - by apply (proj2 (proj2 (properties_cache (PyBool false) PyNone w)) p).
  - by apply (proj1 (properties_cache (PyBool false) (PyDatetime 7200) w) 7200).
Defined.

(** [defaults] on the example backend: the server's pulse defaults lack
    the qubit frequencies, the constructor raises [TypeError], and
    [defaults] raises that [TypeError], not
    [IBMBackendApiProtocolError]. *)
Lemma defaults_raises_type_error :
  reply (api_log example_world) (backend_pulse_defaults (name_of example_world))
    = inr (PyDict [("buffer", PyInt 10)]) /\
  (IBMBackend_defaults (PyBool false) example_world).1 =
    Raise (TypeError "__init__() missing 1 required positional argument: 'qubit_freq_est'").
Proof. by repeat split. Qed.

(** The example server reports -1 as the maximum. *)
Lemma job_limit_never_minus_one_witness :
  let v := PyDict [("maximum_jobs", PyInt (-1)); ("running_jobs", PyInt 2)] in
  let l0 := mkBackendJobLimit (Some (-1)) 2 in
  (reply (api_log example_world) (backend_job_limit (name_of example_world)) = inr v /\
   BackendJobLimit_init v = inr l0) /\
  exists l,
    (IBMBackend_job_limit example_world).1 = Return l /\
    maximum_jobs l <> Some (-1) /\
    active_jobs l = active_jobs l0 /\
    (maximum_jobs l0 = Some (-1) ->
       maximum_jobs l = None /\
       (IBMBackend_remaining_jobs_count example_world).1 = Return None) /\
    (maximum_jobs l0 <> Some (-1) -> l = l0).
Proof.
  intros v l0. split; [by repeat split|].
  by apply (job_limit_never_minus_one example_world v l0).
Defined.

(** [run(schedule)] with every option left at [None]: the option
    [use_measure_esp], whose entry in [self.options] is [None], is [False]
    in the consolidated configuration. *)
Lemma none_use_measure_esp_overrides :
  let a := default_args (One 1%nat) in
  use_measure_esp a = PyNone /\
  options (self example_world) !! "use_measure_esp" = Some PyNone /\
  (match (run_prepare a example_world).1 with
   | Return d => d !! "use_measure_esp"
   | Raise _ => None
   end) = Some (PyBool false).
Proof. by vm_compute. Qed.

(** The same call keeps the default number of shots. *)
Lemma none_keeps_default_witness :
  let a := default_args (One 1%nat) in
  exists d w',
    (run_prepare a example_world = (Return d, w') /\ NoDup (run_config a).*1) /\
    d !! "shots" = Some (PyInt 4000) /\
    option_warnings "shots" w' = option_warnings "shots" example_world.
Proof.
  intros a.
  destruct (run_prepare a example_world) as [[d|e] w'] eqn:Hrun.
  2:{ exfalso.
      assert (H : is_Return (run_prepare a example_world).1 = true)
        by (vm_compute; reflexivity).
      rewrite Hrun in H. discriminate H. }
  assert (Hnd : NoDup (run_config a).*1) by constructor.
  exists d, w'. split; [done|].
  destruct (none_keeps_default a example_world d w' Hrun Hnd) as (_ & esp & _ & _ & H).
  destruct (H "shots") as [Hd Hw]; [|done|done|].
  - apply elem_of_app. left. apply list_elem_of_further, list_elem_of_here.
  - split; [|done]. rewrite Hd. reflexivity.
Defined.
(** [run(schedule, optimization_level=3)] on the example backend. *)
Lemma run_passes_option_witness :
  let a := with_run_config [("optimization_level", PyInt 3)] (default_args (One 1%nat)) in
  exists d w',
    (run_prepare a example_world = (Return d, w') /\
     NoDup (run_config a).*1 /\
     ("optimization_level", PyInt 3) ∈ run_config a) /\
    d !! "optimization_level" = Some (PyInt 3) /\
    option_warnings "optimization_level" w' = 1%nat.
Proof.
  intros a.
  destruct (run_prepare a example_world) as [[d|e] w'] eqn:Hrun.
  2:{ exfalso.
      assert (H : is_Return (run_prepare a example_world).1 = true)
        by (vm_compute; reflexivity).
      rewrite Hrun in H. discriminate H. }
  assert (Hnd : NoDup (run_config a).*1).
  { simpl. apply NoDup_singleton. }
  assert (Hin : ("optimization_level", PyInt 3) ∈ run_config a).
  { apply list_elem_of_here. }
  exists d, w'. split; [done|].
  destruct (run_passes_option a example_world d w' "optimization_level" (PyInt 3)
              Hrun Hnd Hin eq_refl) as [Hd Hw]; [done|].
  split; [done|]. rewrite Hw. reflexivity.
Defined.

(** The pass on the example backend, once the properties are cached. *)
Lemma deprecate_id_instruction_completes_witness :
  let w := (IBMBackend_properties (PyBool false) PyNone example_world).2 in
  let p : BackendProperties :=
    [("backend_name", PyStr "ibmq_example"); ("sx", PyInt 36)] in
  (cached p w /\
   is_Some (dt (_configuration (self w))) /\
   forall r, r ∈ as_list (One 0%nat) -> replaceable_circuit p (store w r)) /\
  (_deprecate_id_instruction (One 0%nat) w).1 = Return tt.
Proof.
  intros w p.
  assert (Hc : cached p w) by (split; vm_compute; reflexivity).
  assert (Hdt : is_Some (dt (_configuration (self w)))) by (by eexists).
  assert (Hall : forall r, r ∈ as_list (One 0%nat) -> replaceable_circuit p (store w r)).
  { intros r Hr. apply list_elem_of_singleton in Hr as ->.
    change (store w 0%nat) with example_circuit.
    repeat constructor; intros Hid; try discriminate Hid.
    by exists (mkQubit 0), [], 36. }
  split; [done|].
  by apply (deprecate_id_instruction_completes p (One 0%nat) w).
Defined.

(** A retired backend built from the name 'ibmqx2'. *)
Lemma retired_backend_is_inert_witness :
  let w := example_retired_world in
  cls (self w) = IBMRetiredBackend /\
  exec_all [op_run (default_args (One 0%nat)); op_status;
            op_properties (PyBool true) PyNone] w = w /\
  (run_ (default_args (One 0%nat)) w).1 =
    Raise (IBMBackendError "This backend (ibmqx2) is no longer available.").
Proof.
  intros w. split; [done|].
  destruct (retired_backend_is_inert w eq_refl) as (Hops & Hrun & _).
  split; [apply Hops|]. by rewrite Hrun.
Defined.

(** A first call of [defaults] on the example backend: the answer cannot
    be parsed, the call raises and the cache stays empty. *)
Lemma defaults_cache_witness :
  let r := IBMBackend_defaults (PyBool false) example_world in
  r.1 = Raise (TypeError "__init__() missing 1 required positional argument: 'qubit_freq_est'") /\
  _defaults (self r.2) = _defaults (self example_world).
Proof.
  intros r.
  assert (Hr : r.1 = Raise (TypeError
            "__init__() missing 1 required positional argument: 'qubit_freq_est'"))
    by reflexivity.
  split; [done|].
  by apply (proj2 (proj2 (proj2 (defaults_cache (PyBool false) example_world))) _ Hr).
Defined.

(** [properties(refresh=1)] is rejected; a plain first call caches what it
    returns. *)
Lemma properties_arguments_and_answers_witness :
  let p := [("backend_name", PyStr "ibmq_example"); ("sx", PyInt 36)] in
  let r := IBMBackend_properties (PyBool false) PyNone example_world in
  (isinstance_bool (PyInt 1) = false /\ truthy PyNone = false /\ r.1 = Return (Some p)) /\
  (exists msg, IBMBackend_properties (PyInt 1) PyNone example_world
               = (Raise (TypeError msg), example_world)) /\
  _properties (self r.2) = Some p /\
  IBMBackend_properties (PyBool false) PyNone r.2 = (Return (Some p), r.2).
Proof.
  intros p r.
  assert (Hr : r.1 = Return (Some p)) by reflexivity.
  split; [by repeat split|]. split.
  - by apply (proj1 (properties_arguments_and_answers (PyInt 1) PyNone example_world)).
  - by apply (proj1 (proj2 (proj2
                (properties_arguments_and_answers (PyBool false) PyNone example_world))) p).
Defined.

(** The pass on the example circuit, run twice. *)
Lemma id_pass_idempotent_witness :
  let w1 := (_deprecate_id_instruction (One 0%nat) example_world).2 in
  _deprecate_id_instruction (One 0%nat) example_world = (Return tt, w1) /\
  _deprecate_id_instruction (One 0%nat) w1 = (Return tt, w1).
Proof.
  intros w1.
  assert (Hdep : _deprecate_id_instruction (One 0%nat) example_world = (Return tt, w1)).
  { subst w1.
    assert (H : is_Return (_deprecate_id_instruction (One 0%nat) example_world).1 = true)
      by (vm_compute; reflexivity).
    by destruct (_deprecate_id_instruction (One 0%nat) example_world) as [[[]|e] w0]. }
  split; [done|].
  by apply (id_pass_idempotent (One 0%nat) example_world).
Defined.

(** [run] on the example simulator with the circuit that holds an 'id':
    the circuit still holds it. *)
Lemma simulator_run_leaves_circuits_witness :
  let a := default_args (One 0%nat) in
  let w' := (IBMBackend_run a example_simulator_world).2 in
  simulator (_configuration (self example_simulator_world)) = true /\
  store w' = store example_simulator_world /\
  id_warnings w' = id_warnings example_simulator_world.
Proof.
  intros a w'.
  destruct (simulator_run_leaves_circuits a example_simulator_world eq_refl)
    as (_ & Hstore & Hid).
  by repeat split.
Defined.

(** [run([s1, s2], max_circuits_per_job=1, backend_options={'shots': 5})]
    on the simulator: the call writes no [shots], so the 5 of
    [backend_options] is the number of shots of the composite job. *)
Example simulator_backend_options_example :
  let a := with_max_circuits_per_job 1
             (with_run_config [("backend_options", PyDict [("shots", PyInt 5)])]
                (default_args (Many [1; 2]%nat))) in
  match (run_ a example_simulator_world).1 with
  | Return (IBMCompositeJob chunks d _ _) =>
      chunks = [[1%nat]; [2%nat]] /\ d !! "shots" = Some (PyInt 5)
  | _ => False
  end.
Proof. vm_compute. by split. Qed.

(** [run(s1, backend_options={'circuits': 1})] on the simulator: after the
    warning, the call of [IBMBackend.run] gets [circuits] twice. *)
Example simulator_positional_collision_example :
  let a := with_run_config [("backend_options", PyDict [("circuits", PyInt 1)])]
             (default_args (One 1%nat)) in
  let r := run_ a example_simulator_world in
  r.1 = Raise (TypeError "run() got multiple values for argument 'circuits'") /\
  warn_log r.2 = [BackendOptionsDeprecated] /\
  api_log r.2 = [].
Proof. vm_compute. by repeat split. Qed.

(** [IBMSimulator.run(schedule, backend_options={'shots': 1024}, seed=1)]:
    one warning, about [backend_options]. *)
Lemma simulator_run_warnings_witness :
  let w := example_simulator_world in
  (cls (self w) = IBMSimulator /\ simulator (_configuration (self w)) = true) /\
  warn_log (IBMSimulator_run (One 1%nat) PyNone PyNone (PyDict [("shots", PyInt 1024)])
              PyNone [("seed", PyInt 1)] w).2 = [BackendOptionsDeprecated].
Proof.
  intros w. split; [done|].
  by rewrite (simulator_run_warnings (One 1%nat) PyNone PyNone (PyDict [("shots", PyInt 1024)])
                PyNone [("seed", PyInt 1)] w eq_refl eq_refl).
Defined.

(** Two circuits with [max_circuits_per_job=-1] on the example backend. *)
Lemma negative_maximum_drops_all_witness :
  let a := with_max_circuits_per_job (-1) (default_args (Many [0; 1]%nat)) in
  (circuits a = Many [0; 1]%nat /\
   chunk_size_of (_configuration (self example_world)) (max_circuits_per_job a)
     = Some (-1) /\
   -1 < 0) /\
  (IBMBackend_run a example_world =
     match run_prepare a example_world with
     | (Return d, w1) => (Return (IBMCompositeJob [] d (job_name a) (job_tags a)), w1)
     | (Raise e, w1) => (Raise e, w1)
     end /\
   published (IBMBackend_run a example_world).2 = published example_world /\
   (api_log (IBMBackend_run a example_world).2 = api_log example_world \/
    api_log (IBMBackend_run a example_world).2 =
      api_log example_world ++ [backend_properties (name_of example_world) PyNone])).
Proof.
  intros a. split; [by repeat split|].
  by apply (negative_maximum_drops_all a [0; 1]%nat (-1) example_world).
Defined.

(** Five circuits, at most two per job, on the example simulator, whose
    configuration has no [max_experiments]: three chunks. *)
Lemma run_without_backend_maximum_witness :
  let a := with_max_circuits_per_job 2 (default_args (Many [0; 1; 2; 3; 4]%nat)) in
  let w := example_simulator_world in
  (max_experiments (_configuration (self w)) = None /\
   circuits a = Many [0; 1; 2; 3; 4]%nat /\
   max_circuits_per_job a = Some 2 /\ 0 < 2 < 5) /\
  exists chunks,
    run_dispatch a ∅ w = (Return (IBMCompositeJob chunks ∅ PyNone PyNone), w) /\
    Z.of_nat (length chunks) = ceil_div 5 2 /\
    Forall (fun ch => 1 <= Z.of_nat (length ch) <= 2) chunks /\
    concat chunks = [0; 1; 2; 3; 4]%nat.
Proof.
  intros a w. split; [by repeat split|].
  destruct (run_without_backend_maximum a ∅ w) as [_ H].
  destruct (H eq_refl [0; 1; 2; 3; 4]%nat eq_refl) as (_ & Hchunks & _).
  apply (Hchunks 2 eq_refl). simpl. lia.
Defined.

(** [run(schedule)] on the example backend: the configuration holds the
    option 'shots'. *)
Lemma run_configuration_keys_witness :
  let a := default_args (One 1%nat) in
  exists d w',
    run_prepare a example_world = (Return d, w') /\
    is_Some (d !! "shots").
Proof.
  intros a.
  destruct (run_prepare a example_world) as [[d|e] w'] eqn:Hrun.
  2:{ exfalso.
      assert (H : is_Return (run_prepare a example_world).1 = true)
        by (vm_compute; reflexivity).
      rewrite Hrun in H. discriminate H. }
  exists d, w'. split; [done|].
  destruct (run_configuration_keys a example_world d w' Hrun) as (esp & _ & H).
  apply (proj1 (H "shots")). exists (PyInt 4000). reflexivity.
Defined.

(** [run(schedule, header={'note': 'x'})] on the example backend: one
    warning, that 'qobj_header' is not recognized. *)
Lemma run_named_options_witness :
  let a := with_header (PyDict [("note", PyStr "x")]) (default_args (One 1%nat)) in
  exists d w',
    (run_prepare a example_world = (Return d, w') /\
     NoDup (run_config a).*1 /\
     cls (self example_world) <> IBMSimulator) /\
    option_warnings "qobj_header" w' = 1%nat.
Proof.
  intros a.
  destruct (run_prepare a example_world) as [[d|e] w'] eqn:Hrun.
  2:{ exfalso.
      assert (H : is_Return (run_prepare a example_world).1 = true)
        by (vm_compute; reflexivity).
      rewrite Hrun in H. discriminate H. }
  assert (Hnd : NoDup (run_config a).*1) by constructor.
  assert (Hcls : cls (self example_world) <> IBMSimulator) by done.
  exists d, w'. split; [done|].
  destruct (run_named_options a example_world d w' Hrun Hnd Hcls)
    as (esp & _ & _ & Hdef & _).
  destruct (Hdef eq_refl) as [Hw _]. rewrite Hw. reflexivity.
Defined.

(** QISKIT_IBM_HGP=ibm-q/open/main. *)
Lemma custom_provider_hgp_witness :
  (str_count "/"%char "ibm-q" = 0%nat /\ str_count "/"%char "open" = 0%nat /\
   str_count "/"%char "main" = 0%nat /\
   example_environ !! "QISKIT_IBM_HGP" = Some ("ibm-q" +:+ "/" +:+ "open" +:+ "/" +:+ "main")) /\
  _get_custom_provider example_provider example_environ "token" "url"
    = inr (Some ("ibm-q", "open", "main")).
Proof.
  assert (Henv : example_environ !! "QISKIT_IBM_HGP"
                 = Some ("ibm-q" +:+ "/" +:+ "open" +:+ "/" +:+ "main"))
    by (vm_compute; reflexivity).
  split; [by repeat split|].
  destruct (custom_provider_hgp example_provider example_environ "token" "url")
    as (_ & H & _).
  destruct (H "ibm-q" "open" "main" eq_refl eq_refl eq_refl) as [Hp _].
  rewrite Hp; [done|]. exact Henv.
Defined.

End Examples.
